(** * Aligned Bach Chorales: the metadata preparation script

    A shallow embedding of [code/01_prepare_metadata.py]: the string
    cleaning helpers ([clean_bwv], [make_bwv_column],
    [make_integer_column]), the description pattern [info_regex], the
    table assembly ([pd.merge], [pd.concat]) and the order in which the
    script reads its inputs and writes its outputs.

    Python values are modelled as follows.
    - A [str] is a list of characters.  Characters are [ascii] values,
      read as the code points 0..255.
    - A raising computation returns [Raise e]; a returning one [Ok v].
    - A missing value ([NaN], [pd.NA], [None]) of a table is the cell [NA].
    - [int] is unbounded, so it is [Z]. *)

From Stdlib Require Import List Ascii String ZArith Lia Bool Arith.
From Stdlib Require Decimal DecimalZ DecimalPos DecimalFacts.
From Stdlib Require Import Permutation Sorted.
Import ListNotations.

Set Implicit Arguments.

(** ** Python strings *)

Definition str := list ascii.

(** String literals are read as character lists. *)
Coercion list_ascii_of_string : string >-> list.

Open Scope string_scope.
Open Scope nat_scope.
Open Scope list_scope.

Module Py.

Import Decimal.

(** *** Exceptions *)

Inductive exn : Type :=
| ValueError
| TypeError
| KeyError
| IndexError
| AttributeError
| NameError
| InvalidIndexError
| FileNotFoundError.

Inductive result (A : Type) : Type :=
| Ok (a : A)
| Raise (e : exn).

Arguments Ok {A} a.
Arguments Raise {A} e.

Definition bind {A B} (r : result A) (k : A -> result B) : result B :=
  match r with
  | Ok a => k a
  | Raise e => Raise e
  end.

Definition raises {A} (r : result A) : Prop := exists e, r = Raise e.

(** [Series.map f] and list comprehensions call [f] on the elements from
    first to last; the first exception ends the traversal. *)
Fixpoint map_result {A B} (f : A -> result B) (l : list A) : result (list B) :=
  match l with
  | [] => Ok []
  | a :: l' =>
      bind (f a) (fun b => bind (map_result f l') (fun bs => Ok (b :: bs)))
  end.

(** *** Character tests *)

Definition mem (c : ascii) (chars : str) : bool :=
  existsb (Ascii.eqb c) chars.

(** [str.isspace] on the code points 0..255: TAB..CR, FS..US, SPACE,
    NEL (0x85) and NBSP (0xA0). *)
Definition isspace (c : ascii) : bool :=
  let n := nat_of_ascii c in
  ((9 <=? n) && (n <=? 13)) || ((28 <=? n) && (n <=? 32))
  || (n =? 133) || (n =? 160).

(** The whitespace that [int] skips around a literal: TAB..CR and SPACE,
    and of the code points above 127 NEL and NBSP.  Unlike [str.strip],
    [int] does not skip FS..US. *)
Definition int_space (c : ascii) : bool :=
  let n := nat_of_ascii c in
  ((9 <=? n) && (n <=? 13)) || (n =? 32) || (n =? 133) || (n =? 160).

Definition isdigit (c : ascii) : bool :=
  let n := nat_of_ascii c in (48 <=? n) && (n <=? 57).

(** *** [str.strip] *)

Fixpoint lstrip (p : ascii -> bool) (s : str) : str :=
  match s with
  | [] => []
  | c :: s' => if p c then lstrip p s' else s
  end.

Definition rstrip (p : ascii -> bool) (s : str) : str :=
  List.rev (lstrip p (List.rev s)).

Definition strip_by (p : ascii -> bool) (s : str) : str :=
  rstrip p (lstrip p s).

(** [s.strip(chars)] *)
Definition strip (chars : str) (s : str) : str :=
  strip_by (fun c => mem c chars) s.

(** [s.strip()] *)
Definition strip_ws (s : str) : str := strip_by isspace s.

(** *** [str.split], [re.split] on a character class, [str.join] *)

(** Cut [s] at every character satisfying [p].  The result always has at
    least one segment: [split_by p [] = [[]]]. *)
Fixpoint split_by (p : ascii -> bool) (s : str) : list str :=
  match s with
  | [] => [[]]
  | c :: s' =>
      if p c then [] :: split_by p s'
      else match split_by p s' with
           | seg :: segs => (c :: seg) :: segs
           | [] => [[c]]
           end
  end.

(** [s.split(sep)] for a one-character separator. *)
Definition split (sep : ascii) (s : str) : list str :=
  split_by (Ascii.eqb sep) s.

(** [sep.join(l)] *)
Fixpoint join (sep : str) (l : list str) : str :=
  match l with
  | [] => []
  | [x] => x
  | x :: rest => x ++ sep ++ join sep rest
  end.

Definition startswith (prefix s : str) : bool :=
  (fix go (p s : str) : bool :=
     match p, s with
     | [], _ => true
     | _ :: _, [] => false
     | a :: p', b :: s' => Ascii.eqb a b && go p' s'
     end) prefix s.

(** *** [int(s)] and [str(n)] *)

Definition digit_cons (c : ascii) (u : uint) : option uint :=
  match nat_of_ascii c - 48 with
  | 0 => if isdigit c then Some (D0 u) else None
  | 1 => Some (D1 u)
  | 2 => Some (D2 u)
  | 3 => Some (D3 u)
  | 4 => Some (D4 u)
  | 5 => Some (D5 u)
  | 6 => Some (D6 u)
  | 7 => Some (D7 u)
  | 8 => Some (D8 u)
  | 9 => Some (D9 u)
  | _ => None
  end.

(** The decimal numeral spelled by a string of digits, most significant
    digit first; [None] when a character is not a digit. *)
Fixpoint uint_of_digits (s : str) : option uint :=
  match s with
  | [] => Some Nil
  | c :: s' =>
      match uint_of_digits s' with
      | Some u => digit_cons c u
      | None => None
      end
  end.

Fixpoint digits_of_uint (u : uint) : str :=
  match u with
  | Nil => []
  | D0 u' => "0"%char :: digits_of_uint u'
  | D1 u' => "1"%char :: digits_of_uint u'
  | D2 u' => "2"%char :: digits_of_uint u'
  | D3 u' => "3"%char :: digits_of_uint u'
  | D4 u' => "4"%char :: digits_of_uint u'
  | D5 u' => "5"%char :: digits_of_uint u'
  | D6 u' => "6"%char :: digits_of_uint u'
  | D7 u' => "7"%char :: digits_of_uint u'
  | D8 u' => "8"%char :: digits_of_uint u'
  | D9 u' => "9"%char :: digits_of_uint u'
  end.

(** The digits of an integer literal: groups of digits separated by single
    underscores, neither leading nor trailing, and at least one digit. *)
Definition int_body (s : str) : option uint :=
  let groups := split "_"%char s in
  if forallb (fun g => negb (Nat.eqb (List.length g) 0)) groups
  then uint_of_digits (List.concat groups)
  else None.

(** [int(s)] in base 10: surrounding whitespace is skipped, one sign is
    allowed, leading zeros are allowed.  The interpreter's optional cap on
    the number of digits is a run-time setting and is left out. *)
Definition int (s : str) : result Z :=
  let t := strip_by int_space s in
  let positive b := option_map (fun u => Z.of_int (Pos u)) (int_body b) in
  let negative b := option_map (fun u => Z.of_int (Neg u)) (int_body b) in
  let parsed :=
    match t with
    | c :: b =>
        if Ascii.eqb c "+" then positive b
        else if Ascii.eqb c "-" then negative b
        else positive t
    | [] => positive t
    end in
  match parsed with
  | Some z => Ok z
  | None => Raise ValueError
  end.

(** [str(n)] for an [int]. *)
Definition str_of_int (z : Z) : str :=
  match Z.to_int z with
  | Pos u => digits_of_uint u
  | Neg u => "-"%char :: digits_of_uint u
  end.

(** [s.zfill(width)]: zeros are inserted after a leading sign. *)
Definition zfill (width : nat) (s : str) : str :=
  let pad := repeat "0"%char (width - List.length s) in
  match s with
  | c :: s' =>
      if (Ascii.eqb c "+" || Ascii.eqb c "-")%bool then c :: pad ++ s'
      else pad ++ s
  | [] => pad
  end.

End Py.

Import Py.

Notation "'let*' x ':=' c1 'in' c2" := (Py.bind c1 (fun x => c2))
  (at level 10, x name, c1 at level 100, c2 at level 200).

(** ** Table cells *)

(** A cell of a [DataFrame] or [Series]: missing, a string or an integer. *)
Inductive cell : Type :=
| NA
| Str (s : str)
| Int (z : Z).

Definition notna (c : cell) : bool :=
  match c with
  | NA => false
  | _ => true
  end.

(** ** The cleaning helpers (script lines 109-127) *)

(** [split_result[-1] = v] *)
Definition set_last (l : list str) (v : str) : list str :=
  removelast l ++ [v].

(** <<
def clean_bwv(bwv_str):
    result = bwv_str.strip('( )')
    split_result = result.split('.')
    if len(split_result) > 1:
        split_result[-1] = str(int(split_result[-1]))
    result = '.'.join(split_result)
    if result == '145a':
        result = '145-a'
    return result
>> *)
Definition clean_bwv (bwv_str : str) : result str :=
  let result := strip "( )" bwv_str in
  let split_result := split "." result in
  let* split_result :=
    (if 1 <? List.length split_result
     then let* n := int (last split_result []) in
          Ok (set_last split_result (str_of_int n))
     else Ok split_result) in
  let result := join "." split_result in
  if list_eq_dec ascii_dec result "145a" then Ok ("145-a" : str)
  else Ok result.

(** <<
def make_bwv_column(S):
    S = S.fillna('').str.strip('() ')
    S = S.str.split("=")
    S = S.map(lambda l: [E for elem in l if (E := elem.strip())])
    S = S.map(lambda l: clean_bwv(l[0]) if l else pd.NA)
    return S.rename('bwv')
>> *)
Definition nonempty (s : str) : bool :=
  match s with
  | [] => false
  | _ :: _ => true
  end.

(** [[E for elem in l if (E := elem.strip())]] *)
Definition stripped_nonempty (l : list str) : list str :=
  filter nonempty (map strip_ws l).

Definition fillna (default : str) (c : cell) : cell :=
  match c with
  | NA => Str default
  | _ => c
  end.

(** The first three statements on one cell.  [fillna('')] turns a missing
    cell into the empty string; the [.str] methods leave a cell that is
    not a string missing, and iterating over it in the first lambda
    raises [TypeError]. *)
Definition alternates (c : cell) : result (list str) :=
  match fillna [] c with
  | Str s => Ok (stripped_nonempty (split "=" (strip "() " s)))
  | _ => Raise TypeError
  end.

(** [clean_bwv(l[0]) if l else pd.NA] *)
Definition first_cleaned (l : list str) : result cell :=
  match l with
  | [] => Ok NA
  | e :: _ => let* r := clean_bwv e in Ok (Str r)
  end.

(** The first [map] runs over the whole column before the second one
    starts. *)
Definition make_bwv_column (S : list cell) : result (list cell) :=
  let* S := map_result alternates S in
  map_result first_cleaned S.

(** What [make_bwv_column] does to one cell. *)
Definition make_bwv_cell (c : cell) : result cell :=
  let* l := alternates c in
  first_cleaned l.

(** [make_integer_column], cell by cell.  [.str.split] leaves a cell that
    is not a string missing, and subscripting it in the lambda raises
    [TypeError].
<<
def make_integer_column(S):
    return S.str.split("[.=]").map(lambda l: int(l[0])).astype("Int64")
>> *)
Definition dot_or_eq (c : ascii) : bool :=
  (Ascii.eqb c "." || Ascii.eqb c "=")%bool.

Definition make_integer_cell (c : cell) : result Z :=
  match c with
  | Str s => int (hd [] (split_by dot_or_eq s))
  | _ => Raise TypeError
  end.

Definition make_integer_column (S : list cell) : result (list Z) :=
  map_result make_integer_cell S.

(** ** The description pattern (script lines 73-75) *)

Module Re.

(** The part of Python's [re] syntax that [info_regex] uses.  Quantifiers
    are applied to single characters only, as in the pattern. *)
Inductive cls : Type :=
| CChar (c : ascii)   (* a literal character *)
| CDot                (* [.]  : anything but a newline *)
| CDigit              (* [\d] *)
| CNonSpace.          (* [\S] *)

Inductive gname : Type := title | bwv1 | bwv2 | mode.

Inductive re : Type :=
| Lit (s : str)                             (* literal text *)
| Rep (c : cls) (min : nat) (greedy : bool) (* [c*] [c+] [c*?] [c+?] *)
| Opt (r : re)                              (* [(?:r)?], greedy *)
| Group (g : gname) (r : re)                (* [(?P<g>r)] *)
| Seq (r1 r2 : re).

Definition cls_test (c : cls) (a : ascii) : bool :=
  match c with
  | CChar c' => Ascii.eqb c' a
  | CDot => negb (Ascii.eqb a "010")
  | CDigit => isdigit a
  | CNonSpace => negb (isspace a)
  end.

Definition gname_eqb (a b : gname) : bool :=
  match a, b with
  | title, title | bwv1, bwv1 | bwv2, bwv2 | mode, mode => true
  | _, _ => false
  end.

(** The groups that took part in a match, with the text they captured. *)
Definition captures := gname -> option str.

Definition no_captures : captures := fun _ => None.

Definition capture (g : gname) (v : str) (cs : captures) : captures :=
  fun g' => if gname_eqb g g' then Some v else cs g'.

Fixpoint strip_prefix (p s : str) : option str :=
  match p, s with
  | [], _ => Some s
  | _ :: _, [] => None
  | a :: p', b :: s' => if Ascii.eqb a b then strip_prefix p' s' else None
  end.

(** What was read between the input [s] and its suffix [rest]. *)
Definition consumed (s rest : str) : str :=
  firstn (List.length s - List.length rest) s.

Section Backtracking.

Variable A : Type.

(** Greedy repetition: take one more character first, fall back to the
    continuation. *)
Fixpoint rep_greedy (p : ascii -> bool) (min : nat)
         (k : str -> option A) (s : str) : option A :=
  let stop := match min with 0 => k s | S _ => None end in
  match s with
  | [] => stop
  | c :: s' =>
      if p c then
        match rep_greedy p (pred min) k s' with
        | Some r => Some r
        | None => stop
        end
      else stop
  end.

(** Lazy repetition: try the continuation first, take one more character
    on failure. *)
Fixpoint rep_lazy (p : ascii -> bool) (min : nat)
         (k : str -> option A) (s : str) : option A :=
  match (match min with 0 => k s | S _ => None end) with
  | Some r => Some r
  | None =>
      match s with
      | [] => None
      | c :: s' => if p c then rep_lazy p (pred min) k s' else None
      end
  end.

End Backtracking.

(** Backtracking match of [r] at the start of [s]; [k] matches what
    follows [r].  Alternatives are tried in the order of [re]. *)
Fixpoint exec (r : re) (s : str) (cs : captures)
         (k : str -> captures -> option captures) : option captures :=
  match r with
  | Lit l =>
      match strip_prefix l s with
      | Some s' => k s' cs
      | None => None
      end
  | Rep c min greedy =>
      (if greedy then @rep_greedy captures else @rep_lazy captures)
        (cls_test c) min (fun s' => k s' cs) s
  | Opt r' =>
      match exec r' s cs k with
      | Some res => Some res
      | None => k s cs
      end
  | Group g r' =>
      exec r' s cs (fun s' cs' => k s' (capture g (consumed s s') cs'))
  | Seq r1 r2 =>
      exec r1 s cs (fun s' cs' => exec r2 s' cs' k)
  end.

Definition match_here (r : re) (s : str) : option captures :=
  exec r s no_captures (fun _ cs => Some cs).

(** [re.search]: the match at the leftmost position that has one. *)
Fixpoint search (r : re) (s : str) : option captures :=
  match match_here r s with
  | Some cs => Some cs
  | None =>
      match s with
      | [] => None
      | _ :: s' => search r s'
      end
  end.

Definition cat (l : list re) : re :=
  match l with
  | [] => Lit []
  | r :: rs => fold_left Seq rs r
  end.

End Re.

Import Re.

(** <<
info_regex = r"<link>(?P<title>.*?)<\/link>(?:, <small>(?:BWV )?(?P<bwv1>\d+)\/?(?P<bwv2>\d+)?.*?<\/small>)? *(?:\((?P<mode>\S+?)\))?"
>> *)
Definition info_regex : re :=
  cat [ Lit "<link>"; Group title (Rep CDot 0 false); Lit "</link>";
        Opt (cat [ Lit ", <small>"; Opt (Lit "BWV ");
                   Group bwv1 (Rep CDigit 1 true); Opt (Lit "/");
                   Opt (Group bwv2 (Rep CDigit 1 true));
                   Rep CDot 0 false; Lit "</small>" ]);
        Rep (CChar " ") 0 true;
        Opt (cat [ Lit "("; Group mode (Rep CNonSpace 1 false); Lit ")" ]) ].

(** One row of [Series.str.extract(info_regex)]: a column per named group,
    missing where the group took no part in the match, where the cell has
    no match, and where the cell itself is missing. *)
Record description : Type := {
  d_title : option str;
  d_bwv1 : option str;
  d_bwv2 : option str;
  d_mode : option str
}.

Definition no_description : description :=
  {| d_title := None; d_bwv1 := None; d_bwv2 := None; d_mode := None |}.

Definition str_extract (c : cell) : description :=
  match c with
  | NA | Int _ => no_description
  | Str s =>
      match search info_regex s with
      | None => no_description
      | Some cs =>
          {| d_title := cs title; d_bwv1 := cs bwv1;
             d_bwv2 := cs bwv2; d_mode := cs mode |}
      end
  end.

(** [bwv = bwv1 + ('.' + bwv2).fillna('')] *)
Definition description_bwv (d : description) : option str :=
  match d_bwv1 d with
  | None => None
  | Some b1 =>
      Some (b1 ++ match d_bwv2 d with
                  | Some b2 => "."%char :: b2
                  | None => []
                  end)
  end.

(** ** Data frames *)

(** A [DataFrame]: the column names and, per row, the index label and the
    cells in column order.  A [Series] is a frame with one column. *)
Record frame : Type := {
  columns : list str;
  rows : list (cell * list cell)
}.

Definition labels (f : frame) : list cell := map fst (rows f).

Definition str_eqb (a b : str) : bool :=
  if list_eq_dec ascii_dec a b then true else false.

Definition cell_eqb (a b : cell) : bool :=
  match a, b with
  | NA, NA => true
  | Str x, Str y => str_eqb x y
  | Int x, Int y => Z.eqb x y
  | _, _ => false
  end.

Fixpoint col_pos (name : str) (cols : list str) : option nat :=
  match cols with
  | [] => None
  | c :: cs => if str_eqb name c then Some 0 else option_map S (col_pos name cs)
  end.

(** The cell of a row in the column at position [i]. *)
Definition at_col (i : nat) (r : cell * list cell) : cell := nth i (snd r) NA.

(** Position of a column; [e] is what the failed access raises:
    [AttributeError] for [df.name], [KeyError] for [df["name"]]. *)
Definition column_pos (e : exn) (name : str) (f : frame) : result nat :=
  match col_pos name (columns f) with
  | Some i => Ok i
  | None => Raise e
  end.

Definition range_index (n : nat) : list cell :=
  map (fun i => Int (Z.of_nat i)) (List.seq 0 n).

(** [range(a, b)] *)
Definition range (a b : Z) : list Z :=
  map (fun i => (a + Z.of_nat i)%Z) (List.seq 0 (Z.to_nat (b - a))).

Definition remove_nth {A} (i : nat) (l : list A) : list A :=
  firstn i l ++ skipn (S i) l.

Definition insert_nth {A} (i : nat) (a : A) (l : list A) : list A :=
  firstn i l ++ a :: skipn i l.

(** *** Sorting *)

(** Python's order on [str]: by code point, shorter prefix first. *)
Fixpoint str_leb (a b : str) : bool :=
  match a, b with
  | [], _ => true
  | _ :: _, [] => false
  | x :: a', y :: b' =>
      if nat_of_ascii x <? nat_of_ascii y then true
      else if nat_of_ascii y <? nat_of_ascii x then false
      else str_leb a' b'
  end.

(** The order pandas sorts by: ascending, missing values last. *)
Definition cell_leb (a b : cell) : bool :=
  match a, b with
  | _, NA => true
  | NA, _ => false
  | Int x, Int y => (x <=? y)%Z
  | Str x, Str y => str_leb x y
  | Int _, Str _ => true
  | Str _, Int _ => false
  end.

Section Sort.

Variable A : Type.
Variable key : A -> cell.

Fixpoint insert_by (a : A) (l : list A) : list A :=
  match l with
  | [] => [a]
  | b :: l' =>
      if cell_leb (key a) (key b) then a :: l else b :: insert_by a l'
  end.

(** Rows in ascending order of [key].  pandas leaves the order of rows
    with equal keys open; here they keep their order. *)
Definition sort_by (l : list A) : list A := fold_right insert_by [] l.

End Sort.

Definition is_str (c : cell) : bool :=
  match c with Str _ => true | _ => false end.

Definition is_int (c : cell) : bool :=
  match c with Int _ => true | _ => false end.

(** Strings and integers are not comparable: sorting a column that holds
    both raises [TypeError]. *)
Definition mixed (keys : list cell) : bool :=
  existsb is_str keys && existsb is_int keys.

(** ** Assembling [riemenschneider] (script lines 130-133) *)

(** [df[name] = values]: replaces the column when it exists, appends it
    otherwise. *)
Definition setitem (name : str) (values : list cell) (f : frame) : frame :=
  match col_pos name (columns f) with
  | Some i =>
      {| columns := columns f;
         rows := map (fun rv => (fst (fst rv),
                                 firstn i (snd (fst rv)) ++ snd rv
                                   :: skipn (S i) (snd (fst rv))))
                     (combine (rows f) values) |}
  | None =>
      {| columns := columns f ++ [name];
         rows := map (fun rv => (fst (fst rv), snd (fst rv) ++ [snd rv]))
                     (combine (rows f) values) |}
  end.

(** [df.set_index(name)] *)
Definition set_index (name : str) (f : frame) : result frame :=
  let* i := column_pos KeyError name f in
  Ok {| columns := remove_nth i (columns f);
        rows := map (fun r => (at_col i r, remove_nth i (snd r))) (rows f) |}.

(** [df.sort_index()] *)
Definition sort_index (f : frame) : frame :=
  {| columns := columns f; rows := sort_by fst (rows f) |}.

(** [df.insert(loc, name, values)] *)
Definition insert_column (loc : nat) (name : str) (values : list cell)
           (f : frame) : result frame :=
  if existsb (str_eqb name) (columns f) then Raise ValueError
  else if List.length (columns f) <? loc then Raise IndexError
  else Ok {| columns := insert_nth loc name (columns f);
             rows := map (fun rv => (fst (fst rv),
                                     insert_nth loc (snd rv) (snd (fst rv))))
                         (combine (rows f) values) |}.

(** <<
riemenschneider = bct[bct.R.notna()].copy()
riemenschneider["Riemenschneider"] = make_integer_column(riemenschneider.R)
riemenschneider = riemenschneider.set_index("Riemenschneider").sort_index()
riemenschneider.insert(3, "CPE", make_integer_column(riemenschneider.B))
>> *)
Definition R_not_missing (bct : frame) : result frame :=
  let* iR := column_pos AttributeError "R" bct in
  Ok {| columns := columns bct;
        rows := filter (fun r => notna (at_col iR r)) (rows bct) |}.

Definition prepare_riemenschneider (bct : frame) : result frame :=
  let* riemenschneider := R_not_missing bct in
  let* iR := column_pos AttributeError "R" riemenschneider in
  let* keys := make_integer_column (map (at_col iR) (rows riemenschneider)) in
  let riemenschneider := setitem "Riemenschneider" (map Int keys) riemenschneider in
  let* riemenschneider := set_index "Riemenschneider" riemenschneider in
  let riemenschneider := sort_index riemenschneider in
  let* iB := column_pos AttributeError "B" riemenschneider in
  let* cpe := make_integer_column (map (at_col iB) (rows riemenschneider)) in
  insert_column 3 "CPE" (map Int cpe) riemenschneider.

(** ** The outer join (script lines 135-141) *)

(** A row of the join: the key, the cells of the left table's columns and
    the cells of the right table's columns other than the key. *)
Record merged_row : Type := {
  m_key : cell;
  m_left : list cell;
  m_right : list cell
}.

Record merged : Type := {
  m_columns : list str;
  m_rows : list merged_row
}.

Definition flat (r : merged_row) : list cell :=
  m_key r :: m_left r ++ m_right r.

(** The right table with its key column taken out of the cells. *)
Definition keyed (j : nat) (right : frame) : list (cell * list cell) :=
  map (fun r => (at_col j r, remove_nth j (snd r))) (rows right).

(** A left row with each right row of equal key, or with [nr] missing
    values when there is none. *)
Definition pair_left (nr : nat) (rrows : list (cell * list cell))
           (l : cell * list cell) : list merged_row :=
  match filter (fun r => cell_eqb (fst l) (fst r)) rrows with
  | [] => [ {| m_key := fst l; m_left := snd l; m_right := repeat NA nr |} ]
  | ms => map (fun r => {| m_key := fst l; m_left := snd l; m_right := snd r |}) ms
  end.

(** The right rows whose key no left row has, with [nl] missing values. *)
Definition right_only (nl : nat) (lrows rrows : list (cell * list cell))
  : list merged_row :=
  map (fun r => {| m_key := fst r; m_left := repeat NA nl; m_right := snd r |})
      (filter (fun r => negb (existsb (fun l => cell_eqb (fst l) (fst r)) lrows))
              rrows).

(** [pd.merge(left, right, how="outer", on=key, suffixes=(None, suffix))]
    where [key] names the index of [left] and a column of [right].  Every
    left row is paired with the right rows of equal key, or with missing
    values when there is none; the right rows whose key no left row has
    follow, with missing values on the left.  Missing keys match each
    other.  The result is ordered by key. *)
Definition merge_outer (left right : frame) (key suffix : str)
  : result merged :=
  let* j := column_pos KeyError key right in
  let lrows := rows left in
  let rrows := keyed j right in
  let nl := List.length (columns left) in
  let nr := List.length (columns right) - 1 in
  Ok {| m_columns :=
          key :: columns left
              ++ map (fun c => if existsb (str_eqb c) (columns left)
                               then c ++ suffix else c)
                     (remove_nth j (columns right));
        m_rows := sort_by m_key (flat_map (pair_left nr rrows) lrows
                                 ++ right_only nl lrows rrows) |}.

(** [df.sort_values(name)] *)
Definition sort_values (name : str) (m : merged) : result merged :=
  match col_pos name (m_columns m) with
  | None => Raise KeyError
  | Some i =>
      let key := fun r => nth i (flat r) NA in
      if mixed (map key (m_rows m)) then Raise TypeError
      else Ok {| m_columns := m_columns m; m_rows := sort_by key (m_rows m) |}
  end.

(** [.reset_index(drop=True)]: the rows are labelled by their position. *)
Definition reset_index (m : merged) : frame :=
  {| columns := m_columns m;
     rows := combine (range_index (List.length (m_rows m))) (map flat (m_rows m)) |}.

(** <<
mapping_table = pd.merge(
    left=riemenschneider, right=wikitable, how="outer",
    on="Riemenschneider", suffixes=(None, "_wiki")
).sort_values("389").reset_index(drop=True)
>> *)
Definition mapping_rows (riemenschneider wikitable : frame) : result merged :=
  let* m := merge_outer riemenschneider wikitable "Riemenschneider" "_wiki" in
  sort_values "389" m.

Definition mapping_table (riemenschneider wikitable : frame) : result frame :=
  let* m := mapping_rows riemenschneider wikitable in
  Ok (reset_index m).

(** ** Column-wise concatenation (script lines 76 and 145-152) *)

(** [pd.Series(values, index=index, name=name)] *)
Definition Series (values : list cell) (index : list cell) (name : str)
  : result frame :=
  if List.length values =? List.length index
  then Ok {| columns := [name];
             rows := combine index (map (fun v => [v]) values) |}
  else Raise ValueError.

(** [df.name.rename(new)]: one column as a [Series]. *)
Definition column_as (name new : str) (f : frame) : result frame :=
  let* i := column_pos AttributeError name f in
  Ok {| columns := [new]; rows := map (fun r => (fst r, [at_col i r])) (rows f) |}.

Fixpoint labels_eqb (a b : list cell) : bool :=
  match a, b with
  | [], [] => true
  | x :: a', y :: b' => cell_eqb x y && labels_eqb a' b'
  | _, _ => false
  end.

Fixpoint nodupb (l : list cell) : bool :=
  match l with
  | [] => true
  | x :: l' => negb (existsb (cell_eqb x) l') && nodupb l'
  end.

(** [df.loc[label]]: the cells of the first row with that label. *)
Definition loc (f : frame) (label : cell) : option (list cell) :=
  option_map snd (find (fun r => cell_eqb (fst r) label) (rows f)).

(** The cells of [f] in the row [label] of a concatenation: missing in
    every column when [f] has no such row. *)
Definition reindex_row (f : frame) (label : cell) : list cell :=
  match loc f label with
  | Some cs => cs
  | None => repeat NA (List.length (columns f))
  end.

(** Labels in the order of their first appearance. *)
Definition union_labels (ls : list (list cell)) : list cell :=
  fold_left (fun acc l =>
               acc ++ filter (fun x => negb (existsb (cell_eqb x) acc)) l)
            ls [].

Fixpoint zip_rows (fs : list frame) : list (cell * list cell) :=
  match fs with
  | [] => []
  | [f] => rows f
  | f :: fs' =>
      map (fun rr => (fst (fst rr), snd (fst rr) ++ snd (snd rr)))
          (combine (rows f) (zip_rows fs'))
  end.

(** [pd.concat(fs, axis=1)].  Frames with one and the same index are put
    side by side.  Otherwise the rows are aligned on the union of the
    labels, which requires the labels of each frame to be unique. *)
Definition concat_axis1 (fs : list frame) : result frame :=
  match fs with
  | [] => Raise ValueError
  | f0 :: _ =>
      let cols := flat_map columns fs in
      if forallb (fun f => labels_eqb (labels f) (labels f0)) fs
      then Ok {| columns := cols; rows := zip_rows fs |}
      else if forallb (fun f => nodupb (labels f)) fs
      then Ok {| columns := cols;
                 rows := map (fun l => (l, flat_map (fun f => reindex_row f l) fs))
                             (union_labels (map labels fs)) |}
      else Raise InvalidIndexError
  end.

(** <<
[f"chor{str(i).zfill(3)}.krn" if i != 150 else None for i in range(1, 372)]
[f"{str(i).zfill(3)}/short_score.mxl" for i in range(1, 372)]
>> *)
Definition krn_file_name (i : Z) : cell :=
  if (i =? 150)%Z then NA
  else Str ("chor" ++ zfill 3 (str_of_int i) ++ ".krn").

Definition xml_file_name (i : Z) : cell :=
  Str (zfill 3 (str_of_int i) ++ "/short_score.mxl").

Definition krn_file_values : list cell := map krn_file_name (range 1 372).

Definition xml_file_values : list cell := map xml_file_name (range 1 372).

Definition cell_of_option (o : option str) : cell :=
  match o with
  | Some s => Str s
  | None => NA
  end.

(** <<
riemenschneider = pd.concat([
    krn_metadata.title.rename('krn_title'),
    pd.Series([...], index=riemenschneider.index, name='krn_file'),
    pd.Series([...], index=riemenschneider.index, name='xml_file'),
    pd.Series(title_list, index=riemenschneider.index, name='cap_file'),
    make_bwv_column(riemenschneider.BWV).rename('bwv'),
    riemenschneider
], axis=1)
>> *)
Definition final_table (krn_metadata : frame) (title_list : list (option str))
           (riemenschneider : frame) : result frame :=
  let* krn_title := column_as "title" "krn_title" krn_metadata in
  let index := labels riemenschneider in
  let* krn_file := Series krn_file_values index "krn_file" in
  let* xml_file := Series xml_file_values index "xml_file" in
  let* cap_file := Series (map cell_of_option title_list) index "cap_file" in
  let* iBWV := column_pos AttributeError "BWV" riemenschneider in
  let* bwv := make_bwv_column (map (at_col iBWV) (rows riemenschneider)) in
  let* bwv := Series bwv index "bwv" in
  concat_axis1 [krn_title; krn_file; xml_file; cap_file; bwv; riemenschneider].

(** ** The inputs of a run *)

(** A [<table>] element of an HTML document: its attributes and the
    [DataFrame] that [pd.read_html] builds from it. *)
Record html_table : Type := {
  t_attrs : list (str * str);
  t_frame : frame
}.

(** What a run reads, and the library functions whose results are taken
    as given. *)
Record world : Type := {
  (** [open(path).read()]; [None] when the file does not exist *)
  read_text : str -> option str;
  (** the tables of an HTML text, read with the given [na_values] *)
  html_tables : list str -> str -> list html_table;
  (** [html.unescape] *)
  unescape : str -> str;
  (** [pd.read_csv("../craigsapp_krn/index.hmd", sep='\t', skiprows=2)] *)
  krn_index : result frame;
  (** the values of [get_dcml_files("../DCMLab_cap/MS3", ...)], a
      function of [utils]: per file a sequence, empty or starting with
      the title *)
  dcml_files : result (list (list str));
  (** [pd.read_csv("389_chorale_settings.csv", dtype=...)] *)
  wikitable_csv : result frame
}.

(** ** Reading the tables (script lines 43-100) *)

Definition has_attrs (attrs : list (str * str)) (t : html_table) : bool :=
  forallb (fun kv =>
             existsb (fun kv' => str_eqb (fst kv) (fst kv')
                                 && str_eqb (snd kv) (snd kv'))
                     (t_attrs t))
          attrs.

(** [pd.read_html(html, na_values=na_values, attrs=attrs)]: the tables
    with the given attributes; [ValueError] ("No tables found") when there
    is none. *)
Definition read_html (w : world) (html : str) (na_values : list str)
           (attrs : list (str * str)) : result (list frame) :=
  match filter (has_attrs attrs) (html_tables w na_values html) with
  | [] => Raise ValueError
  | ts => Ok (map t_frame ts)
  end.

(** The name [HEADERS] is bound nowhere in the script: the branch that
    fetches a URL raises [NameError].
<<
def get_table(url_or_html, n=0, na_values=["9999", "ZZZZ"],
              attrs = dict(id="sortable")):
    if url_or_html.startswith('http') or url_or_html.startswith('www'):
        r = requests.get(url_or_html, headers=HEADERS)
        html = r.text
    else:
        html = url_or_html
    table = pd.read_html(html, na_values=na_values, attrs=attrs)[n]
    return table
>> *)
Definition get_table (w : world) (url_or_html : str) (n : nat)
           (na_values : list str) (attrs : list (str * str)) : result frame :=
  let* html := (if startswith "http" url_or_html || startswith "www" url_or_html
           then Raise NameError
           else Ok url_or_html) in
  let* tables := read_html w html na_values attrs in
  match nth_error tables n with
  | Some table => Ok table
  | None => Raise IndexError
  end.

Definition default_na_values : list str := ["9999" : str; "ZZZZ" : str].

Definition default_attrs : list (str * str) := [("id" : str, "sortable" : str)].

(** [html.unescape] on a cell of [Series.map]: a missing cell is a float,
    which [unescape] cannot search. *)
Definition unescape_cell (w : world) (c : cell) : result cell :=
  match c with
  | Str s => Ok (Str (unescape w s))
  | _ => Raise TypeError
  end.

(** [int] on a cell of [Series.map]. *)
Definition int_cell (c : cell) : result Z :=
  match c with
  | Str s => int s
  | Int z => Ok z
  | NA => Raise ValueError
  end.

Definition description_cells (d : description) : list cell :=
  [cell_of_option (d_title d); cell_of_option (d_bwv1 d);
   cell_of_option (d_bwv2 d); cell_of_option (d_mode d)].

(** [df.iloc[:, :-1]] *)
Definition drop_last_column (f : frame) : frame :=
  {| columns := removelast (columns f);
     rows := map (fun r => (fst r, removelast (snd r))) (rows f) |}.

(** <<
krn_table.columns = [c.strip("* ") for c in krn_table.columns]
expanded_description = krn_table.description.map(html.unescape).str.extract(info_regex)
bwv = expanded_description.bwv1 + ('.' + expanded_description.bwv2).fillna('')
krn_metadata = pd.concat([krn_table.iloc[:, :-1], bwv.rename('bwv'), expanded_description], axis=1).iloc[:-1]
krn_metadata.index = krn_metadata.sort.map(int).rename('Riemenschneider')
>> *)
Definition make_krn_metadata (w : world) (krn_table : frame) : result frame :=
  let krn_table := {| columns := map (strip "* ") (columns krn_table);
                      rows := rows krn_table |} in
  let* iD := column_pos AttributeError "description" krn_table in
  let* unescaped := map_result (unescape_cell w) (map (at_col iD) (rows krn_table)) in
  let expanded_description := map str_extract unescaped in
  let bwv := map (fun d => cell_of_option (description_bwv d)) expanded_description in
  let* bwv := Series bwv (labels krn_table) "bwv" in
  let expanded_description :=
    {| columns := ["title" : str; "bwv1" : str; "bwv2" : str; "mode" : str];
       rows := combine (labels krn_table)
                       (map description_cells expanded_description) |} in
  let* krn_metadata := concat_axis1 [drop_last_column krn_table; bwv; expanded_description] in
  let krn_metadata := {| columns := columns krn_metadata;
                         rows := removelast (rows krn_metadata) |} in
  let* iS := column_pos AttributeError "sort" krn_metadata in
  let* index := map_result int_cell (map (at_col iS) (rows krn_metadata)) in
  Ok {| columns := columns krn_metadata;
        rows := combine (map Int index) (map snd (rows krn_metadata)) |}.

(** ** The run *)

(** What [to_csv] is given: a table, written with or without its index,
    or the column types of a table. *)
Inductive payload : Type :=
| Csv (with_index : bool) (f : frame)
| Dtypes (cols : list str).

(** The files written so far, latest first. *)
Definition files := list (str * payload).

(** A step of the script: it returns or raises, and leaves the files
    written before on disk either way.  Writing itself is taken to
    succeed. *)
Definition prog (A : Type) : Type := files -> result A * files.

Definition step {A B} (c : prog A) (k : A -> prog B) : prog B :=
  fun fs =>
    match c fs with
    | (Ok a, fs') => k a fs'
    | (Raise e, fs') => (Raise e, fs')
    end.

Definition lift {A} (r : result A) : prog A := fun fs => (r, fs).

Definition to_csv (path : str) (p : payload) : prog unit :=
  fun fs => (Ok tt, (path, p) :: fs).

Notation "'do' x '<-' c1 ';' c2" := (step c1 (fun x => c2))
  (at level 10, x name, c1 at level 100, c2 at level 200).

Definition open_read (w : world) (path : str) : result str :=
  match read_text w path with
  | Some s => Ok s
  | None => Raise FileNotFoundError
  end.

(** [[fname_title[0] if fname_title else None for fname_title in cap_files.values()]] *)
Definition title_list_of (values : list (list str)) : list (option str) :=
  map (@hd_error str) values.

(** The script from top to bottom; the progress messages are left out. *)
Definition script (w : world) : prog unit :=
  do table_source <- lift (open_read w "BCT_html_source") ;
  do bct <- lift (get_table w table_source 0 default_na_values default_attrs) ;
  do krn_table <- lift (krn_index w) ;
  do krn_metadata <- lift (make_krn_metadata w krn_table) ;
  do _ <- to_csv "krn_metadata_dtypes.csv" (Dtypes (columns krn_metadata)) ;
  do _ <- to_csv "krn_metadata.csv" (Csv false krn_metadata) ;
  do cap_files <- lift (dcml_files w) ;
  let title_list := title_list_of cap_files in
  do wikitable <- lift (wikitable_csv w) ;
  do riemenschneider <- lift (prepare_riemenschneider bct) ;
  do mapping <- lift (mapping_table riemenschneider wikitable) ;
  do _ <- to_csv "mapping_table.csv" (Csv false mapping) ;
  do riemenschneider <- lift (final_table krn_metadata title_list riemenschneider) ;
  to_csv "riemenschneider.csv" (Csv true riemenschneider).

Definition run (w : world) : result unit * files := script w [].

(** ** Notions used to state the properties *)

(** The one literal override of [clean_bwv]. *)
Definition override_145a (r : str) : str :=
  if list_eq_dec ascii_dec r "145a" then "145-a" else r.


(** A decimal numeral as [str] prints it: digits only, after an optional
    minus sign, and no zero in front unless the numeral is "0". *)
Definition plain_numeral (s : str) : bool :=
  match s with
  | [] => false
  | [c] => isdigit c
  | c :: _ => isdigit c && negb (Ascii.eqb c "0") && forallb isdigit s
  end.

Definition canonical_int (s : str) : bool :=
  match s with
  | c :: t => if Ascii.eqb c "-" then plain_numeral t else plain_numeral s
  | [] => false
  end.

(** The characters of [s] before the first one that satisfies [p]. *)
Fixpoint prefix_before (p : ascii -> bool) (s : str) : str :=
  match s with
  | [] => []
  | c :: s' => if p c then [] else c :: prefix_before p s'
  end.

(** A segment that [make_bwv_column] drops: empty once its surrounding
    whitespace is removed. *)
Definition blank (s : str) : bool := forallb isspace s.

(** The rule for composite cells in the words of the specification,
    applied to the cell as it stands: cut the cell at every "=", skip the
    empty and whitespace-only segments, and clean the first segment that
    is left. *)
Definition first_alternate_of_raw_cell (s : str) : result cell :=
  match filter (fun seg => negb (blank seg)) (split "=" s) with
  | [] => Ok NA
  | e :: _ => let* r := clean_bwv e in Ok (Str r)
  end.

(** The same rule applied to the cell without its surrounding
    parentheses and blanks, and cleaning the kept segment without its
    surrounding whitespace. *)
Definition first_alternate (s : str) : result cell :=
  match find (fun seg => negb (blank seg)) (split "=" (strip "() " s)) with
  | None => Ok NA
  | Some e => let* r := clean_bwv (strip_ws e) in Ok (Str r)
  end.

(** How often the key [k] occurs in a column of keys. *)
Definition occurrences (k : cell) (keys : list cell) : nat :=
  List.length (filter (cell_eqb k) keys).

(** The number of rows of a join with the key [k]. *)
Definition rows_with_key (k : cell) (rs : list merged_row) : nat :=
  List.length (filter (fun r => cell_eqb (m_key r) k) rs).


(** Rows in ascending order of their integer labels. *)
Definition ascending (rs : list (cell * list cell)) : Prop :=
  exists zs, map fst rs = map Int zs /\ StronglySorted Z.le zs.

(** Labels that are integers from 1 to 371. *)
Definition reference_label (c : cell) : bool :=
  match c with
  | Int z => ((1 <=? z) && (z <=? 371))%Z
  | _ => false
  end.

(** Every row has one cell per column. *)
Definition well_formed (f : frame) : Prop :=
  Forall (fun r => List.length (snd r) = List.length (columns f)) (rows f).

(** The cell of the row labelled [label] in the column [name]. *)
Definition cell_at (f : frame) (label : cell) (name : str) : option cell :=
  match loc f label, col_pos name (columns f) with
  | Some cs, Some i => Some (nth i cs NA)
  | _, _ => None
  end.

(** ** A complete run on sample data *)

Module Sample.

(** The HTML table: a title, the Riemenschneider, Breitkopf and BWV
    numbers of 371 chorales, last chorale first, and one entry without a
    Riemenschneider number. *)
Definition bct_row (i : Z) : cell * list cell :=
  (Int (371 - i),
   [Str ("Chorale " ++ str_of_int i); Str (str_of_int i);
    Str (str_of_int (372 - i) ++ ".1");
    Str ("(" ++ str_of_int (249 + i) ++ ".0" ++ str_of_int (1 + i mod 3) ++ ")")]).

Definition bct : frame :=
  {| columns := ["Title" : str; "R" : str; "B" : str; "BWV" : str];
     rows := map bct_row (rev (range 1 372))
             ++ [(Int 371, [Str "Not in Riemenschneider"; NA; NA; Str "500"])] |}.

Definition krn_row (i : Z) : cell * list cell :=
  (Int (i - 1),
   [Str (str_of_int i); Str ("chor" ++ zfill 3 (str_of_int i) ++ ".krn");
    Str ("<link>Chorale " ++ str_of_int i ++ "</link>, <small>BWV "
         ++ str_of_int (249 + i) ++ "</small> (G)")]).

Definition krn_table : frame :=
  {| columns := ["**sort" : str; "**file" : str; "**description" : str];
     rows := map krn_row (range 1 372)
             ++ [(Int 371, [Str "*-"; Str "*-"; Str "*-"])] |}.

Definition wikitable : frame :=
  {| columns := ["389" : str; "Riemenschneider" : str; "Title" : str];
     rows := [(Int 0, [Int 1; Int 2; Str "Ach bleib bei uns"]);
              (Int 1, [Int 2; NA; Str "Ach Gott, erhoer"]);
              (Int 2, [Int 3; Int 1; Str "Ach Gott und Herr"]);
              (Int 3, [Int 4; Int 400; Str "Ach Gott vom Himmel"])] |}.

Definition cap_files : list (list str) :=
  map (fun i => ["Chorale " ++ str_of_int i]) (range 1 372).

Definition page : str := "<table id='sortable'></table>".

Definition world_of (attrs : list (str * str)) (bct : frame) : world :=
  {| read_text := fun path =>
       if str_eqb path "BCT_html_source" then Some page else None;
     html_tables := fun _ html =>
       if str_eqb html page then [ {| t_attrs := attrs; t_frame := bct |} ]
       else [];
     unescape := fun s => s;
     krn_index := Ok krn_table;
     dcml_files := Ok cap_files;
     wikitable_csv := Ok wikitable |}.

Definition world := world_of [("class" : str, "wide" : str); ("id" : str, "sortable" : str)] bct.

(** The chorales numbered 2 to 372 instead of 1 to 371. *)
Definition bct_from_2 : frame :=
  {| columns := columns bct;
     rows := map (fun i => (Int (i - 1),
                            [Str ("Chorale " ++ str_of_int i);
                             Str (str_of_int (i + 1)); Str (str_of_int i);
                             Str (str_of_int (249 + i))]))
                 (range 1 372) |}.

(** The same inputs, but the table of the page has another [id]. *)
Definition world_without_table := world_of [("id" : str, "plain" : str)] bct.

(** A table in which a chorale with a Riemenschneider number has no
    Breitkopf number. *)
Definition bct_without_B : frame :=
  {| columns := ["Title" : str; "R" : str; "B" : str; "BWV" : str];
     rows := [(Int 0, [Str "Chorale 1"; Str "1"; Str "371.1"; Str "250"]);
              (Int 1, [Str "Chorale 2"; Str "2"; NA; Str "251"])] |}.

End Sample.

(** ** Further notions *)

(** The order of two rows by their sort key: ascending, missing values
    last. *)
Definition key_le {A} (key : A -> cell) (a b : A) : Prop :=
  cell_leb (key a) (key b) = true.

(** What it means for a text to match a pattern, whatever the order in
    which a matcher tries the alternatives: [matches r t cs cs'] when [r]
    matches exactly the text [t] and the groups captured before, [cs],
    become [cs']. *)
Inductive matches : re -> str -> captures -> captures -> Prop :=
| matches_Lit l cs : matches (Lit l) l cs cs
| matches_Rep c min greedy t cs :
    forallb (cls_test c) t = true -> min <= List.length t ->
    matches (Rep c min greedy) t cs cs
| matches_Opt_some r t cs cs' :
    matches r t cs cs' -> matches (Opt r) t cs cs'
| matches_Opt_none r cs : matches (Opt r) [] cs cs
| matches_Group g r t cs cs' :
    matches r t cs cs' -> matches (Group g r) t cs (capture g t cs')
| matches_Seq r1 r2 t1 t2 cs cs1 cs2 :
    matches r1 t1 cs cs1 -> matches r2 t2 cs1 cs2 ->
    matches (Seq r1 r2) (t1 ++ t2) cs cs2.

(** [t] occurs in [s]. *)
Definition occurs_in (t s : str) : Prop := exists before after, s = before ++ t ++ after.

(** A non-empty string of decimal digits. *)
Definition digits (v : str) : Prop := v <> [] /\ forallb isdigit v = true.

Unset Implicit Arguments.

(** ** Facts about [strip] *)

Lemma lstrip_decompose p s :
  exists pre, s = pre ++ lstrip p s /\ forallb p pre = true.
Proof.
  induction s as [|c s IH]; simpl.
  - exists []. auto.
  - destruct (p c) eqn:E.
    + destruct IH as (pre & H1 & H2). exists (c :: pre). simpl.
      rewrite E, H2. split; [f_equal; exact H1 | reflexivity].
    + exists []. auto.
Qed.

Lemma lstrip_head p s c t : lstrip p s = c :: t -> p c = false.
Proof.
  induction s as [|a s IH]; simpl; [discriminate|].
  destruct (p a) eqn:E; [exact IH|].
  intros H. injection H as -> _. exact E.
Qed.

Lemma lstrip_all p s : forallb p s = true -> lstrip p s = [].
Proof.
  induction s as [|a s IH]; simpl; [reflexivity|].
  destruct (p a); simpl; [exact IH | discriminate].
Qed.

Lemma lstrip_app_keep p pre s :
  forallb p pre = true -> lstrip p (pre ++ s) = lstrip p s.
Proof.
  induction pre as [|a pre IH]; simpl; [reflexivity|].
  destruct (p a); simpl; [exact IH | discriminate].
Qed.

Lemma lstrip_stop p c s : p c = false -> lstrip p (c :: s) = c :: s.
Proof. intros H. simpl. now rewrite H. Qed.

Lemma lstrip_In p s c : In c (lstrip p s) -> In c s.
Proof.
  destruct (lstrip_decompose p s) as (pre & H & _).
  intros Hc. rewrite H. apply in_or_app. now right.
Qed.

Lemma lstrip_keeps p s c : In c s -> p c = false -> In c (lstrip p s).
Proof.
  induction s as [|a s IH]; simpl; [tauto|].
  intros [->|H] Hc.
  - rewrite Hc. now left.
  - destruct (p a); [now apply IH | now right].
Qed.

Lemma rstrip_In p s c : In c (rstrip p s) -> In c s.
Proof.
  unfold rstrip. rewrite <- in_rev. intros H%lstrip_In. now rewrite in_rev.
Qed.

Lemma rstrip_keeps p s c : In c s -> p c = false -> In c (rstrip p s).
Proof.
  unfold rstrip. intros H Hc. rewrite <- in_rev.
  apply lstrip_keeps; [now rewrite <- in_rev | exact Hc].
Qed.

Lemma strip_by_In p s c : In c (strip_by p s) -> In c s.
Proof. unfold strip_by. intros H%rstrip_In. now apply lstrip_In in H. Qed.

Lemma strip_by_keeps p s c : In c s -> p c = false -> In c (strip_by p s).
Proof.
  unfold strip_by. intros H Hc. apply rstrip_keeps; [|exact Hc].
  now apply lstrip_keeps.
Qed.

Lemma rstrip_last p s t c : rstrip p s = t ++ [c] -> p c = false.
Proof.
  unfold rstrip. intros H.
  apply (f_equal (@List.rev ascii)) in H.
  rewrite rev_involutive, rev_app_distr in H. simpl in H.
  now apply lstrip_head in H.
Qed.

Lemma rstrip_stop p s c : p c = false -> rstrip p (s ++ [c]) = s ++ [c].
Proof.
  intros H. unfold rstrip. rewrite rev_app_distr. simpl.
  rewrite H. simpl. now rewrite rev_involutive.
Qed.

(** [rstrip] only removes characters at the end. *)
Lemma rstrip_decompose p s :
  exists post, s = rstrip p s ++ post /\ forallb p post = true.
Proof.
  unfold rstrip.
  destruct (lstrip_decompose p (List.rev s)) as (pre & H1 & H2).
  exists (List.rev pre). split.
  - rewrite <- rev_app_distr, <- H1. now rewrite rev_involutive.
  - rewrite forallb_forall in *. intros x Hx. apply H2. now rewrite in_rev.
Qed.

Lemma strip_by_head p s c t : strip_by p s = c :: t -> p c = false.
Proof.
  unfold strip_by. intros H.
  destruct (lstrip p s) as [|a r] eqn:E.
  - discriminate.
  - pose proof (lstrip_head _ _ _ _ E) as Ha.
    destruct (rstrip_decompose p (a :: r)) as (post & H1 & _).
    rewrite H in H1. simpl in H1. injection H1 as -> _. exact Ha.
Qed.

Lemma strip_by_last p s t c : strip_by p s = t ++ [c] -> p c = false.
Proof. unfold strip_by. apply rstrip_last. Qed.

Lemma strip_by_stop p s :
  (forall c t, s = c :: t -> p c = false) ->
  (forall t c, s = t ++ [c] -> p c = false) ->
  strip_by p s = s.
Proof.
  intros Hh Hl. unfold strip_by.
  destruct s as [|a r]; [reflexivity|].
  rewrite lstrip_stop by (eapply Hh; reflexivity).
  destruct (exists_last (l := a :: r)) as (t & c & E); [discriminate|].
  rewrite E. apply rstrip_stop. eapply Hl. exact E.
Qed.

Lemma strip_by_blank p s : forallb p s = true -> strip_by p s = [].
Proof. intros H. unfold strip_by. now rewrite lstrip_all. Qed.

Lemma strip_by_nonblank p s : forallb p s = false -> strip_by p s <> [].
Proof.
  intros H E.
  assert (exists c, In c s /\ p c = false) as (c & Hc & Hp).
  { clear E. induction s as [|a s IH]; simpl in H; [discriminate|].
    destruct (p a) eqn:Ea.
    - destruct (IH H) as (c0 & ? & ?). exists c0. simpl. auto.
    - exists a. simpl. auto. }
  pose proof (strip_by_keeps p s c Hc Hp) as Hin. rewrite E in Hin. exact Hin.
Qed.

(** ** Facts about [split] and [join] *)

Lemma split_by_nonnil p s : split_by p s <> [].
Proof.
  destruct s as [|c s]; simpl; [discriminate|].
  destruct (p c); [discriminate|].
  destruct (split_by p s); discriminate.
Qed.

Lemma split_by_cons_keep p c s :
  p c = false ->
  exists seg segs, split_by p s = seg :: segs
                   /\ split_by p (c :: s) = (c :: seg) :: segs.
Proof.
  intros H. simpl. rewrite H.
  destruct (split_by p s) as [|seg segs] eqn:E.
  - now destruct (split_by_nonnil p s).
  - now exists seg, segs.
Qed.

Lemma split_by_none p s :
  (forall c, In c s -> p c = false) -> split_by p s = [s].
Proof.
  induction s as [|c s IH]; intros H; [reflexivity|].
  simpl. rewrite (H c) by now left.
  rewrite IH; [reflexivity|]. intros x Hx. apply H. now right.
Qed.

Lemma split_by_app p a c b :
  p c = true -> split_by p (a ++ c :: b) = split_by p a ++ split_by p b.
Proof.
  intros Hc. induction a as [|x a IH]; simpl.
  - now rewrite Hc.
  - destruct (p x); [now rewrite IH|].
    rewrite IH. destruct (split_by p a) eqn:E; [|reflexivity].
    now destruct (split_by_nonnil p a).
Qed.

Lemma split_by_free p s seg c :
  In seg (split_by p s) -> In c seg -> p c = false.
Proof.
  revert seg. induction s as [|x s IH]; simpl; intros seg.
  - intros [<-|[]] [].
  - destruct (p x) eqn:E.
    + intros [<-|H]; [intros []|]. now apply IH.
    + destruct (split_by p s) as [|s0 segs] eqn:E'.
      * intros [<-|[]] [<-|[]]. exact E.
      * intros [<-|H] Hc.
        -- destruct Hc as [<-|Hc]; [exact E|].
           apply (IH s0); [now left | exact Hc].
        -- apply (IH seg); [now right | exact Hc].
Qed.

Lemma split_by_concat_In p s c :
  In c (List.concat (split_by p s)) -> In c s.
Proof.
  induction s as [|x s IH]; simpl; [tauto|].
  destruct (p x).
  - simpl. auto.
  - destruct (split_by p s) as [|s0 segs]; simpl in *; [tauto|].
    intros [<-|H]; auto.
Qed.

Lemma split_by_concat_keeps p s c :
  In c s -> p c = false -> In c (List.concat (split_by p s)).
Proof.
  induction s as [|x s IH]; simpl; [tauto|].
  intros [->|H] Hc.
  - rewrite Hc. destruct (split_by p s); simpl; auto.
  - specialize (IH H Hc). destruct (p x); [exact IH|].
    destruct (split_by p s); simpl in *; auto.
Qed.

Lemma join_split c s : join [c] (split c s) = s.
Proof.
  unfold split. induction s as [|x s IH]; [reflexivity|].
  simpl. destruct (Ascii.eqb c x) eqn:E.
  - apply Ascii.eqb_eq in E. subst x.
    destruct (split_by (Ascii.eqb c) s) as [|s0 segs] eqn:E'.
    + now destruct (split_by_nonnil (Ascii.eqb c) s).
    + simpl. f_equal. exact IH.
  - destruct (split_by (Ascii.eqb c) s) as [|s0 segs] eqn:E'.
    + now destruct (split_by_nonnil (Ascii.eqb c) s).
    + rewrite <- IH. destruct segs; reflexivity.
Qed.

Lemma join_snoc sep l x :
  l <> [] -> join sep (l ++ [x]) = join sep l ++ sep ++ x.
Proof.
  induction l as [|a l IH]; [easy|]. intros _.
  destruct l as [|b l]; [reflexivity|].
  change (join sep ((a :: b :: l) ++ [x]))
    with (a ++ sep ++ join sep ((b :: l) ++ [x])).
  rewrite IH by discriminate.
  change (join sep (a :: b :: l)) with (a ++ sep ++ join sep (b :: l)).
  now rewrite <- !app_assoc.
Qed.

Lemma set_last_snoc l x v : set_last (l ++ [x]) v = l ++ [v].
Proof. unfold set_last. now rewrite removelast_last. Qed.

(** A string that has a separator can be cut at its last one. *)
Lemma cut_at_last (p : ascii -> bool) (s : str) :
  existsb p s = true ->
  exists (a : str) c (b : str), s = a ++ c :: b /\ p c = true
                /\ forall x, In x b -> p x = false.
Proof.
  induction s as [|x s IH]; simpl; [discriminate|].
  destruct (existsb p s) eqn:E.
  - intros _. destruct (IH eq_refl) as (a & c & b & -> & Hc & Hb).
    now exists (x :: a), c, b.
  - rewrite orb_false_r. intros Hx. exists [], x, s. repeat split; auto.
    intros y Hy. destruct (p y) eqn:Ey; [|reflexivity].
    assert (existsb p s = true) by (apply existsb_exists; eauto). congruence.
Qed.

Lemma hd_split_by p s : hd [] (split_by p s) = prefix_before p s.
Proof.
  induction s as [|x s IH]; [reflexivity|]. simpl.
  destruct (p x); [reflexivity|].
  destruct (split_by p s); simpl in *; now rewrite <- IH.
Qed.

Lemma not_in_existsb (c : ascii) s :
  ~ In c s -> forall x, In x s -> Ascii.eqb c x = false.
Proof.
  intros H x Hx. destruct (Ascii.eqb c x) eqn:E; [|reflexivity].
  apply Ascii.eqb_eq in E. now subst.
Qed.

Lemma existsb_eqb_In (c : ascii) s : existsb (Ascii.eqb c) s = true <-> In c s.
Proof.
  rewrite existsb_exists. split.
  - intros (x & Hx & E). apply Ascii.eqb_eq in E. now subst.
  - intros H. exists c. split; [exact H | apply Ascii.eqb_refl].
Qed.

(** ** [clean_bwv] on a string cut at its last dot *)

Lemma override_145a_eq r :
  (if list_eq_dec ascii_dec r "145a" then Ok ("145-a" : str) else Ok r)
  = Ok (override_145a r).
Proof. unfold override_145a. now destruct (list_eq_dec ascii_dec r "145a"). Qed.

Lemma clean_bwv_no_dot s :
  ~ In "."%char (strip "( )" s) ->
  clean_bwv s = Ok (override_145a (strip "( )" s)).
Proof.
  intros H. unfold clean_bwv, split.
  rewrite (split_by_none _ _ (not_in_existsb _ _ H)). simpl.
  apply override_145a_eq.
Qed.

Lemma clean_bwv_split s p d :
  strip "( )" s = p ++ "."%char :: d -> ~ In "."%char d ->
  clean_bwv s = (let* n := int d in Ok (override_145a (p ++ "."%char :: str_of_int n))).
Proof.
  intros E H. unfold clean_bwv, split. rewrite E.
  rewrite split_by_app by apply Ascii.eqb_refl.
  rewrite (split_by_none _ d (not_in_existsb _ _ H)).
  assert (Hlen : (1 <? List.length (split_by (Ascii.eqb ".") p ++ [d])) = true).
  { apply Nat.ltb_lt. rewrite length_app. simpl.
    pose proof (split_by_nonnil (Ascii.eqb ".") p).
    destruct (split_by (Ascii.eqb ".") p); [easy | simpl; lia]. }
  rewrite Hlen, last_last.
  destruct (int d) as [n|e]; simpl; [|reflexivity].
  rewrite set_last_snoc, join_snoc by apply split_by_nonnil.
  pose proof (join_split "." p) as J. unfold split in J. rewrite J.
  apply override_145a_eq.
Qed.

(** ** Facts about [int] and [str_of_int] *)

Ltac ascii_cases c :=
  destruct c as [[] [] [] [] [] [] [] []].


Lemma digit_cons_other c u : isdigit c = false -> digit_cons c u = None.
Proof. ascii_cases c; intros H; try discriminate H; reflexivity. Qed.

Lemma digit_not_space c : isdigit c = true -> int_space c = false.
Proof. ascii_cases c; intros H; try discriminate H; reflexivity. Qed.

Lemma digit_not_mark c :
  isdigit c = true ->
  Ascii.eqb c "+" = false /\ Ascii.eqb c "-" = false
  /\ Ascii.eqb "_" c = false /\ Ascii.eqb "." c = false
  /\ Ascii.eqb "=" c = false /\ Ascii.eqb "(" c = false
  /\ Ascii.eqb ")" c = false /\ Ascii.eqb " " c = false.
Proof. ascii_cases c; intros H; try discriminate H; repeat split. Qed.

Lemma uint_of_digits_some d u :
  uint_of_digits d = Some u -> forallb isdigit d = true.
Proof.
  revert u. induction d as [|c d IH]; intros u; simpl; [reflexivity|].
  destruct (uint_of_digits d) as [u0|]; [|discriminate].
  intros H. rewrite (IH u0 eq_refl), andb_true_r.
  destruct (isdigit c) eqn:E; [reflexivity|].
  now rewrite digit_cons_other in H.
Qed.


Lemma digits_of_uint_digits u : forallb isdigit (digits_of_uint u) = true.
Proof. induction u; simpl; auto. Qed.


Lemma strip_int_space_digits d :
  forallb isdigit d = true -> strip_by int_space d = d.
Proof.
  intros H. rewrite forallb_forall in H. apply strip_by_stop.
  - intros c t ->. apply digit_not_space, H. now left.
  - intros t c ->. apply digit_not_space, H, in_or_app. right. now left.
Qed.

Lemma int_body_digits d u :
  d <> [] -> uint_of_digits d = Some u -> int_body d = Some u.
Proof.
  intros Hne E. unfold int_body, split.
  pose proof (uint_of_digits_some d u E) as Hd. rewrite forallb_forall in Hd.
  rewrite split_by_none.
  - simpl. rewrite List.app_nil_r, E.
    destruct d; [easy | reflexivity].
  - intros c Hc. apply digit_not_mark, Hd, Hc.
Qed.

(** [int] reads a string of digits as the numeral it spells. *)
Lemma int_digits d u :
  d <> [] -> uint_of_digits d = Some u ->
  int d = Ok (Z.of_int (Decimal.Pos u)).
Proof.
  intros Hne E. unfold int.
  pose proof (uint_of_digits_some d u E) as Hd.
  rewrite (strip_int_space_digits d Hd).
  destruct d as [|c b]; [easy|].
  simpl in Hd. apply andb_prop in Hd as [Hc _].
  destruct (digit_not_mark c Hc) as (-> & -> & _).
  now rewrite (int_body_digits (c :: b) u Hne E).
Qed.



Lemma plain_numeral_nzhead u :
  Decimal.nzhead u = u -> u <> Decimal.Nil ->
  plain_numeral (digits_of_uint u) = true.
Proof.
  intros H Hn.
  pose proof (digits_of_uint_digits u) as Hd.
  destruct u; try easy;
    try (simpl in *; destruct (digits_of_uint u); simpl in *; now rewrite ?Hd).
  exfalso. apply (DecimalFacts.nzhead_nonzero (Decimal.D0 u) u). exact H.
Qed.

Lemma plain_numeral_not_minus t :
  plain_numeral t = true ->
  match t with c :: _ => Ascii.eqb c "-" = false | [] => False end.
Proof.
  destruct t as [|c t]; [discriminate|].
  assert (isdigit c = true -> Ascii.eqb c "-" = false)
    by (intros H; apply digit_not_mark, H).
  destruct t; simpl; intros H'; apply H.
  - exact H'.
  - now destruct (isdigit c).
Qed.

Lemma plain_numeral_unorm u :
  Decimal.unorm u = u -> plain_numeral (digits_of_uint u) = true.
Proof.
  intros H. destruct (Decimal.uint_eq_dec (Decimal.nzhead u) Decimal.Nil) as [E|E].
  - apply DecimalFacts.unorm_0 in E. rewrite E in H. subst u. reflexivity.
  - rewrite (DecimalFacts.unorm_nzhead u E) in H.
    apply plain_numeral_nzhead; [exact H | congruence].
Qed.

(** [str] prints an integer as a canonical numeral. *)
Lemma str_of_int_canonical z : canonical_int (str_of_int z) = true.
Proof.
  unfold str_of_int.
  pose proof (DecimalZ.to_of (Z.to_int z)) as H.
  rewrite DecimalZ.of_to in H.
  destruct (Z.to_int z) as [u|u] eqn:E.
  - injection H as H. symmetry in H. apply plain_numeral_unorm in H.
    pose proof (plain_numeral_not_minus _ H) as M.
    unfold canonical_int. destruct (digits_of_uint u); [easy|].
    now rewrite M.
  - unfold canonical_int. rewrite Ascii.eqb_refl.
    unfold Decimal.norm in H.
    destruct (Decimal.nzhead u) eqn:En; try discriminate H;
      injection H as H; apply plain_numeral_nzhead; congruence.
Qed.

Lemma str_of_int_chars z c :
  In c (str_of_int z) -> isdigit c = true \/ c = "-"%char.
Proof.
  unfold str_of_int. destruct (Z.to_int z) as [u|u].
  - intros H. left.
    pose proof (digits_of_uint_digits u) as Hd.
    rewrite forallb_forall in Hd. now apply Hd.
  - intros [<-|H]; [now right | left].
    pose proof (digits_of_uint_digits u) as Hd.
    rewrite forallb_forall in Hd. now apply Hd.
Qed.

(** [int] rejects a string with a character that is neither a digit, a
    sign, an underscore nor whitespace. *)
Lemma int_body_foreign d c :
  In c d -> isdigit c = false -> Ascii.eqb "_" c = false -> int_body d = None.
Proof.
  intros Hin Hd Hu. unfold int_body, split.
  destruct (forallb _ _); [|reflexivity].
  destruct (uint_of_digits _) as [u|] eqn:E; [|reflexivity].
  apply uint_of_digits_some in E. rewrite forallb_forall in E.
  rewrite E in Hd; [discriminate|].
  now apply split_by_concat_keeps.
Qed.

Lemma int_foreign d c :
  In c d -> isdigit c = false -> int_space c = false ->
  c <> "+"%char -> c <> "-"%char -> c <> "_"%char ->
  int d = Raise ValueError.
Proof.
  intros Hin Hd Hs Hp Hm Hu. unfold int.
  pose proof (strip_by_keeps int_space d c Hin Hs) as Hin'.
  assert (Hu' : Ascii.eqb "_" c = false).
  { destruct (Ascii.eqb "_" c) eqn:E; [|reflexivity].
    apply Ascii.eqb_eq in E. now subst. }
  destruct (strip_by int_space d) as [|a b]; [easy|].
  assert (Hb : a = c \/ In c b) by exact Hin'.
  destruct (Ascii.eqb a "+") eqn:Ea.
  { apply Ascii.eqb_eq in Ea. subst a. destruct Hb as [Hb|Hb]; [now subst|].
    now rewrite (int_body_foreign b c Hb Hd Hu'). }
  destruct (Ascii.eqb a "-") eqn:Eb.
  { apply Ascii.eqb_eq in Eb. subst a. destruct Hb as [Hb|Hb]; [now subst|].
    now rewrite (int_body_foreign b c Hb Hd Hu'). }
  now rewrite (int_body_foreign (a :: b) c Hin' Hd Hu').
Qed.

Lemma int_empty : int [] = Raise ValueError.
Proof. reflexivity. Qed.

(** ** Facts about the cleaning helpers *)

Lemma map_result_ok {A B} (f : A -> result B) l bs :
  map_result f l = Ok bs -> Forall2 (fun a b => f a = Ok b) l bs.
Proof.
  revert bs. induction l as [|a l IH]; simpl; intros bs.
  - intros [= <-]. constructor.
  - destruct (f a) as [b|e] eqn:E; simpl; [|discriminate].
    destruct (map_result f l) as [bs'|e]; simpl; [|discriminate].
    intros [= <-]. constructor; auto.
Qed.

Lemma map_result_raises {A B} (f : A -> result B) l a :
  In a l -> raises (f a) -> raises (map_result f l).
Proof.
  intros Hin (e & He). induction l as [|x l IH]; [easy|]. simpl.
  destruct (f x) as [b|e'] eqn:E; simpl; [|now exists e'].
  destruct Hin as [->|Hin]; [congruence|].
  destruct (IH Hin) as (e' & ->). now exists e'.
Qed.

Lemma map_result_total {A B} (f : A -> result B) l :
  (forall a, In a l -> exists b, f a = Ok b) ->
  exists bs, map_result f l = Ok bs.
Proof.
  induction l as [|a l IH]; intros H; simpl.
  - now exists [].
  - destruct (H a (or_introl eq_refl)) as (b & ->).
    destruct IH as (bs & ->); [intros x Hx; apply H; now right|].
    now exists (b :: bs).
Qed.

Lemma Forall2_In_left {A B} (P : A -> B -> Prop) l l' a :
  Forall2 P l l' -> In a l -> exists b, In b l' /\ P a b.
Proof.
  induction 1 as [|x y l l' Hxy _ IH]; [easy|].
  intros [<-|Hin]; [exists y; simpl; auto|].
  destruct (IH Hin) as (b & Hb & Hab). exists b. simpl. auto.
Qed.

Lemma Forall2_In_right {A B} (P : A -> B -> Prop) l l' b :
  Forall2 P l l' -> In b l' -> exists a, In a l /\ P a b.
Proof.
  induction 1 as [|x y l l' Hxy _ IH]; [easy|].
  intros [<-|Hin]; [exists x; simpl; auto|].
  destruct (IH Hin) as (a & Ha & Hab). exists a. simpl. auto.
Qed.

Lemma nonempty_strip_ws seg : nonempty (strip_ws seg) = negb (blank seg).
Proof.
  unfold blank, strip_ws. destruct (forallb isspace seg) eqn:E.
  - now rewrite strip_by_blank.
  - pose proof (strip_by_nonblank isspace seg E).
    now destruct (strip_by isspace seg).
Qed.

Lemma hd_stripped_nonempty l :
  hd_error (stripped_nonempty l)
  = option_map strip_ws (find (fun seg => negb (blank seg)) l).
Proof.
  unfold stripped_nonempty. induction l as [|a l IH]; [reflexivity|].
  simpl. rewrite nonempty_strip_ws.
  destruct (negb (blank a)); [reflexivity | exact IH].
Qed.

Lemma make_bwv_cell_first_alternate s :
  make_bwv_cell (Str s) = first_alternate s.
Proof.
  unfold make_bwv_cell, first_alternate, alternates, first_cleaned.
  cbn [fillna Py.bind].
  pose proof (hd_stripped_nonempty (split "=" (strip "() " s))) as H.
  destruct (stripped_nonempty _) as [|e l];
    destruct (find _ _) as [seg|]; simpl in H; try discriminate; [reflexivity|].
  injection H as ->. reflexivity.
Qed.

Lemma find_none_all_blank l :
  forallb blank l = true -> find (fun seg => negb (blank seg)) l = None.
Proof.
  induction l as [|a l IH]; [reflexivity|]. simpl.
  intros [-> H]%andb_prop. simpl. auto.
Qed.

(** A column is cleaned when each of its cells is. *)
Lemma make_bwv_column_ok S rs :
  make_bwv_column S = Ok rs <-> Forall2 (fun c r => make_bwv_cell c = Ok r) S rs.
Proof.
  unfold make_bwv_column. revert rs.
  induction S as [|c S IH]; intros rs; cbn [map_result Py.bind].
  - split; [intros [= <-]; constructor | intros H; now inversion H].
  - unfold make_bwv_cell at 1.
    destruct (alternates c) as [l|e] eqn:Ec; cbn [Py.bind].
    2:{ split; [discriminate|].
        intros H. inversion H as [|c' r' S' rs' Hc HS]; subst.
        unfold make_bwv_cell in Hc. rewrite Ec in Hc. discriminate Hc. }
    destruct (map_result alternates S) as [ls|e] eqn:Es;
      cbn [Py.bind map_result] in *.
    2:{ split; [discriminate|].
        intros H. inversion H as [|c' r' S' rs' Hc HS]; subst.
        apply IH in HS. discriminate HS. }
    destruct (first_cleaned l) as [r|e] eqn:Er; cbn [Py.bind].
    2:{ split; [discriminate|].
        intros H. inversion H as [|c' r' S' rs' Hc HS]; subst.
        unfold make_bwv_cell in Hc. rewrite Ec in Hc. cbn [Py.bind] in Hc.
        congruence. }
    split.
    + destruct (map_result first_cleaned ls) as [rs'|] eqn:Ers;
        cbn [Py.bind]; [|discriminate].
      intros [= <-]. constructor.
      * unfold make_bwv_cell. now rewrite Ec.
      * now apply IH.
    + intros H. inversion H as [|c' r' S' rs' Hc HS]; subst.
      unfold make_bwv_cell in Hc. rewrite Ec in Hc. cbn [Py.bind] in Hc.
      apply IH in HS. rewrite HS. cbn [Py.bind]. congruence.
Qed.

Lemma make_bwv_column_raises S c :
  In c S -> raises (make_bwv_cell c) -> raises (make_bwv_column S).
Proof.
  intros Hin Hc.
  destruct (make_bwv_column S) as [rs|e] eqn:E; [|now exists e].
  apply make_bwv_column_ok in E.
  destruct (Forall2_In_left _ _ _ _ E Hin) as (r & _ & Hr).
  destruct Hc as (e & He). congruence.
Qed.

(** The string [clean_bwv] returns, by whether the stripped input has a
    dot. *)
Lemma clean_bwv_shape e r :
  clean_bwv e = Ok r ->
  (~ In "."%char (strip "( )" e) /\ r = override_145a (strip "( )" e))
  \/ (exists p d n, strip "( )" e = p ++ "."%char :: d
                    /\ ~ In "."%char d /\ int d = Ok n
                    /\ r = p ++ "."%char :: str_of_int n).
Proof.
  intros H.
  destruct (existsb (Ascii.eqb ".") (strip "( )" e)) eqn:E.
  - right. destruct (cut_at_last _ _ E) as (p & c & d & Es & Hc & Hd).
    apply Ascii.eqb_eq in Hc. subst c.
    assert (Hnd : ~ In "."%char d).
    { intros Hin. specialize (Hd _ Hin). now rewrite Ascii.eqb_refl in Hd. }
    rewrite (clean_bwv_split e p d Es Hnd) in H.
    destruct (int d) as [n|] eqn:En; simpl in H; [|discriminate].
    exists p, d, n. split; [exact Es|]. split; [exact Hnd|]. split; [exact En|].
    injection H as <-. unfold override_145a.
    destruct (list_eq_dec ascii_dec _ _) as [E'|]; [|reflexivity].
    exfalso. assert (Hin : In "."%char ("145a" : str)).
    { rewrite <- E'. apply in_or_app. right. now left. }
    simpl in Hin. intuition discriminate.
  - left. assert (Hn : ~ In "."%char (strip "( )" e)).
    { intros Hin%existsb_eqb_In. congruence. }
    rewrite (clean_bwv_no_dot e Hn) in H. injection H as <-. auto.
Qed.

Lemma last_of_app {A} (a b t : list A) x :
  b <> [] -> a ++ b = t ++ [x] -> In x b.
Proof.
  intros Hb E. destruct (exists_last Hb) as (b' & y & ->).
  rewrite app_assoc in E. apply app_inj_tail in E as [_ <-].
  apply in_or_app. right. now left.
Qed.

Lemma numeral_char_not_mark z c :
  In c (str_of_int z) ->
  mem c "( )" = false /\ c <> "="%char /\ c <> "."%char.
Proof.
  intros [H| ->]%str_of_int_chars.
  - destruct (digit_not_mark c H) as (_ & _ & _ & Hd & He & Hl & Hr & Hs).
    unfold mem. simpl. rewrite (Ascii.eqb_sym c "("), (Ascii.eqb_sym c " "),
      (Ascii.eqb_sym c ")"), Hl, Hr, Hs.
    repeat split; auto; intros ->; discriminate.
  - repeat split; discriminate.
Qed.


(** ** The cleaning rule *)



(** ** Leading integers *)

(** C4.  [make_integer_column] cuts each cell at "." and "=" and reads
    the first segment, the characters before the first "." or "=", as an
    integer: "7=9" gives 7 and "12.3" gives 12, and whenever the column is
    returned every cell was a string whose first segment [int] reads as
    the value returned for it. *)
Theorem make_integer_column_contract :
  make_integer_column [Str "7=9"] = Ok [7%Z]
  /\ make_integer_column [Str "12.3"] = Ok [12%Z]
  /\ (forall s, hd [] (split_by dot_or_eq s) = prefix_before dot_or_eq s)
  /\ (forall s, make_integer_cell (Str s) = int (prefix_before dot_or_eq s))
  /\ (forall S ns,
        make_integer_column S = Ok ns ->
        Forall2 (fun c n => exists s, c = Str s
                                      /\ int (prefix_before dot_or_eq s) = Ok n)
                S ns).
Proof.
  split; [reflexivity|]. split; [reflexivity|].
  split; [intros s; apply hd_split_by|].
  split.
  { intros s. unfold make_integer_cell. now rewrite hd_split_by. }
  intros S ns H. apply map_result_ok in H.
  induction H as [|c n S ns Hc _ IH]; constructor; [|exact IH].
  destruct c as [|s|z]; try discriminate Hc.
  exists s. split; [reflexivity|].
  unfold make_integer_cell in Hc. now rewrite hd_split_by in Hc.
Qed.

Lemma make_integer_column_contract_witness :
  Forall2 (fun c n => exists s, c = Str s
                                /\ int (prefix_before dot_or_eq s) = Ok n)
          [Str "7=9"; Str "12.3"] [7%Z; 12%Z].
Proof.
  destruct make_integer_column_contract as (_ & _ & _ & _ & H).
  apply H. reflexivity.
Defined.

(** ** Where the cleaning raises *)

(** C9, as amended.  [clean_bwv] is partial.  When the input, once its
    surrounding parentheses and blanks are stripped, splits at "." into
    more than one segment and [int] raises on the last one, [clean_bwv]
    raises the same exception; "1.a" is such an input.  [int] raises on
    the empty string and on every string with a character that is not a
    digit, a sign, an underscore or whitespace.  Hence [make_bwv_column]
    raises, instead of giving a missing value, on a column with a cell
    whose first alternate, taken as [make_bwv_column] takes it, is such a
    string. *)
Theorem clean_bwv_partial :
  (forall s e,
      1 < List.length (split "." (strip "( )" s)) ->
      int (last (split "." (strip "( )" s)) []) = Raise e ->
      clean_bwv s = Raise e)
  /\ clean_bwv "1.a" = Raise ValueError
  /\ int [] = Raise ValueError
  /\ (forall d c,
        In c d -> isdigit c = false -> int_space c = false ->
        c <> "+"%char -> c <> "-"%char -> c <> "_"%char ->
        int d = Raise ValueError)
  /\ (forall s seg e,
        find (fun seg => negb (blank seg)) (split "=" (strip "() " s)) = Some seg ->
        clean_bwv (strip_ws seg) = Raise e ->
        make_bwv_cell (Str s) = Raise e)
  /\ (forall S c,
        In c S -> raises (make_bwv_cell c) -> raises (make_bwv_column S))
  /\ make_bwv_column [Str "1.a=2"] = Raise ValueError.
Proof.
  split.
  { intros s e Hlen He. unfold clean_bwv.
    apply Nat.ltb_lt in Hlen. rewrite Hlen, He. reflexivity. }
  split; [reflexivity|]. split; [reflexivity|].
  split; [exact int_foreign|].
  split.
  { intros s seg e Hf He. rewrite make_bwv_cell_first_alternate.
    unfold first_alternate. now rewrite Hf, He. }
  split; [exact make_bwv_column_raises | reflexivity].
Qed.

Lemma clean_bwv_partial_witness :
  clean_bwv "7.1b" = Raise ValueError
  /\ raises (make_bwv_column [Str "1"; Str "(7.1b=8)"]).
Proof.
  destruct clean_bwv_partial as (H1 & _ & _ & H2 & H3 & H4 & _). split.
  - apply H1; [vm_compute; lia|].
    apply (H2 _ "b"%char); [simpl; auto | reflexivity | reflexivity | | | ];
      discriminate.
  - apply (H4 _ (Str "(7.1b=8)")); [simpl; auto|].
    exists ValueError. apply (H3 _ ("7.1b" : str)); reflexivity.
Defined.

(** C9 as first stated, with the segments taken from the input as it
    stands, fails on "(12.03)": the input splits at "." into "(12" and
    "03)", [int] raises on "03)", and yet [clean_bwv] returns "12.3", and
    so does [make_bwv_column] on that cell. *)
Lemma clean_bwv_strips_before_it_splits :
  1 < List.length (split "." "(12.03)")
  /\ last (split "." "(12.03)") [] = ("03)" : str)
  /\ int "03)" = Raise ValueError
  /\ clean_bwv "(12.03)" = Ok ("12.3" : str)
  /\ make_bwv_column [Str "(12.03)"] = Ok [Str "12.3"].
Proof. repeat split. vm_compute. lia. Qed.

(** ** The column of cleaned numbers *)

Lemma split_blank_chars s :
  forallb blank (split "=" s) = true <->
  (forall c, In c s -> c = "="%char \/ isspace c = true).
Proof.
  unfold split. rewrite forallb_forall. split.
  - intros H c Hc. destruct (Ascii.eqb "=" c) eqn:E.
    + left. now apply Ascii.eqb_eq in E.
    + right. pose proof (split_by_concat_keeps _ _ _ Hc E) as Hin.
      apply in_concat in Hin as (seg & Hseg & Hcs).
      specialize (H seg Hseg). unfold blank in H.
      rewrite forallb_forall in H. now apply H.
  - intros H seg Hseg. unfold blank. apply forallb_forall. intros c Hc.
    pose proof (split_by_free _ _ _ _ Hseg Hc) as Hne.
    assert (Hin : In c s).
    { apply (split_by_concat_In (Ascii.eqb "=")), in_concat. eauto. }
    destruct (H c Hin) as [->|Hs]; [|exact Hs].
    now rewrite Ascii.eqb_refl in Hne.
Qed.

(** C3, as amended.  [make_bwv_column] first strips the surrounding
    parentheses and blanks of the cell, cuts what is left at every "=",
    skips the empty and whitespace-only segments, and applies [clean_bwv]
    to the first segment left, without its surrounding whitespace.  A
    missing cell, and a cell all of whose segments are empty or
    whitespace-only, gives a missing value.  The cell " (1.2=3.4) " gives
    "1.2" and the empty cell gives a missing value. *)
Theorem make_bwv_column_contract :
  (forall s, make_bwv_cell (Str s) = first_alternate s)
  /\ make_bwv_cell NA = Ok NA
  /\ (forall s, forallb blank (split "=" s) = true ->
                make_bwv_cell (Str s) = Ok NA)
  /\ (forall S rs,
        make_bwv_column S = Ok rs
        <-> Forall2 (fun c r => make_bwv_cell c = Ok r) S rs)
  /\ make_bwv_column [Str " (1.2=3.4) "] = Ok [Str "1.2"]
  /\ make_bwv_column [Str []] = Ok [NA].
Proof.
  split; [exact make_bwv_cell_first_alternate|].
  split; [reflexivity|].
  split; [|split; [exact make_bwv_column_ok | split; reflexivity]].
  intros s H. rewrite make_bwv_cell_first_alternate. unfold first_alternate.
  rewrite find_none_all_blank; [reflexivity|].
  apply split_blank_chars. intros c Hc.
  apply split_blank_chars with (c := c) in H; [exact H|].
  unfold strip in Hc. now apply strip_by_In in Hc.
Qed.

Lemma make_bwv_column_contract_witness :
  make_bwv_cell (Str " = ") = Ok NA.
Proof.
  destruct make_bwv_column_contract as (_ & _ & H & _).
  apply H. reflexivity.
Defined.

(** C3 as first stated, with the segments taken from the cell as it
    stands, fails on the cell "(=5": its first segment "(" is neither empty
    nor whitespace-only and [clean_bwv] turns it into the empty string,
    but [make_bwv_column] gives "5". *)
Lemma make_bwv_cell_is_not_raw_first_alternate :
  make_bwv_cell (Str "(=5") = Ok (Str "5")
  /\ first_alternate_of_raw_cell "(=5" = Ok (Str [])
  /\ make_bwv_cell (Str "(=5") <> first_alternate_of_raw_cell "(=5".
Proof. repeat split. discriminate. Qed.

(** ** What a cleaned number looks like *)

Lemma make_bwv_cell_source c r :
  make_bwv_cell c = Ok (Str r) ->
  exists e, clean_bwv e = Ok r /\ ~ In "="%char e.
Proof.
  intros H.
  assert (exists s, make_bwv_cell (Str s) = Ok (Str r)) as (s & Hs).
  { destruct c as [|s|z]; [exists [] | exists s | discriminate]; exact H. }
  clear H. rewrite make_bwv_cell_first_alternate in Hs.
  unfold first_alternate in Hs.
  destruct (find _ _) as [seg|] eqn:F; [|discriminate].
  exists (strip_ws seg). split.
  - destruct (clean_bwv (strip_ws seg)); simpl in Hs; congruence.
  - apply find_some in F as [Hseg _]. intros Hin.
    apply strip_by_In in Hin.
    pose proof (split_by_free _ _ _ _ Hseg Hin) as Hne.
    now rewrite Ascii.eqb_refl in Hne.
Qed.

(** C6, as amended.  A cleaned [bwv] value neither begins nor ends with
    a parenthesis or a blank, has no "=", and when it has a dot, its part
    after the last dot is a decimal numeral without leading zeros. *)
Theorem cleaned_bwv_invariant S rs r :
  make_bwv_column S = Ok rs -> In (Str r) rs ->
  (forall x t, r = x :: t -> mem x "( )" = false)
  /\ (forall t x, r = t ++ [x] -> mem x "( )" = false)
  /\ ~ In "="%char r
  /\ (In "."%char r -> canonical_int (last (split "." r) []) = true).
Proof.
  intros HS Hrs. apply make_bwv_column_ok in HS.
  destruct (Forall2_In_right _ _ _ _ HS Hrs) as (c & _ & H).
  destruct (make_bwv_cell_source c r H) as (e & He & Heq).
  assert (Hstrip : forall x, In x (strip "( )" e) -> x <> "="%char).
  { intros x Hx ->. apply Heq. unfold strip in Hx.
    now apply strip_by_In in Hx. }
  destruct (clean_bwv_shape e r He)
    as [[Hnd ->] | (p & d & n & Es & Hnd & Hn & ->)].
  - unfold override_145a.
    destruct (list_eq_dec ascii_dec (strip "( )" e) "145a") as [E|E].
    + repeat split.
      * now intros x t [= <- _].
      * intros t x Hx. change ("145-a" : str) with (("145-" : str) ++ ["a"%char]) in Hx.
        now apply app_inj_tail in Hx as [_ <-].
      * simpl. intuition discriminate.
      * simpl. intuition discriminate.
    + repeat split.
      * intros x t. apply strip_by_head.
      * intros t x. apply strip_by_last.
      * intros Hin. now apply (Hstrip _ Hin).
      * intros Hin. now destruct Hnd.
  - repeat split.
    + intros x t E. destruct p as [|y p'].
      * now injection E as <- _.
      * injection E as <- _.
        apply (strip_by_head (fun c => mem c "( )") e y (p' ++ "."%char :: d)).
        exact Es.
    + intros t x E. apply last_of_app in E; [|discriminate].
      destruct E as [<-|E]; [reflexivity|].
      now apply numeral_char_not_mark in E.
    + intros [Hin|[Hin|Hin]]%in_app_or.
      * apply (Hstrip "="%char); [|reflexivity]. rewrite Es.
        apply in_or_app. now left.
      * discriminate.
      * now apply numeral_char_not_mark in Hin.
    + intros _. unfold split.
      rewrite split_by_app by apply Ascii.eqb_refl.
      rewrite (split_by_none _ (str_of_int n)).
      * rewrite last_last. apply str_of_int_canonical.
      * intros x Hx. apply numeral_char_not_mark in Hx as (_ & _ & Hx).
        destruct (Ascii.eqb "." x) eqn:E; [|reflexivity].
        apply Ascii.eqb_eq in E. now subst.
Qed.

Lemma cleaned_bwv_invariant_witness :
  ~ In "="%char ("12.3" : str)
  /\ canonical_int (last (split "." "12.3") []) = true.
Proof.
  destruct (cleaned_bwv_invariant [Str "(12.03=7)"; NA] [Str "12.3"; NA]
                                  ("12.3" : str)) as (_ & _ & H1 & H2).
  - reflexivity.
  - simpl. auto.
  - split; [exact H1|]. apply H2. simpl. auto.
Defined.

(** C6 as first stated fails on the cell "1(2": the cleaned value is
    "1(2", which has a parenthesis. *)
Lemma cleaned_bwv_keeps_inner_parenthesis :
  make_bwv_column [Str "1(2"] = Ok [Str "1(2"]
  /\ In "("%char ("1(2" : str).
Proof. split; [reflexivity | simpl; auto]. Qed.

(** ** The description pattern *)





Lemma consumed_app t rest : consumed (t ++ rest) rest = t.
Proof.
  unfold consumed. rewrite length_app, Nat.add_sub.
  now rewrite firstn_app, Nat.sub_diag, firstn_all, List.app_nil_r.
Qed.





(** ** Reading the HTML table *)

Lemma str_eqb_eq a b : str_eqb a b = true <-> a = b.
Proof.
  unfold str_eqb. destruct (list_eq_dec ascii_dec a b); split; congruence.
Qed.

Lemma str_eqb_refl a : str_eqb a a = true.
Proof. now apply str_eqb_eq. Qed.

Lemma cell_eqb_eq a b : cell_eqb a b = true <-> a = b.
Proof.
  destruct a, b; simpl; try (split; congruence).
  - rewrite str_eqb_eq. split; congruence.
  - rewrite Z.eqb_eq. split; congruence.
Qed.

Lemma cell_eqb_refl a : cell_eqb a a = true.
Proof. now apply cell_eqb_eq. Qed.

Lemma cell_eqb_neq a b : cell_eqb a b = false <-> a <> b.
Proof.
  rewrite <- cell_eqb_eq. destruct (cell_eqb a b); split; congruence.
Qed.

Lemma cell_eqb_sym a b : cell_eqb a b = cell_eqb b a.
Proof.
  destruct (cell_eqb a b) eqn:E; symmetry.
  - apply cell_eqb_eq. apply cell_eqb_eq in E. now subst.
  - apply cell_eqb_neq. apply cell_eqb_neq in E. congruence.
Qed.

Lemma has_default_attrs t :
  has_attrs default_attrs t = true <-> In ("id" : str, "sortable" : str) (t_attrs t).
Proof.
  unfold has_attrs, default_attrs. cbn [forallb fst snd].
  rewrite andb_true_r, existsb_exists. split.
  - intros ([k v] & Hin & [H1 H2]%andb_prop).
    apply str_eqb_eq in H1, H2. simpl in *. now subst.
  - intros H. exists ("id" : str, "sortable" : str). split; [exact H|].
    cbn [fst snd]. now rewrite !str_eqb_refl.
Qed.

Lemma run_stops_at_get_table w src e :
  read_text w "BCT_html_source" = Some src ->
  get_table w src 0 default_na_values default_attrs = Raise e ->
  run w = (Raise e, []).
Proof.
  intros Hs Hg. unfold run, script, step, lift, open_read.
  now rewrite Hs, Hg.
Qed.

(** C7.  When no table of the HTML source has the attribute
    id="sortable", [get_table] raises, and the run ends with that
    exception before any file has been written. *)
Theorem get_table_fails_fast w src :
  read_text w "BCT_html_source" = Some src ->
  (forall t, In t (html_tables w default_na_values src) ->
             ~ In ("id" : str, "sortable" : str) (t_attrs t)) ->
  exists e, get_table w src 0 default_na_values default_attrs = Raise e
            /\ run w = (Raise e, []).
Proof.
  intros Hs Hno.
  assert (Hf : filter (has_attrs default_attrs)
                      (html_tables w default_na_values src) = []).
  { induction (html_tables w default_na_values src) as [|t ts IH];
      [reflexivity|]. cbn [filter].
    destruct (has_attrs default_attrs t) eqn:E.
    - apply has_default_attrs in E. now destruct (Hno t (or_introl eq_refl)).
    - apply IH. intros t' Ht'. apply Hno. now right. }
  assert (Hg : exists e, get_table w src 0 default_na_values default_attrs
                         = Raise e).
  { unfold get_table.
    destruct (startswith "http" src || startswith "www" src);
      [now exists NameError|].
    cbn [Py.bind]. unfold read_html. rewrite Hf. now exists ValueError. }
  destruct Hg as (e & Hg). exists e. split; [exact Hg|].
  now apply (run_stops_at_get_table w src).
Qed.

Lemma get_table_fails_fast_witness :
  exists e, get_table Sample.world_without_table Sample.page 0
                      default_na_values default_attrs = Raise e
            /\ run Sample.world_without_table = (Raise e, []).
Proof.
  apply get_table_fails_fast.
  - reflexivity.
  - intros t [<-|[]]. simpl. intros [H|[]]. discriminate H.
Defined.

(** ** Facts about frames *)

Lemma sort_by_perm {A} (key : A -> cell) l : Permutation (sort_by key l) l.
Proof.
  induction l as [|a l IH]; [constructor|]. simpl.
  transitivity (a :: sort_by key l); [|now constructor].
  clear IH. induction (sort_by key l) as [|b m IH]; simpl; [reflexivity|].
  destruct (cell_leb (key a) (key b)); [reflexivity|].
  rewrite IH. apply perm_swap.
Qed.

Lemma nth_remove_nth {A} (l : list A) i j d :
  nth j (remove_nth i l) d = nth (if j <? i then j else S j) l d.
Proof.
  unfold remove_nth. revert i j. induction l as [|a l IH]; intros i j.
  - rewrite firstn_nil, skipn_nil. simpl. now destruct j, (_ <? _).
  - destruct i as [|i].
    + simpl. reflexivity.
    + destruct j as [|j]; [reflexivity|].
      cbn [firstn skipn app nth]. rewrite IH.
      change (S j <? S i) with (j <? i). now destruct (j <? i).
Qed.

Lemma col_pos_lt name cols i : col_pos name cols = Some i -> i < List.length cols.
Proof.
  revert i. induction cols as [|c cs IH]; intros i; simpl; [discriminate|].
  destruct (str_eqb name c); [intros [= <-]; lia|].
  destruct (col_pos name cs) as [j|]; [|discriminate].
  intros [= <-]. specialize (IH j eq_refl). lia.
Qed.

Lemma col_pos_nth name cols i :
  col_pos name cols = Some i -> nth i cols [] = name.
Proof.
  revert i. induction cols as [|c cs IH]; intros i; simpl; [discriminate|].
  destruct (str_eqb name c) eqn:E.
  - intros [= <-]. now apply str_eqb_eq in E.
  - destruct (col_pos name cs) as [j|]; [|discriminate].
    intros [= <-]. now apply IH.
Qed.

Lemma col_pos_none_app name cols :
  col_pos name cols = None ->
  col_pos name (cols ++ [name]) = Some (List.length cols).
Proof.
  induction cols as [|c cs IH]; simpl.
  - now rewrite str_eqb_refl.
  - destruct (str_eqb name c); [discriminate|].
    destruct (col_pos name cs); [discriminate|].
    intros _. now rewrite IH.
Qed.

Lemma col_pos_app_other name b cols :
  b <> name -> col_pos b (cols ++ [name]) = col_pos b cols.
Proof.
  intros H. induction cols as [|c cs IH]; simpl.
  - destruct (str_eqb b name) eqn:E; [|reflexivity].
    now apply str_eqb_eq in E.
  - destruct (str_eqb b c); [reflexivity|]. now rewrite IH.
Qed.

(** Removing the column [name] moves the later columns one place to the
    left. *)
Lemma col_pos_remove_nth name b cols i j :
  col_pos name cols = Some i -> b <> name ->
  col_pos b (remove_nth i cols) = Some j ->
  col_pos b cols = Some (if j <? i then j else S j).
Proof.
  unfold remove_nth. revert i j.
  induction cols as [|c cs IH]; intros i j; simpl; [discriminate|].
  destruct (str_eqb name c) eqn:E.
  - intros [= <-] Hb. cbn [firstn skipn app].
    apply str_eqb_eq in E. subst c.
    destruct (str_eqb b name) eqn:E'; [now apply str_eqb_eq in E'|].
    intros Hj. now rewrite Hj.
  - destruct (col_pos name cs) as [i'|] eqn:Ei; [|discriminate].
    intros [= <-] Hb.
    change (skipn (S (S i')) (c :: cs)) with (skipn (S i') cs).
    cbn [firstn app col_pos].
    destruct (str_eqb b c); [intros [= <-]; reflexivity|].
    destruct (col_pos b (firstn i' cs ++ skipn (S i') cs)) as [j'|] eqn:Ej;
      [|intros H; discriminate H].
    intros [= <-]. rewrite (IH i' j' eq_refl Hb Ej). cbn [option_map].
    change (S j' <? S i') with (j' <? i'). now destruct (j' <? i').
Qed.

Lemma remove_nth_last {A} (l : list A) x : remove_nth (List.length l) (l ++ [x]) = l.
Proof.
  unfold remove_nth. rewrite firstn_app, Nat.sub_diag, firstn_all.
  rewrite skipn_all2 by (rewrite length_app; simpl; lia).
  simpl. now rewrite !List.app_nil_r.
Qed.

Lemma nth_replace {A} (l : list A) i k v d :
  i < List.length l -> k <> i ->
  nth k (firstn i l ++ v :: skipn (S i) l) d = nth k l d.
Proof.
  revert i k. induction l as [|a l IH]; intros i k Hi Hk; simpl in Hi; [lia|].
  destruct i as [|i].
  - destruct k; [easy | reflexivity].
  - destruct k as [|k]; [reflexivity|].
    cbn [firstn skipn app nth]. apply IH; lia.
Qed.

Lemma combine_In_l {A B} (l : list A) (l' : list B) a :
  In a l -> List.length l' = List.length l -> exists b, In (a, b) (combine l l').
Proof.
  revert l'. induction l as [|x l IH]; intros l' Hin Hlen; [easy|].
  destruct l' as [|y l']; [discriminate|]. simpl in Hlen.
  destruct Hin as [->|Hin].
  - exists y. now left.
  - destruct (IH l' Hin) as (b & Hb); [lia|]. exists b. now right.
Qed.

(** Indexing a table by a new column keeps the cells of the other
    columns. *)
Lemma set_index_setitem_keeps f name vs f3 b iB j r :
  well_formed f -> List.length vs = List.length (rows f) ->
  set_index name (setitem name vs f) = Ok f3 ->
  b <> name ->
  col_pos b (columns f) = Some iB ->
  col_pos b (columns f3) = Some j ->
  In r (rows f) ->
  exists r3, In r3 (rows f3) /\ at_col j r3 = at_col iB r.
Proof.
  intros Hwf Hlen Hset Hb HiB Hj Hr.
  destruct (combine_In_l (rows f) vs r Hr Hlen) as (v & Hv).
  unfold well_formed in Hwf. rewrite Forall_forall in Hwf.
  specialize (Hwf r Hr).
  unfold set_index, setitem, column_pos in Hset.
  destruct (col_pos name (columns f)) as [i|] eqn:Ei.
  - cbn [columns] in Hset. rewrite Ei in Hset. cbn [Py.bind] in Hset.
    injection Hset as <-. cbn [columns rows] in *.
    pose proof (col_pos_remove_nth name b (columns f) i j Ei Hb Hj) as Hk.
    rewrite HiB in Hk. injection Hk as ->.
    eexists. split.
    + apply in_map, in_map. exact Hv.
    + unfold at_col. cbn [fst snd]. rewrite nth_remove_nth.
      apply nth_replace.
      * rewrite Hwf. now apply col_pos_lt in Ei.
      * apply col_pos_lt in Ei.
        assert (Hne : (if j <? i then j else S j) <> i)
          by (destruct (j <? i) eqn:E; [apply Nat.ltb_lt in E | apply Nat.ltb_ge in E]; lia).
        exact Hne.
  - cbn [columns] in Hset. rewrite (col_pos_none_app _ _ Ei) in Hset.
    cbn [Py.bind] in Hset. injection Hset as <-. cbn [columns rows] in *.
    rewrite remove_nth_last in Hj. rewrite Hj in HiB. injection HiB as <-.
    eexists. split.
    + apply in_map, in_map. exact Hv.
    + unfold at_col. cbn [fst snd]. rewrite <- Hwf.
      now rewrite remove_nth_last.
Qed.

Lemma make_integer_column_strings S ns c :
  make_integer_column S = Ok ns -> In c S -> exists s, c = Str s.
Proof.
  intros H%map_result_ok Hc. revert c Hc. apply Forall_forall.
  induction H as [|c n S ns Hc _ IH]; constructor; [|exact IH].
  destruct c as [|s|z]; try discriminate Hc. now exists s.
Qed.

Lemma make_integer_column_length S ns :
  make_integer_column S = Ok ns -> List.length ns = List.length S.
Proof.
  intros H%map_result_ok. symmetry. exact (Forall2_length H).
Qed.

Lemma prepare_riemenschneider_B bct riem iR iB r :
  well_formed bct ->
  prepare_riemenschneider bct = Ok riem ->
  col_pos "R" (columns bct) = Some iR ->
  col_pos "B" (columns bct) = Some iB ->
  In r (rows bct) -> notna (at_col iR r) = true ->
  exists s, at_col iB r = Str s.
Proof.
  intros Hwf H HR HB Hr Hna.
  unfold prepare_riemenschneider, R_not_missing, column_pos in H.
  rewrite HR in H. cbn [Py.bind columns rows] in H. rewrite HR in H.
  cbn [Py.bind] in H.
  set (f1 := {| columns := columns bct;
                rows := filter (fun r => notna (at_col iR r)) (rows bct) |}) in *.
  change (filter (fun r => notna (at_col iR r)) (rows bct)) with (rows f1) in H.
  destruct (make_integer_column (map (at_col iR) (rows f1)))
    as [keys|] eqn:Ek; [|discriminate H]. cbn [Py.bind] in H.
  destruct (set_index "Riemenschneider" (setitem "Riemenschneider" (map Int keys) f1))
    as [f3|] eqn:E3; [|discriminate H]. cbn [Py.bind] in H.
  unfold column_pos in H. cbn [sort_index columns rows] in H.
  destruct (col_pos "B" (columns f3)) as [j|] eqn:Ej; [|discriminate H].
  cbn [Py.bind] in H.
  destruct (make_integer_column (map (at_col j) (sort_by fst (rows f3))))
    as [cpe|] eqn:Ec; [|discriminate H].
  assert (Hwf1 : well_formed f1).
  { unfold well_formed in *. rewrite Forall_forall in *.
    intros x [Hx _]%filter_In. now apply Hwf. }
  assert (Hr1 : In r (rows f1)) by (apply filter_In; auto).
  assert (Hlen : List.length (map Int keys) = List.length (rows f1)).
  { rewrite length_map, (make_integer_column_length _ _ Ek).
    now rewrite length_map. }
  destruct (set_index_setitem_keeps f1 "Riemenschneider" (map Int keys) f3
              "B" iB j r Hwf1 Hlen E3) as (r3 & Hr3 & Hat); auto.
  { intros E. cbv in E. discriminate E. }
  rewrite <- Hat.
  apply (make_integer_column_strings _ _ _ Ec).
  apply in_map. apply (Permutation_in _ (Permutation_sym (sort_by_perm fst (rows f3)))).
  exact Hr3.
Qed.

(** C10.  [make_integer_column] raises on a series with a missing cell;
    it returns only when every cell is a string.  So when the
    Riemenschneider table is assembled, every row of the HTML table whose
    [R] is not missing has a string in column [B]. *)
Theorem make_integer_column_rejects_missing :
  make_integer_cell NA = Raise TypeError
  /\ (forall S, In NA S -> raises (make_integer_column S))
  /\ (forall S ns c,
        make_integer_column S = Ok ns -> In c S -> exists s, c = Str s)
  /\ (forall bct riemenschneider iR iB r,
        well_formed bct ->
        prepare_riemenschneider bct = Ok riemenschneider ->
        col_pos "R" (columns bct) = Some iR ->
        col_pos "B" (columns bct) = Some iB ->
        In r (rows bct) -> notna (at_col iR r) = true ->
        exists s, at_col iB r = Str s)
  /\ prepare_riemenschneider Sample.bct_without_B = Raise TypeError.
Proof.
  split; [reflexivity|].
  split.
  { intros S H. apply (map_result_raises make_integer_cell S NA H).
    now exists TypeError. }
  split; [exact make_integer_column_strings|].
  split; [exact prepare_riemenschneider_B | reflexivity].
Qed.

Lemma make_integer_column_rejects_missing_witness :
  raises (make_integer_column [Str "12.3"; NA])
  /\ exists s, at_col 2 (Int 1, [Str "Chorale 370"; Str "370"; Str "2.1"; Str "(619.02)"])
               = Str s.
Proof.
  destruct make_integer_column_rejects_missing as (_ & H1 & _ & H2 & _).
  split.
  - apply H1. simpl. auto.
  - destruct (prepare_riemenschneider Sample.bct) as [riem|] eqn:E;
      [|vm_compute in E; discriminate E].
    apply (H2 Sample.bct riem 1 2).
    + unfold well_formed. apply Forall_forall. intros r Hr.
      apply in_app_or in Hr as [Hr|[<-|[]]]; [|reflexivity].
      apply in_map_iff in Hr as (i & <- & _). reflexivity.
    + exact E.
    + reflexivity.
    + reflexivity.
    + vm_compute. auto 10.
    + reflexivity.
Defined.

(** ** The outer join *)

Lemma rows_with_key_app k a b :
  rows_with_key k (a ++ b) = rows_with_key k a + rows_with_key k b.
Proof. unfold rows_with_key. now rewrite filter_app, length_app. Qed.

Lemma rows_with_key_perm k a b :
  Permutation a b -> rows_with_key k a = rows_with_key k b.
Proof.
  unfold rows_with_key. induction 1; simpl; try congruence.
  - destruct (cell_eqb (m_key x) k); simpl; congruence.
  - destruct (cell_eqb (m_key x) k), (cell_eqb (m_key y) k); reflexivity.
Qed.

Lemma occurrences_In k keys : In k keys <-> 0 < occurrences k keys.
Proof.
  unfold occurrences. induction keys as [|a keys IH]; simpl; [split; [easy | lia]|].
  destruct (cell_eqb k a) eqn:E.
  - apply cell_eqb_eq in E. subst a. simpl. split; [lia | auto].
  - apply cell_eqb_neq in E. rewrite <- IH. split; [|auto].
    intros [->|H]; [easy | exact H].
Qed.

Lemma keyed_keys j right : map fst (keyed j right) = map (at_col j) (rows right).
Proof. unfold keyed. rewrite map_map. reflexivity. Qed.

Lemma occurrences_fst k (rrows : list (cell * list cell)) :
  List.length (filter (fun r => cell_eqb k (fst r)) rrows)
  = occurrences k (map fst rrows).
Proof.
  unfold occurrences. induction rrows as [|r rs IH]; [reflexivity|]. simpl.
  destruct (cell_eqb k (fst r)); simpl; congruence.
Qed.

(** The rows a left row contributes all carry its key. *)
Lemma pair_left_key nr rrows l r :
  In r (pair_left nr rrows l) -> m_key r = fst l /\ m_left r = snd l.
Proof.
  unfold pair_left. destruct (filter _ rrows) as [|m ms].
  - intros [<-|[]]. auto.
  - intros (x & <- & _)%in_map_iff. auto.
Qed.

Lemma pair_left_count nr rrows l k :
  rows_with_key k (pair_left nr rrows l)
  = if cell_eqb (fst l) k
    then Nat.max 1 (occurrences k (map fst rrows))
    else 0.
Proof.
  unfold rows_with_key.
  destruct (cell_eqb (fst l) k) eqn:E.
  - apply cell_eqb_eq in E. subst k.
    rewrite <- occurrences_fst. unfold pair_left.
    destruct (filter _ rrows) as [|m ms].
    + simpl. now rewrite cell_eqb_refl.
    + rewrite forallb_filter_id.
      * rewrite length_map. simpl. lia.
      * apply forallb_forall. intros r (x & <- & _)%in_map_iff.
        apply cell_eqb_refl.
  - destruct (filter _ (pair_left nr rrows l)) as [|r rs] eqn:F; [reflexivity|].
    assert (Hr : In r (filter (fun r => cell_eqb (m_key r) k) (pair_left nr rrows l)))
      by (rewrite F; now left).
    apply filter_In in Hr as [Hr Hk].
    apply pair_left_key in Hr as [Hr _]. congruence.
Qed.

Lemma occurrences_cons k a keys :
  occurrences k (a :: keys)
  = (if cell_eqb a k then 1 else 0) + occurrences k keys.
Proof.
  unfold occurrences. simpl. rewrite (cell_eqb_sym k a).
  now destruct (cell_eqb a k).
Qed.

Lemma matched_count nr rrows lrows k :
  rows_with_key k (flat_map (pair_left nr rrows) lrows)
  = occurrences k (map fst lrows) * Nat.max 1 (occurrences k (map fst rrows)).
Proof.
  induction lrows as [|l ls IH]; [reflexivity|].
  cbn [flat_map map]. rewrite rows_with_key_app, IH, pair_left_count.
  rewrite occurrences_cons. destruct (cell_eqb (fst l) k); lia.
Qed.

Lemma right_only_count nl lrows rrows k :
  rows_with_key k (right_only nl lrows rrows)
  = if occurrences k (map fst lrows) =? 0
    then occurrences k (map fst rrows)
    else 0.
Proof.
  unfold rows_with_key, right_only.
  assert (Hex : forall r : cell * list cell,
             cell_eqb (fst r) k = true ->
             negb (existsb (fun l => cell_eqb (fst l) (fst r)) lrows)
             = (occurrences k (map fst lrows) =? 0)).
  { intros r E. apply cell_eqb_eq in E. subst k.
    destruct (occurrences (fst r) (map fst lrows) =? 0) eqn:E0.
    - apply Nat.eqb_eq in E0. apply negb_true_iff.
      destruct (existsb _ lrows) eqn:Ex; [|reflexivity].
      apply existsb_exists in Ex as (l & Hl & E). apply cell_eqb_eq in E.
      assert (In (fst r) (map fst lrows)) by (rewrite <- E; now apply in_map).
      apply occurrences_In in H. lia.
    - apply Nat.eqb_neq in E0. apply negb_false_iff, existsb_exists.
      assert (In (fst r) (map fst lrows)) as (l & E & Hl)%in_map_iff
          by (apply occurrences_In; lia).
      exists l. split; [exact Hl|]. apply cell_eqb_eq. exact E. }
  induction rrows as [|r rs IH].
  - simpl. now destruct (_ =? _).
  - cbn [filter map]. rewrite occurrences_cons.
    destruct (negb (existsb _ lrows)) eqn:En; cbn [map filter m_key].
    + destruct (cell_eqb (fst r) k) eqn:E; cbn [List.length].
      * rewrite <- (Hex r E), En in *. now rewrite IH.
      * exact IH.
    + destruct (cell_eqb (fst r) k) eqn:E; cbn [List.length]; [|exact IH].
      rewrite <- (Hex r E), En in *. exact IH.
Qed.

(** The number of rows of an outer join with a given key. *)
Lemma merge_outer_count left right key suffix m j k :
  merge_outer left right key suffix = Ok m ->
  col_pos key (columns right) = Some j ->
  rows_with_key k (m_rows m)
  = occurrences k (labels left)
    * Nat.max 1 (occurrences k (map (at_col j) (rows right)))
    + (if occurrences k (labels left) =? 0
       then occurrences k (map (at_col j) (rows right))
       else 0).
Proof.
  intros H Hj. unfold merge_outer, column_pos in H. rewrite Hj in H.
  cbn [Py.bind] in H. injection H as <-. cbn [m_rows].
  rewrite (rows_with_key_perm k _ _ (sort_by_perm m_key _)).
  rewrite rows_with_key_app, matched_count, right_only_count, keyed_keys.
  reflexivity.
Qed.

Lemma sort_values_perm name m m' :
  sort_values name m = Ok m' -> Permutation (m_rows m') (m_rows m).
Proof.
  unfold sort_values. destruct (col_pos name (m_columns m)); [|discriminate].
  destruct (mixed _); [discriminate|].
  intros [= <-]. apply sort_by_perm.
Qed.

Lemma mapping_rows_merge riemenschneider wikitable m :
  mapping_rows riemenschneider wikitable = Ok m ->
  exists m0, merge_outer riemenschneider wikitable "Riemenschneider" "_wiki" = Ok m0
             /\ Permutation (m_rows m) (m_rows m0).
Proof.
  unfold mapping_rows.
  destruct (merge_outer _ _ _ _) as [m0|]; [|discriminate]. cbn [Py.bind].
  intros H. exists m0. split; [reflexivity|]. now apply sort_values_perm in H.
Qed.





(** ** The index of the reference table *)

Lemma insert_by_labels (a : cell * list cell) rs :
  Permutation (insert_by fst a rs) (a :: rs).
Proof.
  induction rs as [|b rs IH]; simpl; [reflexivity|].
  destruct (cell_leb (fst a) (fst b)); [reflexivity|].
  rewrite IH. apply perm_swap.
Qed.

Lemma insert_by_ascending z x rs :
  ascending rs -> ascending (insert_by fst (Int z, x) rs).
Proof.
  intros (zs & Hl & Hs). revert zs Hl Hs.
  induction rs as [|[l y] rs IH]; intros zs Hl Hs.
  - exists [z]. split; [reflexivity|]. repeat constructor.
  - destruct zs as [|w zs]; [discriminate|].
    cbn [map fst] in Hl. injection Hl as -> Hl.
    cbn [insert_by fst cell_leb].
    destruct (z <=? w)%Z eqn:E.
    + exists (z :: w :: zs). split; [cbn [map fst]; now rewrite Hl|].
      apply Z.leb_le in E. constructor; [exact Hs|].
      constructor; [exact E|].
      apply StronglySorted_inv in Hs as [_ Hall].
      eapply Forall_impl; [|exact Hall]. intros v Hv. cbn beta in Hv. lia.
    + apply Z.leb_gt in E.
      apply StronglySorted_inv in Hs as [Hs Hall].
      destruct (IH zs Hl Hs) as (zs' & Hl' & Hs').
      exists (w :: zs'). split; [cbn [map fst]; now rewrite Hl'|].
      constructor; [exact Hs'|].
      apply Forall_forall. intros v Hv.
      assert (Hin : In (Int v) (map fst (insert_by fst (Int z, x) rs))).
      { rewrite Hl'. now apply in_map. }
      apply (Permutation_in _ (Permutation_map fst (insert_by_labels (Int z, x) rs)))
        in Hin.
      destruct Hin as [[= <-]|Hin]; [lia|].
      rewrite Hl in Hin. apply in_map_iff in Hin as (v' & [= ->] & Hv').
      rewrite Forall_forall in Hall. now apply Hall.
Qed.

Lemma sort_by_ascending rs :
  (forall r, In r rs -> exists z, fst r = Int z) ->
  ascending (sort_by fst rs).
Proof.
  induction rs as [|[l x] rs IH]; intros H.
  - exists []. split; [reflexivity | constructor].
  - destruct (H (l, x) (or_introl eq_refl)) as (z & Hz). cbn [fst] in Hz.
    subst l. cbn [sort_by fold_right]. apply insert_by_ascending.
    apply IH. intros r Hr. apply H. now right.
Qed.

(** An ascending list of [n] distinct integers between [a] and
    [a + n - 1] is [a, a + 1, ..., a + n - 1]. *)
Lemma ascending_range zs : forall a,
  StronglySorted Z.le zs -> NoDup zs ->
  (forall z, In z zs -> (a <= z < a + Z.of_nat (List.length zs))%Z) ->
  zs = map (fun i => (a + Z.of_nat i)%Z) (List.seq 0 (List.length zs)).
Proof.
  induction zs as [|x t IH]; intros a Hs Hn Hr; [reflexivity|].
  apply StronglySorted_inv in Hs as [Hs Hall].
  apply NoDup_cons_iff in Hn as [Hx Hn].
  rewrite Forall_forall in Hall.
  assert (Hgt : forall z, In z t -> (x < z)%Z).
  { intros z Hz. specialize (Hall z Hz).
    assert (z <> x) by (intros ->; contradiction). lia. }
  assert (Hxa : (a <= x)%Z) by (apply (Hr x); now left).
  assert (IHt := IH (a + 1)%Z Hs Hn).
  assert (Ht : forall z, In z t ->
                 (a + 1 <= z < a + 1 + Z.of_nat (List.length t))%Z).
  { intros z Hz. specialize (Hgt z Hz).
    assert (H' := Hr z (or_intror Hz)). cbn [List.length] in H'. lia. }
  specialize (IHt Ht).
  assert (x = a).
  { destruct t as [|y t'].
    - assert (H' := Hr x (or_introl eq_refl)). cbn [List.length] in H'. lia.
    - cbn [List.length List.seq map] in IHt. injection IHt as Hy _.
      specialize (Hgt y (or_introl eq_refl)). lia. }
  subst x. cbn [List.length List.seq map]. f_equal; [f_equal; lia|].
  rewrite IHt at 1. rewrite <- seq_shift, map_map.
  apply map_ext. intros i. lia.
Qed.

Lemma map_snd_combine {A B} (l : list A) (l' : list B) :
  List.length l' = List.length l -> map snd (combine l l') = l'.
Proof.
  revert l'. induction l as [|a l IH]; intros [|b l'] H; try discriminate;
    [reflexivity|]. simpl. f_equal. apply IH. simpl in H. lia.
Qed.

Lemma map_fst_combine {A B} (l : list A) (l' : list B) :
  List.length l' = List.length l -> map fst (combine l l') = l.
Proof.
  revert l'. induction l as [|a l IH]; intros [|b l'] H; try discriminate;
    [reflexivity|]. simpl. f_equal. apply IH. simpl in H. lia.
Qed.

Lemma nth_replaced {A} (l : list A) i v d :
  i <= List.length l -> nth i (firstn i l ++ v :: skipn (S i) l) d = v.
Proof.
  intros H. rewrite app_nth2; rewrite firstn_length_le by exact H; [|lia].
  now rewrite Nat.sub_diag.
Qed.

(** Indexing a table by a new column labels the rows with its values. *)
Lemma set_index_setitem_labels f name vs f3 :
  well_formed f -> List.length vs = List.length (rows f) ->
  set_index name (setitem name vs f) = Ok f3 ->
  labels f3 = vs.
Proof.
  intros Hwf Hlen Hset. unfold well_formed in Hwf. rewrite Forall_forall in Hwf.
  unfold set_index, setitem, column_pos in Hset.
  destruct (col_pos name (columns f)) as [i|] eqn:Ei.
  - cbn [columns] in Hset. rewrite Ei in Hset. cbn [Py.bind] in Hset.
    injection Hset as <-. unfold labels. cbn [rows].
    rewrite !map_map. rewrite <- (map_snd_combine (rows f) vs Hlen) at 2.
    apply map_ext_in. intros [r v] Hin. cbn [fst snd at_col].
    apply nth_replaced. apply in_combine_l in Hin.
    rewrite (Hwf r Hin). apply col_pos_lt in Ei. lia.
  - cbn [columns] in Hset. rewrite (col_pos_none_app _ _ Ei) in Hset.
    cbn [Py.bind] in Hset. injection Hset as <-. unfold labels. cbn [rows].
    rewrite !map_map. rewrite <- (map_snd_combine (rows f) vs Hlen) at 2.
    apply map_ext_in. intros [r v] Hin. cbn [fst snd at_col].
    apply in_combine_l in Hin. rewrite <- (Hwf r Hin).
    unfold at_col. cbn [snd].
    now rewrite app_nth2, Nat.sub_diag by lia.
Qed.

Lemma insert_column_labels loc name vals f f' :
  insert_column loc name vals f = Ok f' ->
  List.length vals = List.length (rows f) ->
  labels f' = labels f.
Proof.
  unfold insert_column. destruct (existsb _ _); [discriminate|].
  destruct (_ <? _); [discriminate|]. intros [= <-] Hlen.
  unfold labels. cbn [rows]. rewrite map_map. cbn [fst].
  rewrite <- (map_fst_combine (rows f) vals Hlen) at 2.
  now rewrite map_map.
Qed.

(** The reference table comes out of [prepare_riemenschneider] in
    ascending order of its integer index. *)
Lemma prepare_riemenschneider_ascending bct riem :
  well_formed bct ->
  prepare_riemenschneider bct = Ok riem ->
  ascending (rows riem).
Proof.
  intros Hwf H.
  unfold prepare_riemenschneider, R_not_missing, column_pos in H.
  destruct (col_pos "R" (columns bct)) as [iR|] eqn:HR; [|discriminate H].
  cbn [Py.bind columns rows] in H. rewrite HR in H. cbn [Py.bind] in H.
  set (f1 := {| columns := columns bct;
                rows := filter (fun r => notna (at_col iR r)) (rows bct) |}) in *.
  change (filter (fun r => notna (at_col iR r)) (rows bct)) with (rows f1) in H.
  destruct (make_integer_column (map (at_col iR) (rows f1)))
    as [keys|] eqn:Ek; [|discriminate H]. cbn [Py.bind] in H.
  destruct (set_index "Riemenschneider" (setitem "Riemenschneider" (map Int keys) f1))
    as [f3|] eqn:E3; [|discriminate H]. cbn [Py.bind] in H.
  unfold column_pos in H. cbn [sort_index columns rows] in H.
  destruct (col_pos "B" (columns f3)) as [j|] eqn:Ej; [|discriminate H].
  cbn [Py.bind] in H.
  destruct (make_integer_column (map (at_col j) (sort_by fst (rows f3))))
    as [cpe|] eqn:Ec; [|discriminate H]. cbn [Py.bind] in H.
  assert (Hwf1 : well_formed f1).
  { unfold well_formed in *. rewrite Forall_forall in *.
    intros x [Hx _]%filter_In. now apply Hwf. }
  assert (Hlen : List.length (map Int keys) = List.length (rows f1)).
  { rewrite length_map, (make_integer_column_length _ _ Ek).
    now rewrite length_map. }
  pose proof (set_index_setitem_labels f1 _ _ f3 Hwf1 Hlen E3) as Hl3.
  assert (Hasc : ascending (sort_by fst (rows f3))).
  { apply sort_by_ascending. intros r Hr.
    assert (Hin : In (fst r) (labels f3)) by now apply in_map.
    rewrite Hl3 in Hin. apply in_map_iff in Hin as (z & <- & _). now exists z. }
  apply insert_column_labels in H.
  - unfold ascending. unfold labels in H. cbn [rows] in H. now rewrite H.
  - cbn [rows]. rewrite length_map, (make_integer_column_length _ _ Ec).
    now rewrite length_map.
Qed.

(** ** Concatenation by label *)

Lemma labels_eqb_eq a b : labels_eqb a b = true <-> a = b.
Proof.
  revert b. induction a as [|x a IH]; intros [|y b]; simpl;
    try (split; [discriminate | congruence]); [tauto|].
  rewrite andb_true_iff, cell_eqb_eq, IH. split; [intros [-> ->] | intros [= -> ->]]; auto.
Qed.

Lemma nodupb_NoDup l : NoDup l -> nodupb l = true.
Proof.
  induction 1 as [|x l Hx _ IH]; [reflexivity|]. simpl. rewrite IH, andb_true_r.
  apply negb_true_iff. destruct (existsb _ l) eqn:E; [|reflexivity].
  apply existsb_exists in E as (y & Hy & E). apply cell_eqb_eq in E. now subst.
Qed.

(** Looking a label up in rows that are a function of their label. *)
Lemma find_by_label {A} (F : A -> list cell) (lab : A -> cell) xs x :
  In x xs ->
  (forall y, In y xs -> lab y = lab x -> F y = F x) ->
  option_map snd (find (fun r => cell_eqb (fst r) (lab x))
                       (map (fun y => (lab y, F y)) xs))
  = Some (F x).
Proof.
  induction xs as [|y xs IH]; intros Hin HF; [easy|]. cbn [map find fst].
  destruct (cell_eqb (lab y) (lab x)) eqn:E.
  - apply cell_eqb_eq in E. cbn [option_map snd]. f_equal.
    apply HF; [now left | exact E].
  - apply IH.
    + destruct Hin as [->|Hin]; [|exact Hin]. now rewrite cell_eqb_refl in E.
    + intros z Hz. apply HF. now right.
Qed.

Lemma loc_row f r :
  NoDup (labels f) -> In r (rows f) -> loc f (fst r) = Some (snd r).
Proof.
  unfold loc, labels. induction (rows f) as [|x rs IH]; intros Hn Hin; [easy|].
  cbn [map] in Hn. apply NoDup_cons_iff in Hn as [Hx Hn]. cbn [find].
  destruct (cell_eqb (fst x) (fst r)) eqn:E.
  - apply cell_eqb_eq in E. destruct Hin as [->|Hin]; [reflexivity|].
    exfalso. apply Hx. rewrite E. now apply in_map.
  - destruct Hin as [->|Hin]; [now rewrite cell_eqb_refl in E|]. now apply IH.
Qed.

Lemma rows_by_label f :
  NoDup (labels f) ->
  rows f = map (fun l => (l, reindex_row f l)) (labels f).
Proof.
  intros Hn. unfold labels. rewrite map_map.
  rewrite <- (map_id (rows f)) at 1. apply map_ext_in.
  intros r Hr. unfold reindex_row. rewrite (loc_row f r Hn Hr).
  now destruct r.
Qed.

Lemma combine_map_same {A B C} (g : A -> B) (h : A -> C) l :
  combine (map g l) (map h l) = map (fun x => (g x, h x)) l.
Proof. induction l; simpl; congruence. Qed.

(** Frames with one index without duplicates: side by side is by label. *)
Lemma zip_rows_by_label fs L :
  fs <> [] -> NoDup L -> (forall f, In f fs -> labels f = L) ->
  zip_rows fs = map (fun l => (l, flat_map (fun f => reindex_row f l) fs)) L.
Proof.
  intros Hne Hn. induction fs as [|f fs IH]; [easy|]. clear Hne. intros HL.
  assert (Hf : rows f = map (fun l => (l, reindex_row f l)) L).
  { rewrite <- (HL f (or_introl eq_refl)). apply rows_by_label.
    now rewrite (HL f (or_introl eq_refl)). }
  destruct fs as [|f' fs'].
  - cbn [zip_rows flat_map]. rewrite Hf. apply map_ext. intros l.
    now rewrite List.app_nil_r.
  - change (zip_rows (f :: f' :: fs'))
      with (map (fun rr => (fst (fst rr), snd (fst rr) ++ snd (snd rr)))
                (combine (rows f) (zip_rows (f' :: fs')))).
    rewrite IH; [|discriminate | intros g Hg; apply HL; now right].
    rewrite Hf, combine_map_same, map_map. reflexivity.
Qed.

Lemma union_labels_In ls l x :
  In l ls -> In x l -> In x (union_labels ls).
Proof.
  unfold union_labels.
  assert (G : forall ls acc, (In x acc \/ exists l, In l ls /\ In x l) ->
    In x (fold_left (fun acc l =>
            acc ++ filter (fun y => negb (existsb (cell_eqb y) acc)) l) ls acc)).
  { clear. induction ls as [|l ls IH]; intros acc H; cbn [fold_left].
    - destruct H as [H|(l & [] & _)]. exact H.
    - apply IH. destruct (existsb (cell_eqb x) acc) eqn:Ex.
      + left. apply in_or_app. left.
        apply existsb_exists in Ex as (y & Hy & E). apply cell_eqb_eq in E.
        now subst.
      + destruct H as [H|(l' & [<-|Hl'] & Hx)].
        * left. apply in_or_app. now left.
        * left. apply in_or_app. right. apply filter_In. split; [exact Hx|].
          now rewrite Ex.
        * right. eauto. }
  intros Hl Hx. apply G. right. eauto.
Qed.

(** In a concatenation of frames that have the label [l], the row [l]
    holds the row [l] of every frame, provided the shared index has no
    duplicates. *)
Lemma concat_axis1_loc fs t f0 l :
  concat_axis1 fs = Ok t -> In f0 fs -> In l (labels f0) ->
  NoDup (labels f0) ->
  columns t = flat_map columns fs
  /\ loc t l = Some (flat_map (fun f => reindex_row f l) fs).
Proof.
  intros H Hf0 Hl Hn. unfold concat_axis1 in H.
  destruct fs as [|f1 fs']; [discriminate|].
  destruct (forallb (fun f => labels_eqb (labels f) (labels f1)) (f1 :: fs')) eqn:E.
  - assert (Hrows : rows t = zip_rows (f1 :: fs')) by (now injection H as <-).
    assert (Hcols : columns t = flat_map columns (f1 :: fs'))
      by (now injection H as <-).
    split; [exact Hcols|].
    rewrite forallb_forall in E.
    assert (HL : forall f, In f (f1 :: fs') -> labels f = labels f1).
    { intros f Hf. apply labels_eqb_eq, E, Hf. }
    rewrite (HL f0 Hf0) in Hl, Hn.
    unfold loc. rewrite Hrows.
    rewrite (zip_rows_by_label (f1 :: fs') (labels f1)); [|discriminate|exact Hn|exact HL].
    apply (find_by_label (fun l => flat_map (fun f => reindex_row f l) (f1 :: fs'))
                         (fun l => l) (labels f1) l Hl).
    now intros y _ ->.
  - destruct (forallb (fun f => nodupb (labels f)) (f1 :: fs')); [|discriminate].
    assert (Hrows : rows t
              = map (fun l => (l, flat_map (fun f => reindex_row f l) (f1 :: fs')))
                    (union_labels (map labels (f1 :: fs'))))
      by (now injection H as <-).
    assert (Hcols : columns t = flat_map columns (f1 :: fs'))
      by (now injection H as <-).
    split; [exact Hcols|].
    unfold loc. rewrite Hrows.
    apply (find_by_label (fun l => flat_map (fun f => reindex_row f l) (f1 :: fs'))
                         (fun l => l)).
    + apply (union_labels_In _ (labels f0));
        [exact (in_map labels (f1 :: fs') f0 Hf0) | exact Hl].
    + now intros y _ ->.
Qed.

(** ** The file names of the final table *)

Lemma range_In a b z : In z (range a b) <-> (a <= z < b)%Z.
Proof.
  unfold range. rewrite in_map_iff. split.
  - intros (i & <- & Hi%in_seq). lia.
  - intros H. exists (Z.to_nat (z - a)). split; [lia|]. apply in_seq. lia.
Qed.

Lemma Series_ok values index name f :
  Series values index name = Ok f ->
  List.length values = List.length index
  /\ f = {| columns := [name]; rows := combine index (map (fun v => [v]) values) |}.
Proof.
  unfold Series. destruct (_ =? _) eqn:E; [|discriminate].
  apply Nat.eqb_eq in E. now intros [= <-].
Qed.

Lemma Series_labels values index name f :
  Series values index name = Ok f -> labels f = index.
Proof.
  intros H. apply Series_ok in H as [Hlen ->]. unfold labels. cbn [rows].
  apply map_fst_combine. now rewrite length_map.
Qed.

(** The row [i] of a series of values computed from the labels. *)
Lemma Series_of_labels_row (G : Z -> cell) zs name f i :
  Series (map G zs) (map Int zs) name = Ok f -> In i zs ->
  reindex_row f (Int i) = [G i].
Proof.
  intros H Hi. apply Series_ok in H as [_ ->].
  unfold reindex_row, loc. cbn [rows].
  rewrite map_map, combine_map_same.
  rewrite (find_by_label (fun z => [G z]) Int zs i Hi); [reflexivity|].
  now intros y _ [= ->].
Qed.

Lemma reindex_row_single f l :
  List.length (columns f) = 1 ->
  (forall r, In r (rows f) -> List.length (snd r) = 1) ->
  exists c, reindex_row f l = [c].
Proof.
  intros Hc Hr. unfold reindex_row, loc.
  destruct (find _ (rows f)) as [r|] eqn:F; cbn [option_map].
  - apply find_some in F as [F _]. specialize (Hr r F).
    destruct (snd r) as [|c [|]]; try discriminate. now exists c.
  - rewrite Hc. now exists NA.
Qed.

Lemma padded_numbers i :
  (1 <= i <= 371)%Z ->
  List.length (zfill 3 (str_of_int i)) = 3
  /\ forallb isdigit (zfill 3 (str_of_int i)) = true
  /\ int (zfill 3 (str_of_int i)) = Ok i.
Proof.
  intros Hi.
  assert (H : forallb (fun i =>
                (List.length (zfill 3 (str_of_int i)) =? 3)
                && forallb isdigit (zfill 3 (str_of_int i))
                && match int (zfill 3 (str_of_int i)) with
                   | Ok n => (n =? i)%Z
                   | Raise _ => false
                   end) (range 1 372) = true) by (vm_compute; reflexivity).
  rewrite forallb_forall in H.
  assert (Hin : In i (range 1 372)) by (apply range_In; lia).
  specialize (H i Hin).
  apply andb_prop in H as [H H3]. apply andb_prop in H as [H1 H2].
  apply Nat.eqb_eq in H1.
  destruct (int (zfill 3 (str_of_int i))) as [n|]; [|discriminate].
  apply Z.eqb_eq in H3. now subst.
Qed.

(** C5, as amended.  When the reference indices, those of the table
    assembled from the HTML source, are distinct and between 1 and 371,
    the row of each index [i] from 1 to 371 of the final table has "chor",
    [i] zero-padded to three digits and ".krn" in the column [krn_file],
    except that the cell is missing for 150, and [i] zero-padded to three
    digits and "/short_score.mxl" in the column [xml_file]. *)
Theorem final_table_file_names bct krn_metadata title_list riemenschneider t i :
  well_formed bct ->
  prepare_riemenschneider bct = Ok riemenschneider ->
  final_table krn_metadata title_list riemenschneider = Ok t ->
  NoDup (labels riemenschneider) ->
  (forall z, In (Int z) (labels riemenschneider) -> (1 <= z <= 371)%Z) ->
  (1 <= i <= 371)%Z ->
  cell_at t (Int i) "krn_file"
  = Some (if (i =? 150)%Z then NA
          else Str ("chor" ++ zfill 3 (str_of_int i) ++ ".krn"))
  /\ cell_at t (Int i) "xml_file"
     = Some (Str (zfill 3 (str_of_int i) ++ "/short_score.mxl"))
  /\ List.length (zfill 3 (str_of_int i)) = 3
  /\ forallb isdigit (zfill 3 (str_of_int i)) = true
  /\ int (zfill 3 (str_of_int i)) = Ok i.
Proof.
  intros Hwf Hprep Hfinal Hnd Hrange Hi.
  destruct (prepare_riemenschneider_ascending bct _ Hwf Hprep) as (zs & Hzs & Hs).
  fold (labels riemenschneider) in Hzs.
  unfold final_table in Hfinal.
  destruct (column_as "title" "krn_title" krn_metadata) as [k|] eqn:Ek;
    [|discriminate Hfinal]. cbn [Py.bind] in Hfinal.
  destruct (Series krn_file_values _ "krn_file") as [kf|] eqn:Ekf;
    [|discriminate Hfinal]. cbn [Py.bind] in Hfinal.
  destruct (Series xml_file_values _ "xml_file") as [xf|] eqn:Exf;
    [|discriminate Hfinal]. cbn [Py.bind] in Hfinal.
  destruct (Series (map cell_of_option title_list) _ "cap_file") as [cf|] eqn:Ecf;
    [|discriminate Hfinal]. cbn [Py.bind] in Hfinal.
  destruct (column_pos AttributeError "BWV" riemenschneider) as [iBWV|];
    [|discriminate Hfinal]. cbn [Py.bind] in Hfinal.
  destruct (make_bwv_column _) as [bwv|]; [|discriminate Hfinal].
  cbn [Py.bind] in Hfinal.
  destruct (Series bwv _ "bwv") as [bf|] eqn:Ebf; [|discriminate Hfinal].
  cbn [Py.bind] in Hfinal.
  (* the index is 1, ..., 371 *)
  assert (Hlen : List.length zs = 371).
  { apply Series_ok in Ekf as [Hl _]. rewrite Hzs, length_map in Hl.
    rewrite <- Hl. reflexivity. }
  assert (Hzs' : zs = range 1 372).
  { rewrite (ascending_range zs 1 Hs).
    - now rewrite Hlen.
    - rewrite Hzs in Hnd. now apply NoDup_map_inv in Hnd.
    - intros z Hz. rewrite Hlen.
      assert (1 <= z <= 371)%Z; [|lia].
      apply Hrange. rewrite Hzs. now apply in_map. }
  subst zs. rewrite Hzs in *.
  assert (Hin : In i (range 1 372)) by (apply range_In; lia).
  (* the row [i] of the concatenation *)
  destruct (concat_axis1_loc _ t kf (Int i) Hfinal) as [Hcols Hloc].
  { simpl. auto. }
  { rewrite (Series_labels _ _ _ _ Ekf). now apply in_map. }
  { now rewrite (Series_labels _ _ _ _ Ekf). }
  cbn [flat_map] in Hloc.
  destruct (reindex_row_single k (Int i)) as (c & Hk).
  { unfold column_as in Ek. destruct (column_pos _ _ _); [|discriminate Ek].
    now injection Ek as <-. }
  { unfold column_as in Ek. destruct (column_pos _ _ _); [|discriminate Ek].
    injection Ek as <-. cbn [rows]. now intros r (x & <- & _)%in_map_iff. }
  rewrite Hk in Hloc.
  rewrite (Series_of_labels_row krn_file_name _ _ _ i Ekf Hin) in Hloc.
  rewrite (Series_of_labels_row xml_file_name _ _ _ i Exf Hin) in Hloc.
  assert (Hc : columns t
               = ("krn_title" : str) :: ("krn_file" : str) :: ("xml_file" : str)
                   :: columns cf ++ columns bf ++ columns riemenschneider ++ []).
  { rewrite Hcols. cbn [flat_map].
    unfold column_as in Ek. destruct (column_pos _ _ _); [|discriminate Ek].
    injection Ek as <-.
    apply Series_ok in Ekf as [_ ->]. apply Series_ok in Exf as [_ ->].
    reflexivity. }
  unfold cell_at. rewrite Hloc, Hc.
  split; [reflexivity|]. split; [reflexivity|].
  now apply padded_numbers.
Qed.

Lemma nodupb_true l : nodupb l = true -> NoDup l.
Proof.
  induction l as [|x l IH]; simpl; [constructor|].
  intros [Hx Hl]%andb_prop. constructor; [|now apply IH].
  intros Hin. apply negb_true_iff in Hx.
  assert (existsb (cell_eqb x) l = true); [|congruence].
  apply existsb_exists. exists x. split; [exact Hin | apply cell_eqb_refl].
Qed.

Lemma reference_labels l z :
  forallb reference_label l = true -> In (Int z) l -> (1 <= z <= 371)%Z.
Proof.
  intros H Hin. rewrite forallb_forall in H. specialize (H _ Hin).
  simpl in H. lia.
Qed.

Lemma sample_bct_well_formed : well_formed Sample.bct.
Proof.
  unfold well_formed. apply Forall_forall. intros r Hr.
  apply in_app_or in Hr as [Hr|[<-|[]]]; [|reflexivity].
  apply in_map_iff in Hr as (i & <- & _). reflexivity.
Qed.

Lemma final_table_file_names_witness :
  exists riemenschneider krn_metadata t,
    prepare_riemenschneider Sample.bct = Ok riemenschneider
    /\ make_krn_metadata Sample.world Sample.krn_table = Ok krn_metadata
    /\ final_table krn_metadata (title_list_of Sample.cap_files) riemenschneider
       = Ok t
    /\ cell_at t (Int 7) "krn_file" = Some (Str "chor007.krn")
    /\ cell_at t (Int 150) "krn_file" = Some NA
    /\ cell_at t (Int 150) "xml_file" = Some (Str "150/short_score.mxl").
Proof.
  destruct (prepare_riemenschneider Sample.bct) as [riem|] eqn:E1;
    [|vm_compute in E1; discriminate E1].
  destruct (make_krn_metadata Sample.world Sample.krn_table) as [km|] eqn:E2;
    [|vm_compute in E2; discriminate E2].
  destruct (final_table km (title_list_of Sample.cap_files) riem) as [t|] eqn:E3.
  - exists riem, km, t.
    assert (Hn : NoDup (labels riem)).
    { apply nodupb_true. vm_compute in E1. injection E1 as <-.
      vm_compute. reflexivity. }
    assert (Hr : forall z, In (Int z) (labels riem) -> (1 <= z <= 371)%Z).
    { intros z. apply reference_labels. vm_compute in E1. injection E1 as <-.
      vm_compute. reflexivity. }
    pose proof (final_table_file_names Sample.bct km _ riem t 7
                  sample_bct_well_formed E1 E3 Hn Hr) as H7.
    pose proof (final_table_file_names Sample.bct km _ riem t 150
                  sample_bct_well_formed E1 E3 Hn Hr) as H150.
    destruct H7 as (H7 & _); [lia|].
    destruct H150 as (Hk & Hx & _); [lia|].
    split; [reflexivity|]. split; [reflexivity|]. split; [exact E3|].
    split; [exact H7|]. split; [exact Hk | exact Hx].
  - exfalso. vm_compute in E1. injection E1 as <-.
    vm_compute in E2. injection E2 as <-.
    vm_compute in E3. discriminate E3.
Defined.

(** C5 as first stated, for whatever reference indices the table has,
    fails when they are 2 to 372: the names go to the rows by position, so
    the row of index 2 has "chor001.krn", the row of index 150 has
    "chor149.krn" and the row of index 151 has no [krn_file]. *)
Lemma final_table_names_follow_position :
  exists riemenschneider krn_metadata t,
    prepare_riemenschneider Sample.bct_from_2 = Ok riemenschneider
    /\ make_krn_metadata Sample.world Sample.krn_table = Ok krn_metadata
    /\ final_table krn_metadata (title_list_of Sample.cap_files) riemenschneider
       = Ok t
    /\ In (Int 2) (labels riemenschneider)
    /\ cell_at t (Int 2) "krn_file" = Some (Str "chor001.krn")
    /\ cell_at t (Int 150) "krn_file" = Some (Str "chor149.krn")
    /\ cell_at t (Int 151) "krn_file" = Some NA
    /\ cell_at t (Int 2) "xml_file" = Some (Str "001/short_score.mxl").
Proof.
  destruct (prepare_riemenschneider Sample.bct_from_2) as [riem|] eqn:E1;
    [|vm_compute in E1; discriminate E1].
  destruct (make_krn_metadata Sample.world Sample.krn_table) as [km|] eqn:E2;
    [|vm_compute in E2; discriminate E2].
  vm_compute in E1. injection E1 as <-.
  vm_compute in E2. injection E2 as <-.
  match goal with
  | |- exists r k t, Ok ?a = Ok r /\ Ok ?b = Ok k /\ _ => exists a, b
  end.
  match goal with
  | |- exists t, _ /\ _ /\ ?f = Ok t /\ _ =>
      destruct f as [t|] eqn:E3; [|vm_compute in E3; discriminate E3]
  end.
  exists t. split; [reflexivity|]. split; [reflexivity|]. split; [reflexivity|].
  vm_compute in E3. injection E3 as <-.
  split; [vm_compute; auto|].
  repeat split; vm_compute; reflexivity.
Qed.

(** ** Printing and reading back an integer *)

Lemma uint_of_digits_of_uint u : uint_of_digits (digits_of_uint u) = Some u.
Proof.
  induction u; cbn [digits_of_uint uint_of_digits]; try rewrite IHu; reflexivity.
Qed.

Lemma uint_of_digits_zeros k d u :
  uint_of_digits d = Some u ->
  uint_of_digits (repeat "0"%char k ++ d) = Some (Nat.iter k Decimal.D0 u).
Proof.
  intros E. induction k as [|k IH]; [exact E|].
  cbn [repeat app uint_of_digits]. rewrite IH. reflexivity.
Qed.

Lemma of_uint_zeros k u : Z.of_uint (Nat.iter k Decimal.D0 u) = Z.of_uint u.
Proof. induction k as [|k IH]; [reflexivity|]. simpl. exact IH. Qed.

(** [str(z)] is a non-empty string of digits, after a minus sign when [z]
    is negative. *)
Lemma str_of_int_form z :
  exists u, u <> Decimal.Nil
            /\ ((str_of_int z = digits_of_uint u
                 /\ Z.of_int (Decimal.Pos u) = z)
                \/ (str_of_int z = "-"%char :: digits_of_uint u
                    /\ Z.of_int (Decimal.Neg u) = z)).
Proof.
  unfold str_of_int.
  pose proof (DecimalZ.of_to z) as Hz.
  assert (Hn : forall p, Pos.to_uint p <> Decimal.Nil).
  { intros p E.
    pose proof (DecimalPos.Unsigned.of_to p) as H. rewrite E in H.
    discriminate H. }
  destruct z as [|p|p].
  - exists (Decimal.D0 Decimal.Nil). split; [discriminate|]. left. auto.
  - exists (Pos.to_uint p). split; [apply Hn|]. left. split; [reflexivity|].
    exact Hz.
  - exists (Pos.to_uint p). split; [apply Hn|]. right. split; [reflexivity|].
    exact Hz.
Qed.

Lemma digits_of_uint_nonnil u : u <> Decimal.Nil -> digits_of_uint u <> [].
Proof. destruct u; intros H; try discriminate. now elim H. Qed.

Lemma zfill_digits w d :
  d <> [] -> forallb isdigit d = true ->
  zfill w d = repeat "0"%char (w - List.length d) ++ d.
Proof.
  intros Hne Hd. destruct d as [|c t]; [now elim Hne|].
  unfold zfill.
  cbn [forallb] in Hd. apply andb_prop in Hd as [Hc _].
  destruct (digit_not_mark c Hc) as (Hp & Hm & _).
  rewrite Hp, Hm. reflexivity.
Qed.

Lemma forallb_digits_zeros k d :
  forallb isdigit d = true -> forallb isdigit (repeat "0"%char k ++ d) = true.
Proof.
  intros H. induction k as [|k IH]; [exact H|].
  cbn [repeat app forallb]. rewrite IH. reflexivity.
Qed.

Lemma int_minus_digits d u :
  d <> [] -> uint_of_digits d = Some u ->
  int ("-"%char :: d) = Ok (Z.of_int (Decimal.Neg u)).
Proof.
  intros Hne E.
  pose proof (uint_of_digits_some d u E) as Hd.
  unfold int.
  assert (Hs : strip_by int_space ("-"%char :: d) = "-"%char :: d).
  { apply strip_by_stop.
    - intros c t H. injection H as <- _. reflexivity.
    - intros t c H.
      assert (In c d) as Hin.
      { apply (last_of_app ["-"%char] d t c Hne). exact H. }
      apply digit_not_space.
      rewrite forallb_forall in Hd. auto. }
  rewrite Hs.
  change (Ascii.eqb "-" "+") with false. change (Ascii.eqb "-" "-") with true.
  cbv iota. rewrite (int_body_digits d u Hne E). reflexivity.
Qed.

(** Zero padding does not change the number that is read back. *)
Lemma int_zfill_str w z : int (zfill w (str_of_int z)) = Ok z.
Proof.
  destruct (str_of_int_form z) as (u & Hu & [[E Hz] | [E Hz]]).
  - rewrite E.
    pose proof (digits_of_uint_nonnil u Hu) as Hne.
    rewrite zfill_digits by (auto using digits_of_uint_digits).
    set (k := w - List.length (digits_of_uint u)).
    rewrite (int_digits _ (Nat.iter k Decimal.D0 u)).
    + f_equal. rewrite <- Hz. unfold Z.of_int. apply of_uint_zeros.
    + intros H. apply app_eq_nil in H as [_ H]. auto.
    + apply uint_of_digits_zeros, uint_of_digits_of_uint.
  - rewrite E. unfold zfill.
    change (Ascii.eqb "-" "+" || Ascii.eqb "-" "-") with true. cbv iota.
    cbn [List.length].
    set (k := w - S (List.length (digits_of_uint u))).
    pose proof (digits_of_uint_nonnil u Hu) as Hne.
    rewrite (int_minus_digits _ (Nat.iter k Decimal.D0 u)).
    + f_equal. rewrite <- Hz. unfold Z.of_int. f_equal. apply of_uint_zeros.
    + intros H. apply app_eq_nil in H as [_ H]. auto.
    + apply uint_of_digits_zeros, uint_of_digits_of_uint.
Qed.

Lemma zfill_0 s : zfill 0 s = s.
Proof.
  unfold zfill. cbn [Nat.sub repeat app].
  destruct s as [|c t]; [reflexivity|].
  destruct (Ascii.eqb c "+" || Ascii.eqb c "-"); reflexivity.
Qed.

Lemma int_str_of_int z : int (str_of_int z) = Ok z.
Proof. rewrite <- (zfill_0 (str_of_int z)). apply int_zfill_str. Qed.


(** ** Cleaning a cleaned number *)

Lemma strip_by_idempotent p s : strip_by p (strip_by p s) = strip_by p s.
Proof.
  apply strip_by_stop.
  - intros c t E. exact (strip_by_head _ _ _ _ E).
  - intros t c E. exact (strip_by_last _ _ _ _ E).
Qed.

Lemma override_145a_other r : r <> ("145a" : str) -> override_145a r = r.
Proof.
  intros H. unfold override_145a.
  destruct (list_eq_dec ascii_dec r "145a"); [contradiction|reflexivity].
Qed.

Lemma override_145a_dotted p d : override_145a (p ++ "."%char :: d) = p ++ "."%char :: d.
Proof.
  apply override_145a_other. intros E.
  assert (In "."%char ("145a" : str)) as H.
  { rewrite <- E. apply in_or_app. right. left. reflexivity. }
  cbn in H. repeat (destruct H as [H|H]; [discriminate H|]). exact H.
Qed.

Lemma str_of_int_no_dot z : ~ In "."%char (str_of_int z).
Proof.
  intros H. apply numeral_char_not_mark in H as (_ & _ & H). now apply H.
Qed.

Lemma str_of_int_nonempty z : str_of_int z <> [].
Proof.
  destruct (str_of_int_form z) as (u & Hu & [[E _] | [E _]]); rewrite E.
  - now apply digits_of_uint_nonnil.
  - discriminate.
Qed.

(** X2: [clean_bwv] is idempotent: a value it returns is returned
    unchanged when it is cleaned again. *)
Theorem clean_bwv_idempotent s r :
  clean_bwv s = Ok r -> clean_bwv r = Ok r.
Proof.
  intros H. destruct (clean_bwv_shape s r H) as [[Hno ->] | (p & d & n & Hs & Hd & Hn & ->)].
  - unfold override_145a.
    destruct (list_eq_dec ascii_dec (strip "( )" s) "145a") as [E|E].
    + reflexivity.
    + rewrite clean_bwv_no_dot.
      * unfold strip. rewrite strip_by_idempotent.
        f_equal. now apply override_145a_other.
      * unfold strip. rewrite strip_by_idempotent. exact Hno.
  - assert (Hstrip : strip "( )" (p ++ "."%char :: str_of_int n)
                     = p ++ "."%char :: str_of_int n).
    { apply strip_by_stop.
      - intros c t E. destruct p as [|x p'].
        + injection E as <- _. reflexivity.
        + injection E as <- _.
          exact (strip_by_head _ _ _ _ Hs).
      - intros t c E.
        assert (In c (str_of_int n)) as Hin.
        { apply (last_of_app (p ++ ["."%char]) (str_of_int n) t c).
          - apply str_of_int_nonempty.
          - rewrite <- app_assoc. exact E. }
        now apply numeral_char_not_mark in Hin as (Hin & _). }
    rewrite (clean_bwv_split _ p (str_of_int n) Hstrip (str_of_int_no_dot n)).
    rewrite int_str_of_int. cbn [Py.bind].
    now rewrite override_145a_dotted.
Qed.

Lemma clean_bwv_idempotent_witness :
  clean_bwv "12.3" = Ok ("12.3" : str).
Proof. apply (clean_bwv_idempotent "(12.03)"). reflexivity. Defined.


(** ** Which table [get_table] returns *)

Lemma nth_error_filter {A} (p : A -> bool) l : forall n x,
  nth_error (filter p l) n = Some x ->
  exists before after,
    l = before ++ x :: after /\ p x = true
    /\ List.length (filter p before) = n.
Proof.
  induction l as [|a l IH]; intros n x H.
  - destruct n; discriminate H.
  - cbn [filter] in H. destruct (p a) eqn:Ea.
    + destruct n as [|n].
      * injection H as <-. exists [], l. cbn. auto.
      * cbn [nth_error] in H. destruct (IH _ _ H) as (b & c & -> & Hp & Hl).
        exists (a :: b), c. cbn [app filter]. rewrite Ea. cbn [List.length].
        auto.
    + destruct (IH _ _ H) as (b & c & -> & Hp & Hl).
      exists (a :: b), c. cbn [app filter]. rewrite Ea. auto.
Qed.

Lemma has_attrs_In attrs t :
  has_attrs attrs t = true <-> forall kv, In kv attrs -> In kv (t_attrs t).
Proof.
  unfold has_attrs. rewrite forallb_forall. split; intros H kv Hin.
  - specialize (H kv Hin). apply existsb_exists in H as (kv' & Hin' & E).
    apply andb_prop in E as [E1 E2].
    apply str_eqb_eq in E1. apply str_eqb_eq in E2.
    destruct kv, kv'. cbn in E1, E2. now subst.
  - apply existsb_exists. exists kv. split; [auto|].
    now rewrite !str_eqb_refl.
Qed.

(** X3: when [get_table] returns a table, its argument is not a URL (it
    starts neither with "http" nor with "www"), and the table is the one
    built from an element of the document that carries every requested
    attribute: the [n]-th such element in document order, whatever other
    tables stand before it. *)
Theorem get_table_selects_by_attribute w html n na_values attrs f :
  get_table w html n na_values attrs = Ok f ->
  startswith "http" html = false /\ startswith "www" html = false
  /\ exists before t after,
       html_tables w na_values html = before ++ t :: after
       /\ t_frame t = f
       /\ (forall kv, In kv attrs -> In kv (t_attrs t))
       /\ List.length (filter (has_attrs attrs) before) = n.
Proof.
  unfold get_table. intros H.
  destruct (startswith "http" html || startswith "www" html) eqn:Eu;
    [discriminate H|].
  apply orb_false_elim in Eu as [E1 E2]. split; [exact E1|]. split; [exact E2|].
  cbn [Py.bind] in H. unfold read_html in H.
  destruct (filter (has_attrs attrs) (html_tables w na_values html)) as [|t0 ts] eqn:Ef;
    [discriminate H|].
  cbn [Py.bind] in H.
  destruct (nth_error (map t_frame (t0 :: ts)) n) as [f'|] eqn:En;
    [|discriminate H].
  injection H as ->.
  rewrite nth_error_map in En.
  destruct (nth_error (t0 :: ts) n) as [t|] eqn:Et; [|discriminate En].
  injection En as <-. rewrite <- Ef in Et.
  destruct (nth_error_filter _ _ _ _ Et) as (b & a & Hl & Hp & Hn).
  exists b, t, a. repeat split; auto. now apply has_attrs_In.
Qed.

Lemma get_table_selects_by_attribute_witness :
  exists before t after,
    html_tables Sample.world default_na_values Sample.page = before ++ t :: after
    /\ t_frame t = Sample.bct
    /\ (forall kv, In kv default_attrs -> In kv (t_attrs t))
    /\ List.length (filter (has_attrs default_attrs) before) = 0.
Proof.
  apply (get_table_selects_by_attribute Sample.world Sample.page 0
           default_na_values default_attrs Sample.bct).
  reflexivity.
Defined.

(** ** The files of a run *)


(** ** The steps of [prepare_riemenschneider] *)

Lemma prepare_riemenschneider_stages bct riem :
  prepare_riemenschneider bct = Ok riem ->
  exists iR keys f3 j cpe,
    col_pos "R" (columns bct) = Some iR
    /\ make_integer_column
         (map (at_col iR) (filter (fun r => notna (at_col iR r)) (rows bct)))
       = Ok keys
    /\ set_index "Riemenschneider"
         (setitem "Riemenschneider" (map Int keys)
            {| columns := columns bct;
               rows := filter (fun r => notna (at_col iR r)) (rows bct) |})
       = Ok f3
    /\ col_pos "B" (columns f3) = Some j
    /\ make_integer_column (map (at_col j) (sort_by fst (rows f3))) = Ok cpe
    /\ insert_column 3 "CPE" (map Int cpe) (sort_index f3) = Ok riem.
Proof.
  intros H.
  unfold prepare_riemenschneider, R_not_missing, column_pos in H.
  destruct (col_pos "R" (columns bct)) as [iR|] eqn:HR; [|discriminate H].
  cbn [Py.bind columns rows] in H. rewrite HR in H. cbn [Py.bind] in H.
  set (f1 := {| columns := columns bct;
                rows := filter (fun r => notna (at_col iR r)) (rows bct) |}) in *.
  change (filter (fun r => notna (at_col iR r)) (rows bct)) with (rows f1) in H.
  destruct (make_integer_column (map (at_col iR) (rows f1)))
    as [keys|] eqn:Ek; [|discriminate H]. cbn [Py.bind] in H.
  destruct (set_index "Riemenschneider" (setitem "Riemenschneider" (map Int keys) f1))
    as [f3|] eqn:E3; [|discriminate H]. cbn [Py.bind] in H.
  unfold column_pos in H. cbn [sort_index columns rows] in H.
  destruct (col_pos "B" (columns f3)) as [j|] eqn:Ej; [|discriminate H].
  cbn [Py.bind] in H.
  destruct (make_integer_column (map (at_col j) (sort_by fst (rows f3))))
    as [cpe|] eqn:Ec; [|discriminate H]. cbn [Py.bind] in H.
  exists iR, keys, f3, j, cpe. repeat split; auto.
Qed.

Lemma filter_well_formed (p : cell * list cell -> bool) f :
  well_formed f ->
  well_formed {| columns := columns f; rows := filter p (rows f) |}.
Proof.
  unfold well_formed. rewrite !Forall_forall. cbn [rows columns].
  intros H x [Hx _]%filter_In. now apply H.
Qed.

Lemma set_index_setitem_columns f name vs f3 :
  set_index name (setitem name vs f) = Ok f3 ->
  columns f3 = match col_pos name (columns f) with
               | Some i => remove_nth i (columns f)
               | None => columns f
               end.
Proof.
  unfold set_index, setitem, column_pos. intros H.
  destruct (col_pos name (columns f)) as [i|] eqn:Ei.
  - cbn [columns] in H. rewrite Ei in H. cbn [Py.bind] in H.
    now injection H as <-.
  - cbn [columns] in H. rewrite (col_pos_none_app _ _ Ei) in H.
    cbn [Py.bind] in H. injection H as <-. cbn [columns].
    apply remove_nth_last.
Qed.

Lemma length_remove_nth {A} (l : list A) i :
  i < List.length l -> List.length (remove_nth i l) = List.length l - 1.
Proof.
  intros H. unfold remove_nth.
  rewrite length_app, length_firstn, length_skipn. lia.
Qed.

Lemma length_remove_nth_le {A} (l : list A) i :
  List.length (remove_nth i l) <= List.length l.
Proof.
  unfold remove_nth. rewrite length_app, length_firstn, length_skipn. lia.
Qed.

Lemma set_index_setitem_well_formed f name vs f3 :
  well_formed f -> List.length vs = List.length (rows f) ->
  set_index name (setitem name vs f) = Ok f3 ->
  well_formed f3.
Proof.
  intros Hwf Hlen Hset.
  pose proof (set_index_setitem_columns _ _ _ _ Hset) as Hc.
  unfold well_formed in *. rewrite Forall_forall in *.
  unfold set_index, setitem, column_pos in Hset.
  destruct (col_pos name (columns f)) as [i|] eqn:Ei.
  - cbn [columns] in Hset. rewrite Ei in Hset. cbn [Py.bind] in Hset.
    injection Hset as <-. cbn [rows columns] in *.
    intros x Hx. apply in_map_iff in Hx as (y & <- & Hy).
    apply in_map_iff in Hy as ([r v] & <- & Hrv). cbn [fst snd].
    apply in_combine_l in Hrv. specialize (Hwf r Hrv).
    pose proof (col_pos_lt _ _ _ Ei) as Hi.
    assert (Hl : List.length (firstn i (snd r) ++ v :: skipn (S i) (snd r))
                 = List.length (snd r)).
    { rewrite length_app, length_firstn. cbn [List.length].
      rewrite length_skipn. lia. }
    change (match snd r with [] => [] | _ :: l => skipn i l end)
      with (skipn (S i) (snd r)).
    rewrite (length_remove_nth (columns f)) by exact Hi.
    rewrite length_remove_nth by (rewrite Hl; lia).
    rewrite Hl. lia.
  - cbn [columns] in Hset. rewrite (col_pos_none_app _ _ Ei) in Hset.
    cbn [Py.bind] in Hset. injection Hset as <-. cbn [rows columns] in *.
    intros x Hx. apply in_map_iff in Hx as (y & <- & Hy).
    apply in_map_iff in Hy as ([r v] & <- & Hrv). cbn [fst snd].
    apply in_combine_l in Hrv. specialize (Hwf r Hrv).
    rewrite <- Hwf at 1. rewrite !remove_nth_last. exact Hwf.
Qed.

Lemma sort_index_well_formed f : well_formed f -> well_formed (sort_index f).
Proof.
  unfold well_formed, sort_index. cbn [rows columns]. intros H.
  apply (Permutation_Forall (Permutation_sym (sort_by_perm fst (rows f)))).
  exact H.
Qed.

(** X5: the reference table holds one row for each row of the HTML table
    whose [R] is not missing, labelled with the integer read from the start
    of its [R], and its rows are in ascending order of these labels. *)
Theorem prepare_riemenschneider_index bct riemenschneider :
  well_formed bct ->
  prepare_riemenschneider bct = Ok riemenschneider ->
  exists iR keys,
    col_pos "R" (columns bct) = Some iR
    /\ Forall2 (fun r n => make_integer_cell (at_col iR r) = Ok n)
               (filter (fun r => notna (at_col iR r)) (rows bct)) keys
    /\ Permutation (labels riemenschneider) (map Int keys)
    /\ ascending (rows riemenschneider)
    /\ List.length (rows riemenschneider)
       = List.length (filter (fun r => notna (at_col iR r)) (rows bct)).
Proof.
  intros Hwf H.
  pose proof (prepare_riemenschneider_ascending _ _ Hwf H) as Hasc.
  destruct (prepare_riemenschneider_stages _ _ H)
    as (iR & keys & f3 & j & cpe & HR & Ek & E3 & Ej & Ec & Hins).
  set (f1 := {| columns := columns bct;
                rows := filter (fun r => notna (at_col iR r)) (rows bct) |}) in *.
  assert (Hlen : List.length (map Int keys) = List.length (rows f1)).
  { rewrite length_map, (make_integer_column_length _ _ Ek).
    now rewrite length_map. }
  pose proof (set_index_setitem_labels f1 _ _ f3 (filter_well_formed _ _ Hwf) Hlen E3)
    as Hl3.
  assert (Hl : labels riemenschneider = labels (sort_index f3)).
  { apply (insert_column_labels _ _ _ _ _ Hins).
    cbn [rows sort_index]. rewrite length_map, (make_integer_column_length _ _ Ec).
    now rewrite length_map. }
  assert (Hperm : Permutation (labels riemenschneider) (map Int keys)).
  { rewrite Hl, <- Hl3. unfold labels, sort_index. cbn [rows].
    apply Permutation_map, sort_by_perm. }
  exists iR, keys. repeat split; auto.
  - apply map_result_ok in Ek.
    clear - Ek. cbn [rows] in Ek.
    induction (filter (fun r => notna (at_col iR r)) (rows bct)) as [|r l IH]
      in keys, Ek |- *.
    + inversion Ek. constructor.
    + inversion Ek; subst. constructor; auto.
  - apply Permutation_length in Hperm. unfold labels in Hperm.
    rewrite !length_map in Hperm. rewrite Hperm.
    rewrite (make_integer_column_length _ _ Ek). now rewrite length_map.
Qed.

Lemma prepare_riemenschneider_index_witness :
  exists iR keys,
    col_pos "R" (columns Sample.bct) = Some iR
    /\ Forall2 (fun r n => make_integer_cell (at_col iR r) = Ok n)
               (filter (fun r => notna (at_col iR r)) (rows Sample.bct)) keys
    /\ (exists riemenschneider,
          Permutation (labels riemenschneider) (map Int keys)
          /\ ascending (rows riemenschneider)
          /\ List.length (rows riemenschneider) = 371).
Proof.
  destruct (prepare_riemenschneider Sample.bct) as [riem|] eqn:E;
    [|vm_compute in E; discriminate E].
  destruct (prepare_riemenschneider_index Sample.bct riem sample_bct_well_formed E)
    as (iR & keys & HR & HF & HP & HA & HL).
  exists iR, keys. split; [exact HR|]. split; [exact HF|].
  exists riem. split; [exact HP|]. split; [exact HA|].
  rewrite HL. vm_compute in HR. injection HR as <-. reflexivity.
Defined.

(** ** The column [CPE] *)

Lemma nth_insert_nth_at {A} (l : list A) i v d :
  i <= List.length l -> nth i (insert_nth i v l) d = v.
Proof.
  intros H. unfold insert_nth.
  rewrite app_nth2; rewrite length_firstn, Nat.min_l by lia; [|lia].
  now rewrite Nat.sub_diag.
Qed.

Lemma nth_insert_nth_other {A} (l : list A) i j v d :
  i <= List.length l ->
  nth (if j <? i then j else S j) (insert_nth i v l) d = nth j l d.
Proof.
  intros H. unfold insert_nth.
  rewrite <- (firstn_skipn i l) at 3.
  destruct (j <? i) eqn:E.
  - apply Nat.ltb_lt in E.
    rewrite !app_nth1 by (rewrite length_firstn; lia). reflexivity.
  - apply Nat.ltb_ge in E.
    rewrite !app_nth2 by (rewrite length_firstn; lia).
    rewrite length_firstn, Nat.min_l by lia.
    replace (S j - i) with (S (j - i)) by lia. reflexivity.
Qed.

Lemma col_pos_app_l name a b i :
  col_pos name a = Some i -> col_pos name (a ++ b) = Some i.
Proof.
  revert i. induction a as [|c a IH]; intros i H; [discriminate H|].
  cbn [col_pos app] in *. destruct (str_eqb name c); [exact H|].
  destruct (col_pos name a) as [k|]; [|discriminate H].
  now rewrite (IH k eq_refl).
Qed.

Lemma col_pos_app_r name a b :
  col_pos name a = None ->
  col_pos name (a ++ b) = option_map (fun k => List.length a + k) (col_pos name b).
Proof.
  induction a as [|c a IH]; intros H.
  - cbn. destruct (col_pos name b); reflexivity.
  - cbn [col_pos app] in *. destruct (str_eqb name c); [discriminate H|].
    destruct (col_pos name a) as [k|]; [discriminate H|].
    rewrite (IH eq_refl). destruct (col_pos name b); reflexivity.
Qed.

Lemma col_pos_firstn_skipn name cols i j :
  col_pos name cols = Some j ->
  (j < i /\ col_pos name (firstn i cols) = Some j)
  \/ (i <= j /\ col_pos name (firstn i cols) = None
      /\ col_pos name (skipn i cols) = Some (j - i)).
Proof.
  revert i j. induction cols as [|c cols IH]; intros i j H; [discriminate H|].
  destruct i as [|i].
  - right. cbn [firstn skipn]. rewrite Nat.sub_0_r. split; [lia|]. split; [reflexivity | exact H].
  - cbn [col_pos firstn skipn] in *. destruct (str_eqb name c).
    + injection H as <-. left. split; [lia | reflexivity].
    + destruct (col_pos name cols) as [k|] eqn:Ek; [|discriminate H].
      injection H as <-.
      destruct (IH i k eq_refl) as [[Hlt E] | (Hle & E1 & E2)].
      * left. rewrite E. split; [lia | reflexivity].
      * right. rewrite E1, E2. split; [lia|]. split; reflexivity.
Qed.

Lemma col_pos_insert_nth name b cols i j :
  col_pos b cols = Some j -> b <> name -> i <= List.length cols ->
  col_pos b (insert_nth i name cols) = Some (if j <? i then j else S j).
Proof.
  intros Hj Hb Hi. unfold insert_nth.
  destruct (col_pos_firstn_skipn b cols i j Hj) as [[Hlt E] | (Hle & E1 & E2)].
  - apply Nat.ltb_lt in Hlt as Hlt'. rewrite Hlt'. now apply col_pos_app_l.
  - apply Nat.ltb_ge in Hle as Hle'. rewrite Hle'.
    rewrite (col_pos_app_r _ _ _ E1). cbn [col_pos].
    destruct (str_eqb b name) eqn:E; [apply str_eqb_eq in E; contradiction|].
    rewrite E2. cbn [option_map]. rewrite length_firstn, Nat.min_l by lia.
    f_equal. lia.
Qed.

Lemma Forall2_combine_In {A B} (P : A -> B -> Prop) l l' a b :
  Forall2 P l l' -> In (a, b) (combine l l') -> P a b.
Proof.
  induction 1 as [|x y l l' Hxy _ IH]; cbn [combine]; [intros []|].
  intros [E|Hin]; [now injection E as <- <- | auto].
Qed.

Lemma Forall2_map_combine_In {A B C D} (P : C -> B -> Prop) (h : A -> C)
      (g : B -> D) l bs a d :
  Forall2 P (map h l) bs -> In (a, d) (combine l (map g bs)) ->
  exists b, d = g b /\ P (h a) b.
Proof.
  revert bs. induction l as [|x l IH]; intros bs HF Hin; [destruct Hin|].
  cbn [map] in HF. inversion HF as [|? y ? bs' Hxy HF']; subst.
  cbn [map combine] in Hin. destruct Hin as [E|Hin].
  - injection E as <- <-. eauto.
  - eauto.
Qed.

(** X6: [CPE] is the fourth column of the reference table, and on every
    row it holds the integer read from the start of that row's [B]: the
    characters before the first "." or "=". *)
Theorem prepare_riemenschneider_CPE bct riemenschneider :
  well_formed bct ->
  prepare_riemenschneider bct = Ok riemenschneider ->
  nth 3 (columns riemenschneider) [] = ("CPE" : str)
  /\ exists jB,
       col_pos "B" (columns riemenschneider) = Some jB
       /\ forall r, In r (rows riemenschneider) ->
            exists s c, at_col jB r = Str s
                        /\ int (prefix_before dot_or_eq s) = Ok c
                        /\ at_col 3 r = Int c.
Proof.
  intros Hwf H.
  destruct (prepare_riemenschneider_stages _ _ H)
    as (iR & keys & f3 & j & cpe & HR & Ek & E3 & Ej & Ec & Hins).
  set (f1 := {| columns := columns bct;
                rows := filter (fun r => notna (at_col iR r)) (rows bct) |}) in *.
  assert (Hlen : List.length (map Int keys) = List.length (rows f1)).
  { rewrite length_map, (make_integer_column_length _ _ Ek).
    now rewrite length_map. }
  pose proof (set_index_setitem_well_formed f1 _ _ f3
                (filter_well_formed _ _ Hwf) Hlen E3) as Hwf3.
  apply sort_index_well_formed in Hwf3.
  unfold insert_column in Hins. cbn [sort_index columns rows] in Hins.
  destruct (existsb (str_eqb "CPE") (columns f3)); [discriminate Hins|].
  destruct (List.length (columns f3) <? 3) eqn:E3c; [discriminate Hins|].
  apply Nat.ltb_ge in E3c. injection Hins as <-. cbn [columns rows].
  split; [now apply nth_insert_nth_at|].
  exists (if j <? 3 then j else S j). split.
  - apply col_pos_insert_nth; auto. intros E. cbv in E. discriminate E.
  - intros r Hr. apply in_map_iff in Hr as ([r4 v] & <- & Hin).
    cbn [fst snd].
    assert (Hr4 : In r4 (sort_by fst (rows f3))) by (eapply in_combine_l; eauto).
    unfold well_formed in Hwf3. rewrite Forall_forall in Hwf3.
    specialize (Hwf3 r4 Hr4). cbn [sort_index columns rows] in Hwf3.
    apply map_result_ok in Ec.
    assert (exists c, v = Int c /\ make_integer_cell (at_col j r4) = Ok c)
      as (c & -> & Hc).
    { exact (Forall2_map_combine_In _ _ _ _ _ _ _ Ec Hin). }
    destruct (at_col j r4) as [|s|z] eqn:Es; try discriminate Hc.
    exists s, c. unfold at_col in *. cbn [snd].
    rewrite nth_insert_nth_other by lia.
    rewrite nth_insert_nth_at by lia.
    repeat split; [exact Es|]. cbn [make_integer_cell] in Hc.
    now rewrite hd_split_by in Hc.
Qed.

Lemma prepare_riemenschneider_CPE_witness :
  exists riemenschneider,
    prepare_riemenschneider Sample.bct = Ok riemenschneider
    /\ nth 3 (columns riemenschneider) [] = ("CPE" : str).
Proof.
  destruct (prepare_riemenschneider Sample.bct) as [riem|] eqn:E;
    [|vm_compute in E; discriminate E].
  exists riem. split; [reflexivity|].
  exact (proj1 (prepare_riemenschneider_CPE Sample.bct riem sample_bct_well_formed E)).
Defined.

(** ** Tables that [prepare_riemenschneider] rejects *)

Lemma In_remove_nth {A} (l : list A) i x d :
  In x l -> nth i l d <> x -> In x (remove_nth i l).
Proof.
  intros Hin Hne. unfold remove_nth.
  rewrite <- (firstn_skipn i l) in Hin. apply in_app_or in Hin as [Hin|Hin].
  - apply in_or_app. now left.
  - apply in_or_app. right.
    destruct (skipn i l) as [|y t] eqn:E; [destruct Hin|].
    assert (Hy : nth i l d = y).
    { rewrite <- (firstn_skipn i l), E.
      destruct (Nat.le_gt_cases (List.length l) i) as [Hle|Hlt].
      - rewrite skipn_all2 in E by exact Hle. discriminate E.
      - rewrite app_nth2; rewrite length_firstn, Nat.min_l by lia; [|lia].
        now rewrite Nat.sub_diag. }
    replace (skipn (S i) l) with t.
    + destruct Hin as [<-|Hin]; [contradiction | exact Hin].
    + change (S i) with (1 + i). rewrite <- skipn_skipn, E. reflexivity.
Qed.

Lemma In_remove_nth_inv {A} (l : list A) i x : In x (remove_nth i l) -> In x l.
Proof.
  unfold remove_nth. intros H. rewrite <- (firstn_skipn i l).
  apply in_or_app. apply in_app_or in H as [H|H]; [now left | right].
  change (S i) with (1 + i) in H. rewrite <- skipn_skipn in H.
  destruct (skipn i l) as [|y t]; [exact H | now right].
Qed.

Lemma existsb_str_eqb_In name cols :
  existsb (str_eqb name) cols = true <-> In name cols.
Proof.
  rewrite existsb_exists. split.
  - intros (x & Hx & E). apply str_eqb_eq in E. now subst.
  - intros H. exists name. split; [exact H | apply str_eqb_refl].
Qed.

Lemma col_pos_none_In name cols : col_pos name cols = None <-> ~ In name cols.
Proof.
  induction cols as [|c cols IH]; cbn [col_pos In]; [tauto|].
  destruct (str_eqb name c) eqn:E.
  - apply str_eqb_eq in E. subst. split; [discriminate | tauto].
  - assert (c <> name).
    { intros ->. rewrite str_eqb_refl in E. discriminate E. }
    destruct (col_pos name cols); cbn [option_map].
    + split; [discriminate|]. intros Hn.
      assert (Some n = None) as E' by (apply IH; tauto). discriminate E'.
    + split; [|reflexivity]. intros _ [Hc|Hin]; [contradiction|].
      now apply (proj1 IH).
Qed.

(** X7: [prepare_riemenschneider] raises [AttributeError] on a table
    without a column [R], and it raises on a table without a column [B],
    on a table that already has a column [CPE], and on a table with fewer
    than three columns. *)
Theorem prepare_riemenschneider_rejects bct :
  (~ In ("R" : str) (columns bct) ->
   prepare_riemenschneider bct = Raise AttributeError)
  /\ (~ In ("B" : str) (columns bct) -> raises (prepare_riemenschneider bct))
  /\ (In ("CPE" : str) (columns bct) -> raises (prepare_riemenschneider bct))
  /\ (List.length (columns bct) < 3 -> raises (prepare_riemenschneider bct)).
Proof.
  assert (Hcols : forall riem, prepare_riemenschneider bct = Ok riem ->
            exists f3 : frame,
              (columns f3 = columns bct
               \/ exists i, columns f3 = remove_nth i (columns bct)
                            /\ nth i (columns bct) [] = ("Riemenschneider" : str))
              /\ In ("B" : str) (columns f3)
              /\ existsb (str_eqb "CPE") (columns f3) = false
              /\ (List.length (columns f3) <? 3) = false).
  { intros riem H.
    destruct (prepare_riemenschneider_stages _ _ H)
      as (iR & keys & f3 & j & cpe & HR & Ek & E3 & Ej & Ec & Hins).
    exists f3.
    apply set_index_setitem_columns in E3. cbn [columns] in E3.
    unfold insert_column in Hins. cbn [sort_index columns rows] in Hins.
    destruct (existsb (str_eqb "CPE") (columns f3)); [discriminate Hins|].
    destruct (List.length (columns f3) <? 3); [discriminate Hins|].
    repeat split.
    - destruct (col_pos "Riemenschneider" (columns bct)) as [i|] eqn:Ei.
      + right. exists i. split; [exact E3|]. now apply col_pos_nth.
      + now left.
    - destruct (col_pos_none_In "B" (columns f3)) as [_ Hn].
      destruct (in_dec (list_eq_dec ascii_dec) ("B" : str) (columns f3)) as [Hin|Hout];
        [exact Hin|].
      rewrite (Hn Hout) in Ej. discriminate Ej. }
  assert (Hsub : forall (f3 : frame) x,
            (columns f3 = columns bct
             \/ exists i, columns f3 = remove_nth i (columns bct)
                          /\ nth i (columns bct) [] = ("Riemenschneider" : str)) ->
            In x (columns f3) -> In x (columns bct)).
  { intros f3 x [-> | (i & -> & _)] Hin; [exact Hin|].
    now apply In_remove_nth_inv in Hin. }
  split; [|split; [|split]].
  - intros Hn. apply col_pos_none_In in Hn.
    unfold prepare_riemenschneider, R_not_missing, column_pos. now rewrite Hn.
  - intros Hn. destruct (prepare_riemenschneider bct) as [riem|e] eqn:E;
      [|now exists e].
    destruct (Hcols riem eq_refl) as (f3 & Hc & HB & _).
    exfalso. apply Hn. exact (Hsub f3 _ Hc HB).
  - intros Hin. destruct (prepare_riemenschneider bct) as [riem|e] eqn:E;
      [|now exists e].
    destruct (Hcols riem eq_refl) as (f3 & Hc & _ & HC & _).
    exfalso.
    assert (In ("CPE" : str) (columns f3)) as Hin3.
    { destruct Hc as [-> | (i & -> & Hi)]; [exact Hin|].
      apply (In_remove_nth _ _ _ []); [exact Hin|].
      intros E'. pose proof (eq_trans (eq_sym Hi) E') as X. cbv in X.
      discriminate X. }
    apply existsb_str_eqb_In in Hin3. rewrite Hin3 in HC. discriminate HC.
  - intros Hlt. destruct (prepare_riemenschneider bct) as [riem|e] eqn:E;
      [|now exists e].
    destruct (Hcols riem eq_refl) as (f3 & Hc & _ & _ & HL).
    exfalso. apply Nat.ltb_ge in HL.
    destruct Hc as [Hc | (i & Hc & _)]; rewrite Hc in HL; [lia|].
    pose proof (length_remove_nth_le (columns bct) i). lia.
Qed.

Lemma prepare_riemenschneider_rejects_witness :
  prepare_riemenschneider {| columns := ["Title" : str; "B" : str; "BWV" : str];
                             rows := [] |} = Raise AttributeError
  /\ raises (prepare_riemenschneider
               {| columns := ["R" : str; "B" : str]; rows := [] |}).
Proof.
  split.
  - apply (proj1 (prepare_riemenschneider_rejects _)).
    cbn. intros [E|[E|[E|[]]]]; discriminate E.
  - apply (proj2 (proj2 (proj2 (prepare_riemenschneider_rejects _)))).
    cbn. lia.
Defined.

(** ** Keys that occur more than once *)

Lemma rows_with_key_In k rs :
  0 < rows_with_key k rs <-> exists r, In r rs /\ m_key r = k.
Proof.
  unfold rows_with_key. split.
  - intros H. destruct (filter _ rs) as [|r t] eqn:E; [cbn in H; lia|].
    assert (Hr : In r (filter (fun r => cell_eqb (m_key r) k) rs))
      by (rewrite E; now left).
    apply filter_In in Hr as [Hr Hk]. apply cell_eqb_eq in Hk. eauto.
  - intros (r & Hr & Hk).
    assert (Hin : In r (filter (fun r => cell_eqb (m_key r) k) rs)).
    { apply filter_In. split; [exact Hr|]. now apply cell_eqb_eq. }
    destruct (filter _ rs); [destruct Hin | cbn; lia].
Qed.

(** X8: the number of rows of the join with a given key is the product of
    the numbers of rows with that key in the two tables, a table without
    the key counting as one row: keys that occur more than once on both
    sides are multiplied, and a key is the key of some row of the join
    exactly when it occurs in one of the two tables. *)
Theorem mapping_table_multiplicity riemenschneider wikitable m j k :
  mapping_rows riemenschneider wikitable = Ok m ->
  col_pos "Riemenschneider" (columns wikitable) = Some j ->
  rows_with_key k (m_rows m)
  = Nat.max 1 (occurrences k (labels riemenschneider))
    * Nat.max 1 (occurrences k (map (at_col j) (rows wikitable)))
    - (if (occurrences k (labels riemenschneider) =? 0)
          && (occurrences k (map (at_col j) (rows wikitable)) =? 0)
       then 1 else 0)
  /\ ((exists r, In r (m_rows m) /\ m_key r = k)
      <-> In k (labels riemenschneider)
          \/ In k (map (at_col j) (rows wikitable))).
Proof.
  intros Hm Hj.
  destruct (mapping_rows_merge _ _ _ Hm) as (m0 & Hm0 & Hperm).
  assert (Hcount : rows_with_key k (m_rows m)
                   = occurrences k (labels riemenschneider)
                     * Nat.max 1 (occurrences k (map (at_col j) (rows wikitable)))
                     + (if occurrences k (labels riemenschneider) =? 0
                        then occurrences k (map (at_col j) (rows wikitable))
                        else 0)).
  { rewrite (rows_with_key_perm k _ _ Hperm).
    exact (merge_outer_count _ _ _ _ _ _ k Hm0 Hj). }
  split.
  - rewrite Hcount.
    destruct (occurrences k (labels riemenschneider)) as [|a];
      destruct (occurrences k (map (at_col j) (rows wikitable))) as [|b];
      cbn [Nat.eqb andb]; lia.
  - rewrite <- rows_with_key_In, Hcount, !occurrences_In.
    destruct (occurrences k (labels riemenschneider)) as [|a];
      destruct (occurrences k (map (at_col j) (rows wikitable))) as [|b];
      cbn [Nat.eqb]; lia.
Qed.

Lemma mapping_table_multiplicity_witness :
  exists m,
    mapping_rows {| columns := ["Title" : str];
                    rows := [(Int 1, [Str "a"]); (Int 1, [Str "b"])] |}
                 {| columns := ["389" : str; "Riemenschneider" : str];
                    rows := [(Int 0, [Int 5; Int 1]); (Int 1, [Int 6; Int 1]);
                             (Int 2, [Int 7; Int 1])] |} = Ok m
    /\ rows_with_key (Int 1) (m_rows m) = 6.
Proof.
  set (left := {| columns := ["Title" : str];
                  rows := [(Int 1, [Str "a"]); (Int 1, [Str "b"])] |}).
  set (right := {| columns := ["389" : str; "Riemenschneider" : str];
                   rows := [(Int 0, [Int 5; Int 1]); (Int 1, [Int 6; Int 1]);
                            (Int 2, [Int 7; Int 1])] |}).
  destruct (mapping_rows left right) as [m|] eqn:E;
    [|vm_compute in E; discriminate E].
  exists m. split; [reflexivity|].
  exact (proj1 (mapping_table_multiplicity left right m 1 (Int 1) E eq_refl)).
Defined.

(** ** Where the cells of a joined row come from *)

Lemma pair_left_right nr rrows l r :
  In r (pair_left nr rrows l) ->
  (exists x, In x rrows /\ fst x = fst l /\ m_right r = snd x)
  \/ ((forall x, In x rrows -> fst x <> fst l) /\ m_right r = repeat NA nr).
Proof.
  unfold pair_left. intros H.
  destruct (filter (fun r => cell_eqb (fst l) (fst r)) rrows) as [|y ys] eqn:F.
  - right. destruct H as [<-|[]]. split; [|reflexivity].
    intros x Hx E.
    assert (In x (filter (fun r => cell_eqb (fst l) (fst r)) rrows)) as Hin.
    { apply filter_In. split; [exact Hx|]. apply cell_eqb_eq. now symmetry. }
    rewrite F in Hin. destruct Hin.
  - left. apply in_map_iff in H as (x & <- & Hx). rewrite <- F in Hx.
    apply filter_In in Hx as [Hx E]. apply cell_eqb_eq in E.
    exists x. cbn [m_right]. auto.
Qed.

Lemma pair_left_In nr rrows l x :
  In x rrows -> fst x = fst l ->
  In {| m_key := fst l; m_left := snd l; m_right := snd x |}
     (pair_left nr rrows l).
Proof.
  intros Hx E. unfold pair_left.
  assert (In x (filter (fun r => cell_eqb (fst l) (fst r)) rrows)) as Hin.
  { apply filter_In. split; [exact Hx|]. apply cell_eqb_eq. now symmetry. }
  destruct (filter (fun r => cell_eqb (fst l) (fst r)) rrows) as [|y ys];
    [destruct Hin|].
  apply in_map_iff. exists x. auto.
Qed.

Lemma pair_left_nonempty nr rrows l :
  exists r, In r (pair_left nr rrows l).
Proof.
  unfold pair_left.
  destruct (filter (fun r => cell_eqb (fst l) (fst r)) rrows) as [|y ys].
  - eexists. now left.
  - eexists. cbn [map]. now left.
Qed.

Lemma merge_outer_rows left right key suffix m j :
  merge_outer left right key suffix = Ok m ->
  col_pos key (columns right) = Some j ->
  Permutation (m_rows m)
              (flat_map (pair_left (List.length (columns right) - 1) (keyed j right))
                        (rows left)
               ++ right_only (List.length (columns left)) (rows left) (keyed j right)).
Proof.
  intros H Hj. unfold merge_outer, column_pos in H. rewrite Hj in H.
  cbn [Py.bind] in H. injection H as <-. cbn [m_rows]. apply sort_by_perm.
Qed.

Lemma mapping_rows_rows riemenschneider wikitable m j :
  mapping_rows riemenschneider wikitable = Ok m ->
  col_pos "Riemenschneider" (columns wikitable) = Some j ->
  Permutation (m_rows m)
              (flat_map (pair_left (List.length (columns wikitable) - 1)
                                   (keyed j wikitable))
                        (rows riemenschneider)
               ++ right_only (List.length (columns riemenschneider))
                             (rows riemenschneider) (keyed j wikitable)).
Proof.
  intros Hm Hj.
  destruct (mapping_rows_merge _ _ _ Hm) as (m0 & Hm0 & Hperm).
  rewrite Hperm. exact (merge_outer_rows _ _ _ _ _ _ Hm0 Hj).
Qed.

Lemma keyed_In j right x :
  In x (keyed j right) <->
  exists r, In r (rows right) /\ fst x = at_col j r /\ snd x = remove_nth j (snd r).
Proof.
  unfold keyed. rewrite in_map_iff. split.
  - intros (r & <- & Hr). exists r. auto.
  - intros (r & Hr & E1 & E2). exists r. split; [|exact Hr].
    destruct x. cbn in *. now subst.
Qed.

(** X9: every row of the join is put together from rows of the two tables
    that have its key: the cells on the left are those of a row of the
    reference table with that key, or all missing when the reference table
    has no such row; the cells on the right are those of a row of the wiki
    table with that key, without the key column, or all missing when the
    wiki table has no such row. *)
Theorem mapping_table_rows_sound riemenschneider wikitable m j row :
  mapping_rows riemenschneider wikitable = Ok m ->
  col_pos "Riemenschneider" (columns wikitable) = Some j ->
  In row (m_rows m) ->
  ((exists l, In l (rows riemenschneider)
              /\ fst l = m_key row /\ m_left row = snd l)
   \/ (~ In (m_key row) (labels riemenschneider)
       /\ m_left row = repeat NA (List.length (columns riemenschneider))))
  /\ ((exists r, In r (rows wikitable)
                 /\ at_col j r = m_key row
                 /\ m_right row = remove_nth j (snd r))
      \/ (~ In (m_key row) (map (at_col j) (rows wikitable))
          /\ m_right row = repeat NA (List.length (columns wikitable) - 1))).
Proof.
  intros Hm Hj Hrow.
  apply (Permutation_in _ (mapping_rows_rows _ _ _ _ Hm Hj)) in Hrow.
  apply in_app_or in Hrow as [Hrow|Hrow].
  - apply in_flat_map in Hrow as (l & Hl & Hrow).
    destruct (pair_left_key _ _ _ _ Hrow) as [Hk Hleft].
    split.
    + left. exists l. auto.
    + destruct (pair_left_right _ _ _ _ Hrow) as [(x & Hx & E & Hr) | [Hno Hr]].
      * left. apply keyed_In in Hx as (r & Hin & E1 & E2).
        exists r. rewrite Hk, Hr, <- E, E1, E2. auto.
      * right. split; [|exact Hr]. rewrite Hk. intros Hin.
        apply in_map_iff in Hin as (r & E & Hin).
        apply (Hno (at_col j r, remove_nth j (snd r))); [|exact E].
        apply keyed_In. exists r. auto.
  - unfold right_only in Hrow. apply in_map_iff in Hrow as (x & <- & Hx).
    apply filter_In in Hx as [Hx Hno]. cbn [m_key m_left m_right].
    apply keyed_In in Hx as (r & Hin & E1 & E2). split.
    + right. split; [|reflexivity]. intros Hl.
      apply in_map_iff in Hl as (l & E & Hl).
      apply negb_true_iff in Hno.
      assert (existsb (fun l => cell_eqb (fst l) (fst x)) (rows riemenschneider)
              = true) as Hex.
      { apply existsb_exists. exists l. split; [exact Hl|].
        now apply cell_eqb_eq. }
      rewrite Hex in Hno. discriminate Hno.
    + left. exists r. rewrite E1, E2. auto.
Qed.


Lemma mapping_table_rows_sound_witness :
  exists m row,
    mapping_rows {| columns := ["Title" : str]; rows := [(Int 1, [Str "a"])] |}
                 Sample.wikitable = Ok m
    /\ In row (m_rows m)
    /\ ((exists l, In l [(Int 1, [Str "a"])]
                   /\ fst l = m_key row /\ m_left row = snd l)
        \/ (~ In (m_key row) [Int 1] /\ m_left row = repeat NA 1)).
Proof.
  set (left := {| columns := ["Title" : str]; rows := [(Int 1, [Str "a"])] |}).
  destruct (mapping_rows left Sample.wikitable) as [m|] eqn:E;
    [|vm_compute in E; discriminate E].
  exists m, {| m_key := Int 400; m_left := [NA];
               m_right := [Int 4; Str "Ach Gott vom Himmel"] |}.
  assert (Hin : In {| m_key := Int 400; m_left := [NA];
                      m_right := [Int 4; Str "Ach Gott vom Himmel"] |} (m_rows m)).
  { pose proof E as E'. vm_compute in E'. injection E' as E'. rewrite <- E'.
    cbn. auto 10. }
  split; [reflexivity|]. split; [exact Hin|].
  exact (proj1 (mapping_table_rows_sound left Sample.wikitable m 1 _ E eq_refl Hin)).
Defined.

(** X10: the join loses no row: every row of the reference table and
    every row of the wiki table appears in it with its cells, and two rows
    with the same key appear side by side in one row of the join. *)
Theorem mapping_table_rows_complete riemenschneider wikitable m j :
  mapping_rows riemenschneider wikitable = Ok m ->
  col_pos "Riemenschneider" (columns wikitable) = Some j ->
  (forall l, In l (rows riemenschneider) ->
     exists row, In row (m_rows m) /\ m_key row = fst l /\ m_left row = snd l)
  /\ (forall r, In r (rows wikitable) ->
        exists row, In row (m_rows m) /\ m_key row = at_col j r
                    /\ m_right row = remove_nth j (snd r))
  /\ (forall l r, In l (rows riemenschneider) -> In r (rows wikitable) ->
        at_col j r = fst l ->
        In {| m_key := fst l; m_left := snd l; m_right := remove_nth j (snd r) |}
           (m_rows m)).
Proof.
  intros Hm Hj.
  pose proof (mapping_rows_rows _ _ _ _ Hm Hj) as Hperm.
  assert (Hpair : forall l r, In l (rows riemenschneider) -> In r (rows wikitable) ->
            at_col j r = fst l ->
            In {| m_key := fst l; m_left := snd l;
                  m_right := remove_nth j (snd r) |} (m_rows m)).
  { intros l r Hl Hr E.
    apply (Permutation_in _ (Permutation_sym Hperm)).
    apply in_or_app. left. apply in_flat_map. exists l. split; [exact Hl|].
    apply (pair_left_In _ _ l (at_col j r, remove_nth j (snd r))).
    - apply keyed_In. exists r. auto.
    - exact E. }
  split; [|split; [|exact Hpair]].
  - intros l Hl.
    destruct (pair_left_nonempty (List.length (columns wikitable) - 1)
                (keyed j wikitable) l) as (row & Hrow).
    exists row. split.
    + apply (Permutation_in _ (Permutation_sym Hperm)).
      apply in_or_app. left. apply in_flat_map. eauto.
    + exact (pair_left_key _ _ _ _ Hrow).
  - intros r Hr.
    destruct (existsb (fun l => cell_eqb (fst l) (at_col j r))
                      (rows riemenschneider)) eqn:Ex.
    + apply existsb_exists in Ex as (l & Hl & E). apply cell_eqb_eq in E.
      eexists. split; [apply (Hpair l r Hl Hr); now symmetry|].
      cbn [m_key m_right]. auto.
    + exists {| m_key := at_col j r;
                m_left := repeat NA (List.length (columns riemenschneider));
                m_right := remove_nth j (snd r) |}.
      split; [|auto].
      apply (Permutation_in _ (Permutation_sym Hperm)).
      apply in_or_app. right. unfold right_only. apply in_map_iff.
      exists (at_col j r, remove_nth j (snd r)). split; [reflexivity|].
      apply filter_In. split.
      * apply keyed_In. exists r. auto.
      * cbn [fst]. now rewrite Ex.
Qed.

Lemma mapping_table_rows_complete_witness :
  exists m,
    mapping_rows {| columns := ["Title" : str]; rows := [(Int 1, [Str "a"])] |}
                 Sample.wikitable = Ok m
    /\ In {| m_key := Int 1; m_left := [Str "a"];
             m_right := [Int 3; Str "Ach Gott und Herr"] |} (m_rows m).
Proof.
  set (left := {| columns := ["Title" : str]; rows := [(Int 1, [Str "a"])] |}).
  destruct (mapping_rows left Sample.wikitable) as [m|] eqn:E;
    [|vm_compute in E; discriminate E].
  exists m. split; [reflexivity|].
  apply (proj2 (proj2 (mapping_table_rows_complete left Sample.wikitable m 1 E eq_refl))
           (Int 1, [Str "a"]) (Int 2, [Int 3; Int 1; Str "Ach Gott und Herr"])).
  - now left.
  - cbn. auto.
  - reflexivity.
Defined.

(** ** The order of the rows *)

Lemma str_leb_total a b : str_leb a b = true \/ str_leb b a = true.
Proof.
  revert b. induction a as [|x a IH]; intros [|y b]; cbn [str_leb]; auto.
  destruct (nat_of_ascii x <? nat_of_ascii y) eqn:E1; [now left|].
  destruct (nat_of_ascii y <? nat_of_ascii x) eqn:E2; [now right|].
  apply IH.
Qed.

Lemma str_leb_trans a b c :
  str_leb a b = true -> str_leb b c = true -> str_leb a c = true.
Proof.
  revert b c. induction a as [|x a IH]; intros [|y b] [|z c]; cbn [str_leb];
    try discriminate; auto.
  destruct (nat_of_ascii x <? nat_of_ascii y) eqn:E1,
           (nat_of_ascii y <? nat_of_ascii x) eqn:E2,
           (nat_of_ascii y <? nat_of_ascii z) eqn:E3,
           (nat_of_ascii z <? nat_of_ascii y) eqn:E4,
           (nat_of_ascii x <? nat_of_ascii z) eqn:E5,
           (nat_of_ascii z <? nat_of_ascii x) eqn:E6;
    try discriminate; auto;
    rewrite ?Nat.ltb_lt, ?Nat.ltb_ge in *; try lia.
  apply IH.
Qed.

Lemma cell_leb_total a b : cell_leb a b = true \/ cell_leb b a = true.
Proof.
  destruct a as [|x|x], b as [|y|y]; cbn [cell_leb]; auto.
  - apply str_leb_total.
  - destruct (Z.leb_spec x y); [now left|]. right. apply Z.leb_le. lia.
Qed.

Lemma cell_leb_trans a b c :
  cell_leb a b = true -> cell_leb b c = true -> cell_leb a c = true.
Proof.
  destruct a as [|x|x], b as [|y|y], c as [|z|z]; cbn [cell_leb];
    try discriminate; auto.
  - apply str_leb_trans.
  - rewrite !Z.leb_le. lia.
Qed.

Section SortedBy.

Variable A : Type.
Variable key : A -> cell.

Lemma insert_by_perm a l : Permutation (insert_by key a l) (a :: l).
Proof.
  induction l as [|c l IH]; cbn [insert_by]; [reflexivity|].
  destruct (cell_leb (key a) (key c)); [reflexivity|].
  rewrite perm_swap. now constructor.
Qed.

Lemma insert_by_sorted a l :
  StronglySorted (key_le key) l -> StronglySorted (key_le key) (insert_by key a l).
Proof.
  induction 1 as [|b l Hs IH Hb]; cbn [insert_by].
  - constructor; constructor.
  - destruct (cell_leb (key a) (key b)) eqn:E.
    + constructor; [now constructor|]. constructor; [exact E|].
      rewrite Forall_forall in *. intros x Hx.
      exact (cell_leb_trans _ _ _ E (Hb x Hx)).
    + constructor; [exact IH|].
      apply (Permutation_Forall (Permutation_sym (insert_by_perm a l))).
      constructor; [|exact Hb]. unfold key_le.
      destruct (cell_leb_total (key a) (key b)) as [H|H]; [congruence | exact H].
Qed.

Lemma sort_by_sorted l : StronglySorted (key_le key) (sort_by key l).
Proof.
  induction l as [|a l IH]; cbn [sort_by fold_right]; [constructor|].
  now apply insert_by_sorted.
Qed.

End SortedBy.


Lemma sorted_reset_index i rs : forall ls,
  StronglySorted (key_le (fun r => nth i (flat r) NA)) rs ->
  StronglySorted (key_le (at_col i)) (combine ls (map flat rs)).
Proof.
  induction rs as [|r rs IH]; intros ls Hs.
  - destruct ls; constructor.
  - destruct ls as [|l ls]; [constructor|].
    inversion Hs as [|? ? Hs' Hr]; subst. cbn [map combine].
    constructor; [now apply IH|].
    apply Forall_forall. intros [l' c'] Hin.
    apply in_combine_r in Hin. apply in_map_iff in Hin as (r' & <- & Hr').
    rewrite Forall_forall in Hr. exact (Hr r' Hr').
Qed.

Lemma length_range_index n : List.length (range_index n) = n.
Proof. unfold range_index. now rewrite length_map, length_seq. Qed.

Lemma mapping_table_stages riemenschneider wikitable f :
  mapping_table riemenschneider wikitable = Ok f ->
  exists m0 i,
    merge_outer riemenschneider wikitable "Riemenschneider" "_wiki" = Ok m0
    /\ col_pos "389" (m_columns m0) = Some i
    /\ mapping_rows riemenschneider wikitable
       = Ok {| m_columns := m_columns m0;
               m_rows := sort_by (fun r => nth i (flat r) NA) (m_rows m0) |}
    /\ f = reset_index
             {| m_columns := m_columns m0;
                m_rows := sort_by (fun r => nth i (flat r) NA) (m_rows m0) |}.
Proof.
  unfold mapping_table, mapping_rows. intros H.
  destruct (merge_outer _ _ _ _) as [m0|]; [|discriminate H].
  cbn [Py.bind] in *. unfold sort_values in *.
  destruct (col_pos "389" (m_columns m0)) as [i|] eqn:Ei; [|discriminate H].
  destruct (mixed _); [discriminate H|].
  cbn [Py.bind] in H. injection H as <-. exists m0, i. repeat split. exact Ei.
Qed.

(** X11: the rows of [mapping_table.csv] are in ascending order of the
    column [389], the rows without a value in that column last, and they
    are numbered from 0 in that order. *)
Theorem mapping_table_sorted riemenschneider wikitable f :
  mapping_table riemenschneider wikitable = Ok f ->
  exists i,
    col_pos "389" (columns f) = Some i
    /\ StronglySorted (key_le (at_col i)) (rows f)
    /\ labels f = range_index (List.length (rows f)).
Proof.
  intros H. destruct (mapping_table_stages _ _ _ H) as (m0 & i & _ & Hi & _ & ->).
  exists i. unfold reset_index. cbn [columns rows m_columns m_rows].
  split; [exact Hi|]. split.
  - apply sorted_reset_index, sort_by_sorted.
  - unfold labels. cbn [rows].
    rewrite length_combine, length_range_index, length_map, Nat.min_id.
    apply map_fst_combine. now rewrite length_range_index, length_map.
Qed.

Lemma mapping_table_sorted_witness :
  exists f i,
    mapping_table {| columns := ["Title" : str]; rows := [(Int 1, [Str "a"])] |}
                  Sample.wikitable = Ok f
    /\ col_pos "389" (columns f) = Some i
    /\ StronglySorted (key_le (at_col i)) (rows f)
    /\ labels f = range_index (List.length (rows f)).
Proof.
  set (left := {| columns := ["Title" : str]; rows := [(Int 1, [Str "a"])] |}).
  destruct (mapping_table left Sample.wikitable) as [f|] eqn:E;
    [|vm_compute in E; discriminate E].
  destruct (mapping_table_sorted left Sample.wikitable f E) as (i & H).
  exists f, i. split; [reflexivity | exact H].
Defined.

(** ** Tables that cannot be joined *)

(** X12: the join raises [KeyError] when the wiki table has no column
    [Riemenschneider], and when neither table has a column [389] to sort
    by. *)
Theorem mapping_table_key_errors riemenschneider wikitable :
  (~ In ("Riemenschneider" : str) (columns wikitable) ->
   mapping_table riemenschneider wikitable = Raise KeyError)
  /\ (~ In ("389" : str) (columns riemenschneider) ->
      ~ In ("389" : str) (columns wikitable) ->
      mapping_table riemenschneider wikitable = Raise KeyError).
Proof.
  split.
  - intros Hn. apply col_pos_none_In in Hn.
    unfold mapping_table, mapping_rows, merge_outer, column_pos.
    now rewrite Hn.
  - intros Hl Hr.
    unfold mapping_table, mapping_rows, merge_outer, column_pos.
    destruct (col_pos "Riemenschneider" (columns wikitable)) as [j|];
      [|reflexivity].
    cbn [Py.bind]. unfold sort_values. cbn [m_columns].
    match goal with
    | |- context [col_pos ?n ?cols] =>
        assert (Hnone : col_pos n cols = None)
    end.
    { apply col_pos_none_In. intros [E | Hin].
      - cbv in E. discriminate E.
      - apply in_app_or in Hin as [Hin | Hin]; [now apply Hl|].
        apply in_map_iff in Hin as (c & E & Hc).
        apply In_remove_nth_inv in Hc.
        destruct (existsb (str_eqb c) (columns riemenschneider)).
        + apply (f_equal (@List.length ascii)) in E.
          rewrite length_app in E. cbn in E. lia.
        + subst c. now apply Hr. }
    now rewrite Hnone.
Qed.

Lemma mapping_table_key_errors_witness :
  mapping_table {| columns := ["Title" : str]; rows := [] |}
                {| columns := ["389" : str; "Title" : str]; rows := [] |}
  = Raise KeyError.
Proof.
  apply (proj1 (mapping_table_key_errors _ _)).
  cbn. intros [E|[E|[]]]; discriminate E.
Defined.

(** ** The rows of the final table *)

Lemma final_table_stages krn_metadata title_list riemenschneider t :
  final_table krn_metadata title_list riemenschneider = Ok t ->
  exists iT kf xf cf iBWV bwv bf,
    col_pos "title" (columns krn_metadata) = Some iT
    /\ Series krn_file_values (labels riemenschneider) "krn_file" = Ok kf
    /\ Series xml_file_values (labels riemenschneider) "xml_file" = Ok xf
    /\ Series (map cell_of_option title_list) (labels riemenschneider) "cap_file"
       = Ok cf
    /\ col_pos "BWV" (columns riemenschneider) = Some iBWV
    /\ make_bwv_column (map (at_col iBWV) (rows riemenschneider)) = Ok bwv
    /\ Series bwv (labels riemenschneider) "bwv" = Ok bf
    /\ concat_axis1
         [ {| columns := ["krn_title" : str];
              rows := map (fun r => (fst r, [at_col iT r])) (rows krn_metadata) |};
           kf; xf; cf; bf; riemenschneider ] = Ok t.
Proof.
  unfold final_table, column_as, column_pos. intros H.
  destruct (col_pos "title" (columns krn_metadata)) as [iT|] eqn:E1;
    [|discriminate H].
  cbn [Py.bind] in H.
  destruct (Series krn_file_values _ "krn_file") as [kf|] eqn:E2;
    [|discriminate H].
  cbn [Py.bind] in H.
  destruct (Series xml_file_values _ "xml_file") as [xf|] eqn:E3;
    [|discriminate H].
  cbn [Py.bind] in H.
  destruct (Series (map cell_of_option title_list) _ "cap_file") as [cf|] eqn:E4;
    [|discriminate H].
  cbn [Py.bind] in H.
  destruct (col_pos "BWV" (columns riemenschneider)) as [iBWV|] eqn:E5;
    [|discriminate H].
  cbn [Py.bind] in H.
  destruct (make_bwv_column _) as [bwv|] eqn:E6; [|discriminate H].
  cbn [Py.bind] in H.
  destruct (Series bwv _ "bwv") as [bf|] eqn:E7; [|discriminate H].
  cbn [Py.bind] in H.
  exists iT, kf, xf, cf, iBWV, bwv, bf. repeat split; auto.
Qed.

Lemma length_krn_file_values : List.length krn_file_values = 371.
Proof. reflexivity. Qed.

Lemma length_xml_file_values : List.length xml_file_values = 371.
Proof. reflexivity. Qed.

Lemma Series_length_mismatch values index name :
  List.length values <> List.length index ->
  Series values index name = Raise ValueError.
Proof.
  intros H. unfold Series.
  destruct (Nat.eqb_spec (List.length values) (List.length index));
    [contradiction | reflexivity].
Qed.

(** X13: the final table is built only for a reference table of exactly
    371 rows and a list of 371 discovered files.  With any other number
    the run ends in [ValueError] (given that [krn_metadata] has its [title]
    column), the file names being attached to the index by position. *)
Theorem final_table_needs_371 krn_metadata title_list riemenschneider :
  (forall t, final_table krn_metadata title_list riemenschneider = Ok t ->
             List.length (rows riemenschneider) = 371
             /\ List.length title_list = 371)
  /\ (In ("title" : str) (columns krn_metadata) ->
      List.length (rows riemenschneider) <> 371
      \/ List.length title_list <> 371 ->
      final_table krn_metadata title_list riemenschneider = Raise ValueError).
Proof.
  split.
  - intros t H.
    destruct (final_table_stages _ _ _ _ H)
      as (iT & kf & xf & cf & iBWV & bwv & bf & _ & Hkf & _ & Hcf & _).
    apply Series_ok in Hkf as [Hkf _]. apply Series_ok in Hcf as [Hcf _].
    rewrite length_krn_file_values in Hkf. unfold labels in Hkf, Hcf.
    rewrite length_map in Hkf. rewrite !length_map in Hcf. lia.
  - intros Ht Hn. unfold final_table, column_as, column_pos.
    destruct (col_pos "title" (columns krn_metadata)) as [iT|] eqn:Ei.
    2:{ apply col_pos_none_In in Ei. contradiction. }
    cbn [Py.bind].
    destruct (Nat.eq_dec (List.length (rows riemenschneider)) 371) as [E|E].
    + destruct Hn as [Hn|Hn]; [contradiction|].
      unfold Series at 1 2.
      unfold labels. rewrite length_map, length_krn_file_values,
        length_xml_file_values, E.
      cbn [Nat.eqb Py.bind].
      rewrite Series_length_mismatch; [reflexivity|].
      rewrite !length_map. lia.
    + rewrite Series_length_mismatch; [reflexivity|].
      unfold labels. rewrite length_map, length_krn_file_values. lia.
Qed.

Lemma final_table_needs_371_witness :
  final_table {| columns := ["title" : str]; rows := [] |} []
              {| columns := ["BWV" : str]; rows := [(Int 1, [Str "250"])] |}
  = Raise ValueError.
Proof.
  apply (proj2 (final_table_needs_371 _ _ _)).
  - cbn. auto.
  - left. cbn. lia.
Defined.

Lemma find_map {A B} (p : B -> bool) (g : A -> B) l :
  find p (map g l) = option_map g (find (fun x => p (g x)) l).
Proof.
  induction l as [|a l IH]; [reflexivity|]. cbn [map find].
  destruct (p (g a)); [reflexivity | exact IH].
Qed.

Lemma Forall2_map_combine_pick {A B C D E} (P : C -> B -> Prop) (h : A -> C)
      (g1 : A -> D) (g2 : B -> E) l bs a :
  Forall2 P (map h l) bs -> In a l ->
  exists b, In (g1 a, g2 b) (combine (map g1 l) (map g2 bs)) /\ P (h a) b.
Proof.
  revert bs. induction l as [|x l IH]; intros bs HF Hin; [destruct Hin|].
  cbn [map] in HF. inversion HF as [|? y ? bs' Hxy HF']; subst.
  cbn [map combine]. destruct Hin as [->|Hin].
  - exists y. split; [now left | exact Hxy].
  - destruct (IH _ HF' Hin) as (b & Hb & HP). exists b. split; [now right | exact HP].
Qed.

Lemma nth_combine_single {A} (l : list A) (vs : list cell) i d :
  i < List.length l -> List.length vs = List.length l ->
  In (nth i l d, [nth i vs NA]) (combine l (map (fun v => [v]) vs)).
Proof.
  revert vs i. induction l as [|x l IH]; intros [|v vs] i Hi Hl;
    cbn [List.length] in *; try lia.
  destruct i as [|i]; cbn [nth map combine]; [now left|].
  right. apply IH; lia.
Qed.

Lemma nth_file_values (f : Z -> cell) i :
  i < 371 -> nth i (map f (range 1 372)) NA = f (Z.of_nat i + 1)%Z.
Proof.
  intros Hi. unfold range. rewrite map_map.
  change (Z.to_nat (372 - 1)) with 371.
  set (g := fun k => f (1 + Z.of_nat k)%Z).
  rewrite (nth_indep _ NA (g 0)) by now rewrite length_map, length_seq.
  rewrite (map_nth g), seq_nth by exact Hi. unfold g. f_equal. lia.
Qed.

(** X14: the final table has the five new columns [krn_title],
    [krn_file], [xml_file], [cap_file] and [bwv] in front of the columns of
    the reference table.  The row of the [i]-th reference label, counted
    from 0, holds the title of the row of [krn_metadata] that has the same
    label, or a missing value when there is none; the two file names built
    from the number [i + 1]; the title of the [i]-th discovered file; the
    cleaned first alternate of the row's [BWV]; and then the cells of the
    reference row, unchanged.  So [krn_title] is matched by label, the
    file names and [cap_file] by position. *)
Theorem final_table_rows krn_metadata title_list riemenschneider t i :
  final_table krn_metadata title_list riemenschneider = Ok t ->
  NoDup (labels riemenschneider) ->
  i < List.length (rows riemenschneider) ->
  columns t = ["krn_title" : str; "krn_file" : str; "xml_file" : str;
               "cap_file" : str; "bwv" : str] ++ columns riemenschneider
  /\ exists iT iBWV bwv,
       col_pos "title" (columns krn_metadata) = Some iT
       /\ col_pos "BWV" (columns riemenschneider) = Some iBWV
       /\ make_bwv_cell (at_col iBWV (nth i (rows riemenschneider) (NA, [])))
          = Ok bwv
       /\ loc t (fst (nth i (rows riemenschneider) (NA, [])))
          = Some (match find (fun k =>
                                cell_eqb (fst k)
                                  (fst (nth i (rows riemenschneider) (NA, []))))
                             (rows krn_metadata) with
                  | Some k => at_col iT k
                  | None => NA
                  end
                  :: krn_file_name (Z.of_nat i + 1)
                  :: xml_file_name (Z.of_nat i + 1)
                  :: cell_of_option (nth i title_list None)
                  :: bwv
                  :: snd (nth i (rows riemenschneider) (NA, []))).
Proof.
  intros H Hnd Hi.
  set (r := nth i (rows riemenschneider) (NA, [])).
  assert (Hr : In r (rows riemenschneider)) by now apply nth_In.
  destruct (final_table_stages _ _ _ _ H)
    as (iT & kf & xf & cf & iBWV & bwv & bf & HT & Hkf & Hxf & Hcf & HB
        & Hbwv & Hbf & Hcat).
  destruct (concat_axis1_loc _ t riemenschneider (fst r) Hcat) as [Hcols Hloc].
  { simpl. auto 10. }
  { unfold labels. now apply in_map. }
  { exact Hnd. }
  pose proof (Series_ok _ _ _ _ Hkf) as [Lkf Ekf].
  pose proof (Series_ok _ _ _ _ Hxf) as [Lxf Exf].
  pose proof (Series_ok _ _ _ _ Hcf) as [Lcf Ecf].
  pose proof (Series_ok _ _ _ _ Hbf) as [Lbf Ebf].
  assert (H371 : i < 371).
  { rewrite length_krn_file_values in Lkf. unfold labels in Lkf.
    rewrite length_map in Lkf. lia. }
  split.
  - rewrite Hcols. cbn [flat_map]. rewrite Ekf, Exf, Ecf, Ebf. cbn [columns].
    now rewrite app_nil_r.
  - assert (Hpos : forall vals name f,
              Series vals (labels riemenschneider) name = Ok f ->
              reindex_row f (fst r) = [nth i vals NA]).
    { intros vals name f Hf.
      pose proof (Series_labels _ _ _ _ Hf) as Hlab.
      apply Series_ok in Hf as [Hlen ->].
      unfold reindex_row.
      assert (Hl : loc {| columns := [name];
                          rows := combine (labels riemenschneider)
                                          (map (fun v => [v]) vals) |} (fst r)
                   = Some [nth i vals NA]).
      { apply (loc_row _ (fst r, [nth i vals NA])).
        - now rewrite Hlab.
        - cbn [rows]. unfold r, labels.
          rewrite <- (map_nth fst).
          apply nth_combine_single; [now rewrite length_map | exact Hlen]. }
      now rewrite Hl. }
    pose proof (Hpos _ _ _ Hkf) as Ha.
    pose proof (Hpos _ _ _ Hxf) as Hb.
    pose proof (Hpos _ _ _ Hcf) as Hc.
    unfold krn_file_values in Ha. unfold xml_file_values in Hb.
    rewrite nth_file_values in Ha, Hb by exact H371.
    assert (Hcap : nth i (map cell_of_option title_list) NA
                   = cell_of_option (nth i title_list None))
      by apply (map_nth cell_of_option title_list None i).
    rewrite Hcap in Hc.
    apply make_bwv_column_ok in Hbwv.
    destruct (Forall2_map_combine_pick _ (at_col iBWV) fst (fun v => [v])
                _ _ r Hbwv Hr) as (e & He & Hclean).
    assert (Hbrow : reindex_row bf (fst r) = [e]).
    { unfold reindex_row.
      assert (Hl : loc bf (fst r) = Some [e]).
      { apply (loc_row bf (fst r, [e])).
        - now rewrite (Series_labels _ _ _ _ Hbf).
        - rewrite Ebf. cbn [rows]. exact He. }
      now rewrite Hl. }
    assert (Hrrow : reindex_row riemenschneider (fst r) = snd r).
    { unfold reindex_row. now rewrite (loc_row _ r Hnd Hr). }
    exists iT, iBWV, e.
    split; [exact HT|]. split; [exact HB|]. split; [exact Hclean|].
    rewrite Hloc. cbn [flat_map]. rewrite Ha, Hb, Hc, Hbrow, Hrrow.
    rewrite app_nil_r. cbn [app]. f_equal. f_equal.
    unfold reindex_row, loc. cbn [rows columns].
    rewrite find_map. cbn [fst].
    destruct (find (fun x => cell_eqb (fst x) (fst r)) (rows krn_metadata));
      reflexivity.
Qed.

Lemma final_table_rows_witness :
  exists riemenschneider krn_metadata t,
    prepare_riemenschneider Sample.bct_from_2 = Ok riemenschneider
    /\ make_krn_metadata Sample.world Sample.krn_table = Ok krn_metadata
    /\ final_table krn_metadata (title_list_of Sample.cap_files) riemenschneider
       = Ok t
    /\ columns t = ["krn_title" : str; "krn_file" : str; "xml_file" : str;
                    "cap_file" : str; "bwv" : str] ++ columns riemenschneider.
Proof.
  destruct (prepare_riemenschneider Sample.bct_from_2) as [riem|] eqn:E1;
    [|vm_compute in E1; discriminate E1].
  destruct (make_krn_metadata Sample.world Sample.krn_table) as [km|] eqn:E2;
    [|vm_compute in E2; discriminate E2].
  destruct (final_table km (title_list_of Sample.cap_files) riem) as [t|] eqn:E3.
  - exists riem, km, t.
    assert (Hn : NoDup (labels riem)).
    { apply nodupb_true. vm_compute in E1. injection E1 as <-.
      vm_compute. reflexivity. }
    assert (Hi : 0 < List.length (rows riem)).
    { vm_compute in E1. injection E1 as <-. cbn [rows List.length]. lia. }
    split; [reflexivity|]. split; [reflexivity|]. split; [exact E3|].
    exact (proj1 (final_table_rows km _ riem t 0 E3 Hn Hi)).
  - exfalso. vm_compute in E1. injection E1 as <-.
    vm_compute in E2. injection E2 as <-.
    vm_compute in E3. discriminate E3.
Defined.

(** ** The rows of [krn_metadata] *)

Lemma map_result_length {A B} (f : A -> result B) l bs :
  map_result f l = Ok bs -> List.length bs = List.length l.
Proof. intros H%map_result_ok. symmetry. exact (Forall2_length H). Qed.

Lemma removelast_map {A B} (f : A -> B) l :
  removelast (map f l) = map f (removelast l).
Proof.
  induction l as [|a [|b l] IH]; try reflexivity.
  change (f a :: removelast (map f (b :: l)) = f a :: map f (removelast (b :: l))).
  now rewrite IH.
Qed.

Lemma removelast_combine {A B} (l : list A) (l' : list B) :
  List.length l' = List.length l ->
  removelast (combine l l') = combine (removelast l) (removelast l').
Proof.
  revert l'. induction l as [|a [|b l] IH]; intros [|a' [|b' l']] H;
    try reflexivity; try discriminate H.
  change (removelast (combine (a :: b :: l) (a' :: b' :: l')))
    with ((a, a') :: removelast (combine (b :: l) (b' :: l'))).
  rewrite IH by (cbn in *; lia). reflexivity.
Qed.

Lemma length_removelast {A} (l : list A) :
  List.length (removelast l) = List.length l - 1.
Proof.
  induction l as [|a [|b l] IH]; try reflexivity.
  change (S (List.length (removelast (b :: l))) = S (List.length (b :: l)) - 1).
  rewrite IH. cbn [List.length]. lia.
Qed.

Lemma Forall2_removelast {A B} (P : A -> B -> Prop) l l' :
  Forall2 P l l' -> Forall2 P (removelast l) (removelast l').
Proof.
  induction 1 as [|a b l l' Hab HF IH]; [constructor|].
  destruct HF as [|a2 b2 l2 l2' H2 HF2]; [constructor|].
  change (Forall2 P (a :: removelast (a2 :: l2)) (b :: removelast (b2 :: l2'))).
  now constructor.
Qed.

(** The three tables of line 76 have the same index and are put side by
    side. *)
Lemma zip_three {X} (lab : X -> cell) (F G H : X -> list cell) c1 c2 c3
      (xs : list X) :
  zip_rows [ {| columns := c1; rows := map (fun x => (lab x, F x)) xs |};
             {| columns := c2; rows := map (fun x => (lab x, G x)) xs |};
             {| columns := c3; rows := map (fun x => (lab x, H x)) xs |} ]
  = map (fun x => (lab x, F x ++ G x ++ H x)) xs.
Proof.
  cbn [zip_rows rows]. induction xs as [|x xs IH]; [reflexivity|].
  cbn [map combine fst snd]. now rewrite IH.
Qed.

Lemma make_krn_metadata_stages w krn_table krn_metadata :
  make_krn_metadata w krn_table = Ok krn_metadata ->
  exists iD ds iS index,
    col_pos "description" (map (strip "* ") (columns krn_table)) = Some iD
    /\ map_result (unescape_cell w) (map (at_col iD) (rows krn_table)) = Ok ds
    /\ col_pos "sort" (columns krn_metadata) = Some iS
    /\ columns krn_metadata
       = removelast (map (strip "* ") (columns krn_table))
         ++ ["bwv" : str; "title" : str; "bwv1" : str; "bwv2" : str; "mode" : str]
    /\ map_result int_cell
         (map (at_col iS)
              (removelast
                 (map (fun rd => (fst (fst rd),
                                  removelast (snd (fst rd))
                                  ++ [cell_of_option
                                        (description_bwv (str_extract (snd rd)))]
                                  ++ description_cells (str_extract (snd rd))))
                      (combine (rows krn_table) ds))))
       = Ok index
    /\ rows krn_metadata
       = combine (map Int index)
           (map snd
              (removelast
                 (map (fun rd => (fst (fst rd),
                                  removelast (snd (fst rd))
                                  ++ [cell_of_option
                                        (description_bwv (str_extract (snd rd)))]
                                  ++ description_cells (str_extract (snd rd))))
                      (combine (rows krn_table) ds)))).
Proof.
  unfold make_krn_metadata, column_pos. cbn [columns rows]. intros H.
  destruct (col_pos "description" (map (strip "* ") (columns krn_table)))
    as [iD|] eqn:ED; [|discriminate H].
  cbn [Py.bind] in H.
  destruct (map_result (unescape_cell w) (map (at_col iD) (rows krn_table)))
    as [ds|] eqn:Eds; [|discriminate H].
  cbn [Py.bind] in H.
  pose proof (map_result_length _ _ _ Eds) as Hlen. rewrite length_map in Hlen.
  unfold Series in H. unfold labels in H at 1. cbn [rows] in H.
  rewrite !length_map, Hlen, Nat.eqb_refl in H. cbn [Py.bind] in H.
  set (xs := combine (rows krn_table) ds) in *.
  assert (Hfst : map fst xs = rows krn_table).
  { unfold xs. now apply map_fst_combine. }
  assert (Hsnd : map snd xs = ds).
  { unfold xs. now apply map_snd_combine. }
  set (F := fun x : (cell * list cell) * cell => removelast (snd (fst x))).
  set (G := fun x : (cell * list cell) * cell =>
              [cell_of_option (description_bwv (str_extract (snd x)))]).
  set (Hd := fun x : (cell * list cell) * cell =>
               description_cells (str_extract (snd x))).
  assert (E1 : map (fun r => (fst r, removelast (snd r))) (rows krn_table)
               = map (fun x => (fst (fst x), F x)) xs).
  { rewrite <- Hfst at 1. now rewrite map_map. }
  assert (E2 : combine (labels {| columns := map (strip "* ") (columns krn_table);
                                  rows := rows krn_table |})
                 (map (fun v => [v])
                      (map (fun d => cell_of_option (description_bwv d))
                           (map str_extract ds)))
               = map (fun x => (fst (fst x), G x)) xs).
  { unfold labels. cbn [rows]. rewrite <- Hfst, <- Hsnd at 1.
    rewrite !map_map. apply combine_map_same. }
  assert (E3 : combine (labels {| columns := map (strip "* ") (columns krn_table);
                                  rows := rows krn_table |})
                 (map description_cells (map str_extract ds))
               = map (fun x => (fst (fst x), Hd x)) xs).
  { unfold labels. cbn [rows]. rewrite <- Hfst, <- Hsnd at 1.
    rewrite !map_map. apply combine_map_same. }
  unfold drop_last_column in H. cbn [columns rows] in H.
  rewrite E1, E2, E3 in H.
  unfold concat_axis1 in H.
  match type of H with
  | context [forallb ?p ?l] =>
      assert (Hall : forallb p l = true)
  end.
  { cbn [forallb]. unfold labels. cbn [rows]. rewrite !map_map. cbn [fst].
    assert (Hrefl : labels_eqb (map (fun x => fst (fst x)) xs)
                               (map (fun x => fst (fst x)) xs) = true)
      by now apply labels_eqb_eq.
    now rewrite Hrefl. }
  rewrite Hall in H. cbn [Py.bind columns rows flat_map] in H.
  match type of H with
  | context [zip_rows ?l] =>
      assert (Hzip : zip_rows l = map (fun x => (fst (fst x), F x ++ G x ++ Hd x)) xs)
  end.
  { exact (zip_three (fun x => fst (fst x)) F G Hd _ _ _ xs). }
  rewrite Hzip in H. clear Hzip Hall.
  rewrite app_nil_r in H.
  match type of H with
  | context [col_pos ?n ?c] =>
      destruct (col_pos n c) as [iS|] eqn:ES; [|discriminate H]
  end.
  cbn [Py.bind] in H.
  match type of H with
  | context [map_result int_cell ?l] =>
      destruct (map_result int_cell l) as [index|] eqn:EI; [|discriminate H]
  end.
  cbn [Py.bind] in H. injection H as <-. cbn [columns rows].
  exists iD, ds, iS, index. repeat split; auto.
Qed.

Lemma unescape_cell_ok w c d :
  unescape_cell w c = Ok d -> exists s, c = Str s /\ d = Str (unescape w s).
Proof.
  destruct c as [|s|z]; try discriminate. intros [= <-]. now exists s.
Qed.

Lemma krn_rows_related (U : cell * list cell -> cell -> Prop)
      (f : (cell * list cell) * cell -> cell * list cell) iS rs ds : forall index,
  Forall2 U rs ds ->
  Forall2 (fun c n => int_cell c = Ok n)
          (map (at_col iS) (map f (combine rs ds))) index ->
  Forall2 (fun r k => exists d n, U r d
                                  /\ snd k = snd (f (r, d))
                                  /\ int_cell (at_col iS k) = Ok n
                                  /\ fst k = Int n)
          rs (combine (map Int index) (map snd (map f (combine rs ds)))).
Proof.
  intros index HU. revert index.
  induction HU as [|r d rs ds Hrd _ IH]; intros index HI.
  - cbn in HI. inversion HI. constructor.
  - cbn [combine map] in HI. inversion HI as [|? n ? index' Hn HI']; subst.
    cbn [combine map]. constructor; [|now apply IH].
    exists d, n. cbn [fst snd]. repeat split; auto.
Qed.

(** X15: [krn_metadata] holds one row for each row of the index file but
    the last.  Its columns are those of the index file but the last, with
    the names stripped of asterisks and blanks, followed by [bwv], [title],
    [bwv1], [bwv2] and [mode]; each row keeps its cells but the last, the
    new cells are extracted from its unescaped description, with [bwv]
    made of [bwv1], a dot and [bwv2]; and the row is labelled with the
    integer value of its [sort] cell. *)
Theorem make_krn_metadata_rows w krn_table krn_metadata :
  make_krn_metadata w krn_table = Ok krn_metadata ->
  columns krn_metadata
  = removelast (map (strip "* ") (columns krn_table))
    ++ ["bwv" : str; "title" : str; "bwv1" : str; "bwv2" : str; "mode" : str]
  /\ List.length (rows krn_metadata) = List.length (rows krn_table) - 1
  /\ exists iD iS,
       col_pos "description" (map (strip "* ") (columns krn_table)) = Some iD
       /\ col_pos "sort" (columns krn_metadata) = Some iS
       /\ Forall2
            (fun r k =>
               exists s n,
                 at_col iD r = Str s
                 /\ snd k
                    = removelast (snd r)
                      ++ cell_of_option
                           (description_bwv (str_extract (Str (unescape w s))))
                         :: description_cells (str_extract (Str (unescape w s)))
                 /\ int_cell (at_col iS k) = Ok n
                 /\ fst k = Int n)
            (removelast (rows krn_table)) (rows krn_metadata).
Proof.
  intros H.
  destruct (make_krn_metadata_stages _ _ _ H)
    as (iD & ds & iS & index & HD & Hds & HS & Hcols & Hidx & Hrows).
  pose proof (map_result_length _ _ _ Hds) as Hlen. rewrite length_map in Hlen.
  rewrite removelast_map, removelast_combine in Hidx, Hrows by exact Hlen.
  apply map_result_ok in Hds, Hidx.
  assert (HU : Forall2 (fun r d => unescape_cell w (at_col iD r) = Ok d)
                       (removelast (rows krn_table)) (removelast ds)).
  { apply Forall2_removelast. clear - Hds.
    induction (rows krn_table) as [|r rs IH] in ds, Hds |- *.
    - inversion Hds. constructor.
    - inversion Hds; subst. constructor; auto. }
  pose proof (krn_rows_related _ _ iS _ _ index HU Hidx) as HF.
  rewrite <- Hrows in HF.
  split; [exact Hcols|]. split.
  - rewrite <- (Forall2_length HF). apply length_removelast.
  - exists iD, iS. split; [exact HD|]. split; [exact HS|].
    eapply Forall2_impl; [|exact HF].
    intros r k (d & n & Hu & Hk & Hn & Hl). cbn [fst snd] in Hk.
    apply unescape_cell_ok in Hu as (s & Hs & ->).
    exists s, n. auto.
Qed.

Lemma make_krn_metadata_rows_witness :
  exists krn_metadata,
    make_krn_metadata Sample.world Sample.krn_table = Ok krn_metadata
    /\ columns krn_metadata
       = ["sort" : str; "file" : str; "bwv" : str; "title" : str; "bwv1" : str;
          "bwv2" : str; "mode" : str]
    /\ List.length (rows krn_metadata) = 371.
Proof.
  destruct (make_krn_metadata Sample.world Sample.krn_table) as [km|] eqn:E;
    [|vm_compute in E; discriminate E].
  exists km. split; [reflexivity|].
  destruct (make_krn_metadata_rows _ _ _ E) as (Hc & Hl & _).
  split; [rewrite Hc; reflexivity | rewrite Hl; reflexivity].
Defined.

(** ** Index files that [make_krn_metadata] rejects *)

Lemma map_unescape_raises w l c :
  In c l -> (forall s, c <> Str s) ->
  map_result (unescape_cell w) l = Raise TypeError.
Proof.
  intros Hin Hc. induction l as [|a l IH]; [destruct Hin|].
  cbn [map_result]. destruct a as [|s|z]; try reflexivity.
  destruct Hin as [E|Hin]; [now elim (Hc s)|].
  cbn [unescape_cell Py.bind]. now rewrite (IH Hin).
Qed.

(** X16: the description of every row of the index file is unescaped
    before anything is extracted, so one row without a description, be it
    the last row that is dropped afterwards, makes [make_krn_metadata]
    raise [TypeError], and the run ends there without having written a
    file.  Without a column [description] it raises [AttributeError]. *)
Theorem make_krn_metadata_rejects w krn_table :
  (~ In ("description" : str) (map (strip "* ") (columns krn_table)) ->
   make_krn_metadata w krn_table = Raise AttributeError)
  /\ (forall iD r,
        col_pos "description" (map (strip "* ") (columns krn_table)) = Some iD ->
        In r (rows krn_table) -> (forall s, at_col iD r <> Str s) ->
        make_krn_metadata w krn_table = Raise TypeError
        /\ forall src bct,
             read_text w "BCT_html_source" = Some src ->
             get_table w src 0 default_na_values default_attrs = Ok bct ->
             krn_index w = Ok krn_table ->
             run w = (Raise TypeError, [])).
Proof.
  split.
  - intros Hn. apply col_pos_none_In in Hn.
    unfold make_krn_metadata, column_pos. cbn [columns]. now rewrite Hn.
  - intros iD r HD Hr Hs.
    assert (E : make_krn_metadata w krn_table = Raise TypeError).
    { unfold make_krn_metadata, column_pos. cbn [columns rows]. rewrite HD.
      cbn [Py.bind].
      rewrite (map_unescape_raises w _ (at_col iD r)); [reflexivity| |exact Hs].
      now apply in_map. }
    split; [exact E|].
    intros src bct Hsrc Hbct Hk.
    unfold run, script, step, lift, open_read.
    now rewrite Hsrc, Hbct, Hk, E.
Qed.

Lemma make_krn_metadata_rejects_witness :
  make_krn_metadata Sample.world
    {| columns := ["**sort" : str; "**description" : str];
       rows := [(Int 0, [Str "1"; Str "<link>a</link>"]); (Int 1, [Str "*-"; NA])] |}
  = Raise TypeError.
Proof.
  apply (proj2 (make_krn_metadata_rejects Sample.world _) 1 (Int 1, [Str "*-"; NA])).
  - reflexivity.
  - cbn. auto.
  - intros s E. discriminate E.
Defined.

(** ** The matcher finds matches of the pattern only *)

Lemma strip_prefix_app p s s' : strip_prefix p s = Some s' -> s = p ++ s'.
Proof.
  revert s. induction p as [|a p IH]; intros [|b s] H; cbn [strip_prefix] in H;
    try discriminate H.
  - now injection H as <-.
  - now injection H as <-.
  - destruct (Ascii.eqb a b) eqn:E; [|discriminate H].
    apply Ascii.eqb_eq in E. subst b. cbn [app]. f_equal. now apply IH.
Qed.

Lemma rep_greedy_sound {A} p (k : str -> option A) s : forall min res,
  rep_greedy p min k s = Some res ->
  exists t rest, s = t ++ rest /\ forallb p t = true
                 /\ min <= List.length t /\ k rest = Some res.
Proof.
  induction s as [|c s IH]; intros min res H.
  - cbn [rep_greedy] in H. destruct min; [|discriminate H].
    exists [], []. cbn. auto.
  - cbn [rep_greedy] in H.
    assert (Hstop : match min with 0 => k (c :: s) | S _ => None end = Some res ->
                    exists t rest, c :: s = t ++ rest /\ forallb p t = true
                                   /\ min <= List.length t /\ k rest = Some res).
    { destruct min; [|discriminate]. intros Hk. exists [], (c :: s). cbn. auto. }
    destruct (p c) eqn:Ec; [|exact (Hstop H)].
    destruct (rep_greedy p (pred min) k s) as [r|] eqn:Er; [|exact (Hstop H)].
    injection H as ->.
    destruct (IH _ _ Er) as (t & rest & -> & Ht & Hm & Hk).
    exists (c :: t), rest. cbn [app forallb List.length]. rewrite Ec, Ht.
    repeat split; auto. lia.
Qed.

Lemma rep_lazy_sound {A} p (k : str -> option A) s : forall min res,
  rep_lazy p min k s = Some res ->
  exists t rest, s = t ++ rest /\ forallb p t = true
                 /\ min <= List.length t /\ k rest = Some res.
Proof.
  induction s as [|c s IH]; intros min res H.
  - cbn [rep_lazy] in H. destruct min; [|discriminate H].
    destruct (k []) as [r|] eqn:Ek; [|discriminate H]. injection H as ->.
    exists [], []. cbn. auto.
  - cbn [rep_lazy] in H.
    destruct (match min with 0 => k (c :: s) | S _ => None end) as [r|] eqn:Ek.
    + injection H as ->. destruct min; [|discriminate Ek].
      exists [], (c :: s). cbn. auto.
    + destruct (p c) eqn:Ec; [|discriminate H].
      destruct (IH _ _ H) as (t & rest & -> & Ht & Hm & Hk).
      exists (c :: t), rest. cbn [app forallb List.length]. rewrite Ec, Ht.
      repeat split; auto. lia.
Qed.

Lemma exec_sound r : forall s cs k res,
  exec r s cs k = Some res ->
  exists t rest cs',
    s = t ++ rest /\ matches r t cs cs' /\ k rest cs' = Some res.
Proof.
  induction r as [l | c min greedy | r IH | g r IH | r1 IH1 r2 IH2];
    intros s cs k res H; cbn [exec] in H.
  - destruct (strip_prefix l s) as [s'|] eqn:E; [|discriminate H].
    apply strip_prefix_app in E. exists l, s', cs.
    repeat split; auto. constructor.
  - assert (exists t rest, s = t ++ rest /\ forallb (cls_test c) t = true
                           /\ min <= List.length t /\ k rest cs = Some res)
      as (t & rest & -> & Ht & Hm & Hk).
    { destruct greedy.
      - exact (rep_greedy_sound _ (fun s' => k s' cs) _ _ _ H).
      - exact (rep_lazy_sound _ (fun s' => k s' cs) _ _ _ H). }
    exists t, rest, cs. repeat split; auto. now constructor.
  - destruct (exec r s cs k) as [res'|] eqn:E.
    + injection H as ->.
      destruct (IH _ _ _ _ E) as (t & rest & cs' & -> & Hm & Hk).
      exists t, rest, cs'. repeat split; auto. now constructor.
    + exists [], s, cs. repeat split; auto. apply matches_Opt_none.
  - destruct (IH _ _ _ _ H) as (t & rest & cs' & -> & Hm & Hk).
    rewrite consumed_app in Hk.
    exists t, rest, (capture g t cs'). repeat split; auto. now constructor.
  - destruct (IH1 _ _ _ _ H) as (t1 & rest1 & cs1 & -> & Hm1 & Hk1).
    destruct (IH2 _ _ _ _ Hk1) as (t2 & rest2 & cs2 & -> & Hm2 & Hk2).
    exists (t1 ++ t2), rest2, cs2. rewrite app_assoc.
    repeat split; auto. econstructor; eauto.
Qed.

Lemma search_sound r s cs :
  search r s = Some cs ->
  exists before t after,
    s = before ++ t ++ after /\ matches r t no_captures cs.
Proof.
  induction s as [|a s IH]; cbn [search]; intros H.
  - destruct (match_here r []) as [cs'|] eqn:E; [|discriminate H].
    injection H as ->. unfold match_here in E.
    destruct (exec_sound _ _ _ _ _ E) as (t & rest & cs' & Hs & Hm & Hk).
    injection Hk as ->. exists [], t, rest. auto.
  - destruct (match_here r (a :: s)) as [cs'|] eqn:E.
    + injection H as ->. unfold match_here in E.
      destruct (exec_sound _ _ _ _ _ E) as (t & rest & cs' & Hs & Hm & Hk).
      injection Hk as ->. exists [], t, rest. auto.
    + destruct (IH H) as (before & t & after & -> & Hm).
      exists (a :: before), t, after. auto.
Qed.

(** ** What the groups of [info_regex] capture *)

Ltac invert_matches :=
  repeat match goal with
         | H : matches (Seq _ _) _ _ _ |- _ => inversion H; subst; clear H
         | H : matches (Lit _) _ _ _ |- _ => inversion H; subst; clear H
         | H : matches (Rep _ _ _) _ _ _ |- _ => inversion H; subst; clear H
         | H : matches (Group _ _) _ _ _ |- _ => inversion H; subst; clear H
         | H : matches (Opt _) _ _ _ |- _ => inversion H; subst; clear H
         end.

Lemma nonempty_length (v : str) : 1 <= List.length v -> v <> [].
Proof. destruct v; cbn; [lia | discriminate]. Qed.

Lemma info_regex_groups t cs :
  matches info_regex t no_captures cs ->
  (forall v, cs bwv1 = Some v -> digits v)
  /\ (forall v, cs bwv2 = Some v -> digits v)
  /\ (forall v, cs mode = Some v ->
        v <> [] /\ forallb (fun a => negb (isspace a)) v = true)
  /\ (exists v, cs title = Some v /\ forallb (fun a => negb (Ascii.eqb a "010")) v = true)
  /\ (cs bwv1 = None -> cs bwv2 = None).
Proof.
  unfold info_regex, cat. cbn [fold_left]. intros H. invert_matches.
  all: cbv [capture no_captures gname_eqb].
  all: repeat match goal with |- _ /\ _ => split end.
  all: try (intros v E; discriminate E).
  all: try (intros v [= <-]; split; [now apply nonempty_length | assumption]).
  all: try (eexists; split; [reflexivity | assumption]).
  all: try (intros E; first [discriminate E | reflexivity]).
Qed.

Lemma forallb_not_newline v :
  forallb (fun a => negb (Ascii.eqb a "010")) v = true -> ~ In "010"%char v.
Proof.
  intros H Hin. rewrite forallb_forall in H. specialize (H _ Hin).
  discriminate H.
Qed.

(** X17: the fields extracted from a description are well formed, for
    every cell: [bwv1] and [bwv2], when present, are non-empty strings of
    digits, and [bwv2] is present only with [bwv1]; [mode] is non-empty and
    has no whitespace; [title] has no line break, and is present whenever
    any field is; hence [bwv], when present, is a number or two numbers
    joined by a dot. *)
Theorem str_extract_fields c :
  (forall v, d_bwv1 (str_extract c) = Some v -> digits v)
  /\ (forall v, d_bwv2 (str_extract c) = Some v -> digits v)
  /\ (d_bwv1 (str_extract c) = None -> d_bwv2 (str_extract c) = None)
  /\ (forall v, d_mode (str_extract c) = Some v ->
        v <> [] /\ forallb (fun a => negb (isspace a)) v = true)
  /\ (forall v, d_title (str_extract c) = Some v -> ~ In "010"%char v)
  /\ (d_title (str_extract c) = None -> str_extract c = no_description)
  /\ (forall b, description_bwv (str_extract c) = Some b ->
        exists b1, digits b1
                   /\ (b = b1 \/ exists b2, digits b2 /\ b = b1 ++ "."%char :: b2)).
Proof.
  assert (Hnone : forall d, d = no_description ->
            (forall v, d_bwv1 d = Some v -> digits v)
            /\ (forall v, d_bwv2 d = Some v -> digits v)
            /\ (d_bwv1 d = None -> d_bwv2 d = None)
            /\ (forall v, d_mode d = Some v ->
                  v <> [] /\ forallb (fun a => negb (isspace a)) v = true)
            /\ (forall v, d_title d = Some v -> ~ In "010"%char v)
            /\ (d_title d = None -> d = no_description)
            /\ (forall b, description_bwv d = Some b ->
                  exists b1, digits b1
                             /\ (b = b1 \/ exists b2, digits b2
                                                      /\ b = b1 ++ "."%char :: b2))).
  { intros d ->. repeat split; try discriminate; auto. }
  destruct c as [|s|z]; try (apply Hnone; reflexivity).
  unfold str_extract.
  destruct (search info_regex s) as [cs|] eqn:E; [|apply Hnone; reflexivity].
  destruct (search_sound _ _ _ E) as (before & t & after & _ & Hm).
  destruct (info_regex_groups _ _ Hm) as (H1 & H2 & H3 & (v0 & Hv0 & Hnl) & H12).
  cbn [d_title d_bwv1 d_bwv2 d_mode].
  split; [exact H1|]. split; [exact H2|]. split; [exact H12|].
  split; [exact H3|]. split; [|split].
  - intros v Hv. rewrite Hv0 in Hv. injection Hv as <-.
    now apply forallb_not_newline.
  - intros Hn. rewrite Hv0 in Hn. discriminate Hn.
  - unfold description_bwv. cbn [d_bwv1 d_bwv2]. intros b Hb.
    destruct (cs bwv1) as [b1|] eqn:E1; [|discriminate Hb].
    injection Hb as <-. exists b1. split; [now apply H1|].
    destruct (cs bwv2) as [b2|] eqn:E2.
    + right. exists b2. split; [now apply H2 | reflexivity].
    + left. apply app_nil_r.
Qed.

Lemma str_extract_fields_witness :
  digits "269"
  /\ exists b1, digits b1
                /\ (("12.3" : str) = b1
                    \/ exists b2, digits b2 /\ ("12.3" : str) = b1 ++ "."%char :: b2).
Proof.
  pose proof (str_extract_fields
                (Str "<link>T</link>, <small>BWV 269</small> (G)")) as H269.
  pose proof (str_extract_fields (Str "<link>T</link>, <small>12/3 abc</small>"))
    as H123.
  split.
  - apply (proj1 H269). reflexivity.
  - apply (proj2 (proj2 (proj2 (proj2 (proj2 (proj2 H123)))))). reflexivity.
Defined.

(** ** Where the fields stand in the cell *)

Lemma occurs_in_skip x t y : occurs_in t y -> occurs_in t (x ++ y).
Proof.
  intros (b & a & ->). exists (x ++ b), a. now rewrite app_assoc.
Qed.

Lemma occurs_in_here t a text : text = t ++ a -> occurs_in t text.
Proof. intros ->. now exists [], a. Qed.

Lemma occurs_in_cons c t y : occurs_in t y -> occurs_in t (c :: y).
Proof. apply (occurs_in_skip [c]). Qed.

Ltac flatten_text :=
  repeat first [ rewrite <- app_assoc | progress cbn [app] ].

Ltac find_occurrence :=
  flatten_text;
  repeat first
    [ solve [eapply occurs_in_here; flatten_text; reflexivity]
    | apply occurs_in_cons
    | apply occurs_in_skip ].

Lemma info_regex_text t cs after :
  matches info_regex t no_captures cs ->
  (forall v, cs title = Some v ->
     occurs_in ("<link>" ++ v ++ "</link>") (t ++ after))
  /\ (forall v, cs mode = Some v -> occurs_in ("(" ++ v ++ ")") (t ++ after))
  /\ (forall v, cs bwv1 = Some v ->
        occurs_in ("</link>, <small>" ++ v) (t ++ after)
        \/ occurs_in ("</link>, <small>BWV " ++ v) (t ++ after))
  /\ (forall v1 v2, cs bwv1 = Some v1 -> cs bwv2 = Some v2 ->
        occurs_in (v1 ++ v2) (t ++ after)
        \/ occurs_in (v1 ++ "/" ++ v2) (t ++ after)).
Proof.
  unfold info_regex, cat. cbn [fold_left]. intros H. invert_matches.
  all: cbv [capture no_captures gname_eqb].
  all: repeat match goal with |- _ /\ _ => split end.
  all: try (intros v E; discriminate E).
  all: try (intros v1 v2 E1 E2; first [discriminate E1 | discriminate E2]).
  all: try (intros v [= <-]; solve [find_occurrence
                                   | left; find_occurrence
                                   | right; find_occurrence]).
  all: try (intros v1 v2 [= <-] [= <-]; solve [left; find_occurrence
                                              | right; find_occurrence]).
Qed.

(** X18: the extracted fields are read from the cell: the title stands
    in the cell between "<link>" and "</link>", the mode between "(" and
    ")", the first number directly after "</link>, <small>" or after
    "</link>, <small>BWV ", and the second number directly after the
    first one or after one "/" that follows it. *)
Theorem str_extract_reads_the_cell s :
  (forall v, d_title (str_extract (Str s)) = Some v ->
     occurs_in ("<link>" ++ v ++ "</link>") s)
  /\ (forall v, d_mode (str_extract (Str s)) = Some v ->
        occurs_in ("(" ++ v ++ ")") s)
  /\ (forall v, d_bwv1 (str_extract (Str s)) = Some v ->
        occurs_in ("</link>, <small>" ++ v) s
        \/ occurs_in ("</link>, <small>BWV " ++ v) s)
  /\ (forall v1 v2,
        d_bwv1 (str_extract (Str s)) = Some v1 ->
        d_bwv2 (str_extract (Str s)) = Some v2 ->
        occurs_in (v1 ++ v2) s \/ occurs_in (v1 ++ "/" ++ v2) s).
Proof.
  unfold str_extract.
  destruct (search info_regex s) as [cs|] eqn:E.
  - destruct (search_sound _ _ _ E) as (before & t & after & -> & Hm).
    destruct (info_regex_text t cs after Hm) as (H1 & H2 & H3 & H4).
    cbn [d_title d_bwv1 d_bwv2 d_mode].
    split; [|split; [|split]].
    + intros v Hv. apply occurs_in_skip. now apply H1.
    + intros v Hv. apply occurs_in_skip. now apply H2.
    + intros v Hv. destruct (H3 v Hv) as [H|H];
        [left | right]; now apply occurs_in_skip.
    + intros v1 v2 Hv1 Hv2. destruct (H4 v1 v2 Hv1 Hv2) as [H|H];
        [left | right]; now apply occurs_in_skip.
  - cbn. repeat split; intros; discriminate.
Qed.

Lemma str_extract_reads_the_cell_witness :
  occurs_in ("<link>" ++ "T" ++ "</link>") "x <link>T</link> (G)"
  /\ occurs_in ("(" ++ "G" ++ ")") "x <link>T</link> (G)".
Proof.
  split.
  - apply (proj1 (str_extract_reads_the_cell "x <link>T</link> (G)")).
    reflexivity.
  - apply (proj1 (proj2 (str_extract_reads_the_cell "x <link>T</link> (G)"))).
    reflexivity.
Defined.

(** ** When the cleaning of a column raises *)

Lemma map_result_raise_inv {A B} (f : A -> result B) l e :
  map_result f l = Raise e -> exists a, In a l /\ f a = Raise e.
Proof.
  induction l as [|a l IH]; cbn [map_result]; [discriminate|].
  destruct (f a) as [b|e'] eqn:Ea; cbn [Py.bind].
  - destruct (map_result f l) as [bs|e'']; cbn [Py.bind]; [discriminate|].
    intros [= ->]. destruct (IH eq_refl) as (x & Hx & Ex).
    exists x. split; [now right | exact Ex].
  - intros [= ->]. exists a. split; [now left | exact Ea].
Qed.

Lemma int_raises_ValueError s e : int s = Raise e -> e = ValueError.
Proof.
  unfold int.
  match goal with
  | |- match ?p with _ => _ end = _ -> _ => destruct p
  end; [discriminate | now intros [= <-]].
Qed.

Lemma clean_bwv_raise_inv s e :
  clean_bwv s = Raise e -> e = ValueError /\ In "."%char (strip "( )" s).
Proof.
  intros H.
  destruct (in_dec ascii_dec "."%char (strip "( )" s)) as [Hin|Hout].
  - split; [|exact Hin].
    apply existsb_eqb_In in Hin.
    destruct (cut_at_last _ _ Hin) as (p & c & d & Hs & Hc & Hd).
    apply Ascii.eqb_eq in Hc. subst c.
    assert (Hnd : ~ In "."%char d).
    { intros Hi. specialize (Hd _ Hi). rewrite Ascii.eqb_refl in Hd.
      discriminate Hd. }
    rewrite (clean_bwv_split s p d Hs Hnd) in H.
    destruct (int d) as [n|e'] eqn:Ei; cbn [Py.bind] in H.
    + unfold override_145a in H. discriminate H.
    + injection H as ->. exact (int_raises_ValueError _ _ Ei).
  - rewrite (clean_bwv_no_dot s Hout) in H. discriminate H.
Qed.

Lemma In_split_by p s seg c : In seg (split_by p s) -> In c seg -> In c s.
Proof.
  intros Hseg Hc. apply (split_by_concat_In p). apply in_concat. eauto.
Qed.

Lemma alternates_chars c l e x :
  alternates c = Ok l -> In e l -> In x e -> exists s, c = Str s /\ In x s.
Proof.
  destruct c as [|s|z]; cbn [alternates fillna]; [| |discriminate].
  - intros [= <-] He. cbv in He. destruct He.
  - intros [= <-] He Hx. exists s. split; [reflexivity|].
    unfold stripped_nonempty in He. apply filter_In in He as [He _].
    apply in_map_iff in He as (seg & <- & Hseg).
    apply strip_by_In in Hx.
    apply (In_split_by _ _ _ _ Hseg) in Hx.
    now apply strip_by_In in Hx.
Qed.

(** X19: [make_bwv_column] fails in two ways only: on a column that
    holds an integer cell, and with [ValueError] on a column where some
    string has a dot.  So it cleans every column of missing cells and
    strings without a dot. *)
Theorem make_bwv_column_failures S :
  (forall e, make_bwv_column S = Raise e ->
     (exists z, In (Int z) S)
     \/ (e = ValueError /\ exists s, In (Str s) S /\ In "."%char s))
  /\ (S <> [] ->
      (forall c, In c S -> c = NA \/ exists s, c = Str s /\ ~ In "."%char s) ->
      exists rs, make_bwv_column S = Ok rs /\ List.length rs = List.length S).
Proof.
  assert (Hfail : forall e, make_bwv_column S = Raise e ->
            (exists z, In (Int z) S)
            \/ (e = ValueError /\ exists s, In (Str s) S /\ In "."%char s)).
  { intros e H. unfold make_bwv_column in H.
    destruct (map_result alternates S) as [L|e'] eqn:EL; cbn [Py.bind] in H.
    - right.
      destruct (map_result_raise_inv _ _ _ H) as (l & Hl & El).
      destruct l as [|x l]; [discriminate El|]. cbn [first_cleaned] in El.
      destruct (clean_bwv x) as [r|e''] eqn:Ex; [discriminate El|].
      cbn [Py.bind] in El. injection El as ->.
      destruct (clean_bwv_raise_inv _ _ Ex) as [-> Hdot]. split; [reflexivity|].
      apply strip_by_In in Hdot.
      apply map_result_ok in EL.
      destruct (Forall2_In_right _ _ _ _ EL Hl) as (c & Hc & Ec).
      destruct (alternates_chars c (x :: l) x "."%char Ec) as (s & -> & Hs);
        [now left | exact Hdot |].
      exists s. auto.
    - left. injection H as ->.
      destruct (map_result_raise_inv _ _ _ EL) as (c & Hc & Ec).
      destruct c as [|s|z]; try discriminate Ec. now exists z. }
  split; [exact Hfail|].
  intros _ Hall. destruct (make_bwv_column S) as [rs|e] eqn:E.
  - exists rs. split; [reflexivity|].
    apply make_bwv_column_ok in E. symmetry. exact (Forall2_length E).
  - exfalso. destruct (Hfail e eq_refl) as [(z & Hz) | [_ (s & Hs & Hdot)]].
    + destruct (Hall _ Hz) as [E'|(s & E' & _)]; discriminate E'.
    + destruct (Hall _ Hs) as [E'|(s' & E' & Hn)]; [discriminate E'|].
      injection E' as <-. contradiction.
Qed.

Lemma make_bwv_column_failures_witness :
  exists rs, make_bwv_column [NA; Str "(250=251)"; Str "145a"] = Ok rs
             /\ List.length rs = 3.
Proof.
  apply (proj2 (make_bwv_column_failures [NA; Str "(250=251)"; Str "145a"])).
  - discriminate.
  - intros c [<-|[<-|[<-|[]]]].
    + now left.
    + right. eexists. split; [reflexivity|].
      cbn. intros H. repeat (destruct H as [H|H]; [discriminate H|]). exact H.
    + right. eexists. split; [reflexivity|].
      cbn. intros H. repeat (destruct H as [H|H]; [discriminate H|]). exact H.
Defined.

(** ** What a run that returns has read *)

Lemma run_ok_stages w :
  fst (run w) = Ok tt ->
  exists src bct krn_table krn_metadata cap_files wikitable riemenschneider
         mapping final,
    read_text w "BCT_html_source" = Some src
    /\ get_table w src 0 default_na_values default_attrs = Ok bct
    /\ krn_index w = Ok krn_table
    /\ make_krn_metadata w krn_table = Ok krn_metadata
    /\ dcml_files w = Ok cap_files
    /\ wikitable_csv w = Ok wikitable
    /\ prepare_riemenschneider bct = Ok riemenschneider
    /\ mapping_table riemenschneider wikitable = Ok mapping
    /\ final_table krn_metadata (title_list_of cap_files) riemenschneider
       = Ok final
    /\ snd (run w)
       = [ ("riemenschneider.csv" : str, Csv true final);
           ("mapping_table.csv" : str, Csv false mapping);
           ("krn_metadata.csv" : str, Csv false krn_metadata);
           ("krn_metadata_dtypes.csv" : str, Dtypes (columns krn_metadata)) ].
Proof.
  unfold run, script, step, lift, to_csv, open_read.
  destruct (read_text w "BCT_html_source") as [src|] eqn:E1; [|discriminate].
  destruct (get_table w src 0 default_na_values default_attrs) as [bct|] eqn:E2;
    [|discriminate].
  destruct (krn_index w) as [kt|] eqn:E3; [|discriminate].
  destruct (make_krn_metadata w kt) as [km|] eqn:E4; [|discriminate].
  destruct (dcml_files w) as [caps|] eqn:E5; [|discriminate].
  destruct (wikitable_csv w) as [wiki|] eqn:E6; [|discriminate].
  destruct (prepare_riemenschneider bct) as [riem|] eqn:E7; [|discriminate].
  destruct (mapping_table riem wiki) as [mapping|] eqn:E8; [|discriminate].
  destruct (final_table km (title_list_of caps) riem) as [final|] eqn:E9;
    [|discriminate].
  intros _. exists src, bct, kt, km, caps, wiki, riem, mapping, final.
  repeat split; assumption.
Qed.

(** X20: a run returns only on a complete collection: the HTML table
    then has exactly 371 rows with a Riemenschneider number, 371 score
    files were discovered, and the wiki table has a column
    [Riemenschneider]. *)
Theorem run_returns_on_371_chorales w :
  fst (run w) = Ok tt ->
  exists src bct cap_files wikitable,
    read_text w "BCT_html_source" = Some src
    /\ get_table w src 0 default_na_values default_attrs = Ok bct
    /\ dcml_files w = Ok cap_files
    /\ wikitable_csv w = Ok wikitable
    /\ List.length cap_files = 371
    /\ In ("Riemenschneider" : str) (columns wikitable)
    /\ (well_formed bct ->
        exists iR, col_pos "R" (columns bct) = Some iR
                   /\ List.length (filter (fun r => notna (at_col iR r)) (rows bct))
                      = 371).
Proof.
  intros H.
  destruct (run_ok_stages w H)
    as (src & bct & kt & km & caps & wiki & riem & mapping & final
        & Hsrc & Hbct & Hkt & Hkm & Hcaps & Hwiki & Hriem & Hmap & Hfinal & _).
  exists src, bct, caps, wiki.
  split; [exact Hsrc|]. split; [exact Hbct|]. split; [exact Hcaps|].
  split; [exact Hwiki|].
  destruct (final_table_stages _ _ _ _ Hfinal)
    as (iT & kf & xf & cf & iBWV & bwv & bf & _ & Hkf & _ & Hcf & _).
  apply Series_ok in Hkf as [Hkf _]. apply Series_ok in Hcf as [Hcf _].
  rewrite length_krn_file_values in Hkf. unfold labels in Hkf, Hcf.
  rewrite length_map in Hkf. rewrite !length_map in Hcf.
  unfold title_list_of in Hcf. rewrite length_map in Hcf.
  split; [lia|]. split.
  - destruct (in_dec (list_eq_dec ascii_dec) ("Riemenschneider" : str)
                     (columns wiki)) as [Hin|Hout]; [exact Hin|].
    exfalso. apply col_pos_none_In in Hout.
    unfold mapping_table, mapping_rows, merge_outer, column_pos in Hmap.
    rewrite Hout in Hmap. discriminate Hmap.
  - intros Hwf.
    destruct (prepare_riemenschneider_stages _ _ Hriem)
      as (iR & keys & f3 & j & cpe & HR & Ek & E3 & Ej & Ec & Hins).
    exists iR. split; [exact HR|].
    set (f1 := {| columns := columns bct;
                  rows := filter (fun r => notna (at_col iR r)) (rows bct) |}) in *.
    assert (Hlen : List.length (map Int keys) = List.length (rows f1)).
    { rewrite length_map, (make_integer_column_length _ _ Ek).
      now rewrite length_map. }
    pose proof (set_index_setitem_labels f1 _ _ f3
                  (filter_well_formed _ _ Hwf) Hlen E3) as Hl3.
    assert (Hl : labels riem = labels (sort_index f3)).
    { apply (insert_column_labels _ _ _ _ _ Hins).
      cbn [rows sort_index]. rewrite length_map, (make_integer_column_length _ _ Ec).
      now rewrite length_map. }
    assert (List.length (rows riem) = List.length (rows f1)) as Hrows.
    { rewrite <- Hlen, <- Hl3.
      transitivity (List.length (labels riem));
        [unfold labels; now rewrite length_map|].
      rewrite Hl. unfold labels, sort_index. cbn [rows]. rewrite !length_map.
      apply Permutation_length, sort_by_perm. }
    change (List.length (rows f1) = 371). rewrite <- Hrows. lia.
Qed.

Lemma run_returns_on_371_chorales_witness :
  exists src bct cap_files wikitable,
    read_text Sample.world "BCT_html_source" = Some src
    /\ get_table Sample.world src 0 default_na_values default_attrs = Ok bct
    /\ dcml_files Sample.world = Ok cap_files
    /\ wikitable_csv Sample.world = Ok wikitable
    /\ List.length cap_files = 371
    /\ In ("Riemenschneider" : str) (columns wikitable)
    /\ (well_formed bct ->
        exists iR, col_pos "R" (columns bct) = Some iR
                   /\ List.length (filter (fun r => notna (at_col iR r)) (rows bct))
                      = 371).
Proof.
  apply (run_returns_on_371_chorales Sample.world).
  vm_compute. reflexivity.
Defined.

